(** * Florida property scraper: the record synthesizer and its HTTP adapter

    A shallow embedding of [generateProperties] (scraper-standalone.cjs) and of
    the serverless handler of api/scrape-v2.js, with the properties the
    specification states about them; and of the code beside them, the first
    adapter (api/scrape.js) with the fallback generator and the price parser
    it shares with the first scraper (index.js), with properties of their
    own.

    Numbers.  A JavaScript number is an IEEE 754 binary64 value.  Numbers that
    hold fractions (the draws of [Math.random()] and what is computed from
    them) are Rocq's primitive binary64 floats, so every product, sum and
    quotient rounds exactly as it does in the program.  Numbers that hold
    integers (loop counters, lengths, the results of [Math.floor] and
    [parseInt] and the sums and products of those) are [Z]; the two agree below
    [2^53], which no array length can reach.  [Z2num] is the passage from the
    second to the first.  [parseInt] can be given more digits than a number
    holds: its result is the integer that the nearest binary64 number is.

    Effects.  [Math.random()] and [new Date()] read the outside world: the
    world is a pair of infinite sequences and the store counts how many values
    of each have been consumed.  A [TypeError] raised while a record is built
    is an error result.  Memory is not a resource of the model: an array can
    grow to any length.

    Strings are sequences of 8-bit code units.  A query parameter is a string
    or is absent.  A response records the status, the headers the handler
    sets itself, and the body. *)

From Stdlib Require Import ZArith Floats Lia Bool List String Ascii.
Import ListNotations.

Set Warnings "-inexact-float".

Local Open Scope list_scope.
Local Open Scope string_scope.
Local Open Scope Z_scope.

(** ** Binary64 arithmetic *)

Module Binary64.

Definition fexp64 (e : Z) : Z := SpecFloat.fexp prec emax e.

(** The state of a right shift by [k] bits of [m]: quotient, round bit and
    sticky bit agree with the remainder. *)
Definition shr_inv (m k : Z) (mrs : shr_record) : Prop :=
  exists rem,
    m = shr_m mrs * 2 ^ k + rem /\ 0 <= rem < 2 ^ k /\ 0 <= shr_m mrs /\
    (k = 0 -> shr_r mrs = false /\ shr_s mrs = false) /\
    (0 < k -> (shr_r mrs = true <-> 2 ^ (k - 1) <= rem) /\
              (shr_s mrs = true <-> rem mod 2 ^ (k - 1) <> 0)).

(** [q] is [m / 2^k] rounded to nearest, ties to even. *)
Definition rne_ok (q m k : Z) : Prop :=
  m / 2 ^ k <= q <= m / 2 ^ k + 1 /\
  2 * Z.abs (q * 2 ^ k - m) <= 2 ^ k /\
  (2 * Z.abs (q * 2 ^ k - m) = 2 ^ k -> Z.even q = true).

(** The same reading against a common unit [U], used to compare two roundings. *)
Definition rne_scaled (q W U : Z) : Prop :=
  2 * Z.abs (q * U - W) <= U /\ (2 * Z.abs (q * U - W) = U -> Z.even q = true).

(** The tail of [binary_round_aux]: renormalise the rounded mantissa. *)
Definition pack (q c : Z) : spec_float :=
  let '(mrs, e) := shr_fexp prec emax q c loc_Exact in
  match shr_m mrs with
  | Z0 => S754_zero false
  | Zpos m => if e <=? emax - prec then S754_finite false m e else S754_infinity false
  | Zneg _ => S754_nan
  end.

(** One correctly rounded result from the exact positive value [M * 2^E]. *)
Definition R (M : positive) (E : Z) : spec_float :=
  binary_round_aux prec emax false (Zpos M) E loc_Exact.

Definition cexp (M : positive) (E : Z) : Z := fexp64 (Zpos (digits2_pos M) + E).

(** Value of a non-negative float, in units of [2^-1074]; infinity sits above
    every finite value. *)
Definition SFval (x : spec_float) : Z :=
  match x with
  | S754_finite false m e => Zpos m * 2 ^ (e + 1074)
  | S754_infinity false => 2 ^ 2100
  | _ => 0
  end.

Definition overflows (q c : Z) : bool :=
  negb ((if q =? 2 ^ 53 then c + 1 else c) <=? 971).

Definition pack_val (q c : Z) : Z :=
  if q =? 0 then 0 else if overflows q c then 2 ^ 2100 else q * 2 ^ (c + 1074).

Definition nonneg_fin (x : spec_float) : bool :=
  match x with
  | S754_zero _ | S754_finite false _ _ => true
  | _ => false
  end.

Definition nonneg_ext (x : spec_float) : bool :=
  match x with
  | S754_zero _ | S754_finite false _ _ | S754_infinity false => true
  | _ => false
  end.

(** The integer part, rounding towards minus infinity. *)
Definition SFfloorZ (x : spec_float) : Z :=
  match x with
  | S754_finite s m e => Z.shiftl (cond_Zopp s (Zpos m)) e
  | _ => 0
  end.

Definition val (x : float) : Z := SFval (Prim2SF x).
Definition fin (x : float) : Prop := nonneg_fin (Prim2SF x) = true.
Definition nonneg (x : float) : Prop := nonneg_ext (Prim2SF x) = true.

(** [Math.floor] on a finite number, as an integer.  On NaN and the
    infinities, where JavaScript answers NaN or the infinity itself, the model
    answers 0; the program never floors such a value. *)
Definition Math_floor (x : float) : Z := SFfloorZ (Prim2SF x).

(** An integer as a number: the nearest binary64 value, exact below [2^53]. *)
Definition Z2num (z : Z) : float := SF2Prim (binary_normalize prec emax z 0 false).

(** The largest binary64 number below one. *)
Definition pred1 : float := 0x1.fffffffffffffp-1%float.

(** What [Math.random()] promises: a number in the interval [0, 1). *)
Definition unit_interval (r : float) : bool := ((0 <=? r) && (r <? 1))%float.

End Binary64.

(** ** The JavaScript built-ins the program calls *)

Module JS.

Import Binary64.

Definition digit_char (d : Z) : ascii := ascii_of_nat (48 + Z.to_nat d).

(** Decimal digits of a non-negative integer, most significant first. *)
Fixpoint digits_fuel (fuel : nat) (n : Z) (acc : string) : string :=
  let acc' := String (digit_char (n mod 10)) acc in
  match fuel with
  | O => acc'
  | S f => if n <? 10 then acc' else digits_fuel f (n / 10) acc'
  end.

Definition digits (n : Z) : string := digits_fuel (Z.to_nat (Z.log2 n)) n "".

Fixpoint zeros (n : nat) : string :=
  match n with
  | O => ""
  | S n' => String "0" (zeros n')
  end.

Definition strlen (s : string) : Z := Z.of_nat (String.length s).

Definition substring_to (i : Z) (s : string) : string :=
  String.substring 0 (Z.to_nat i) s.

Definition substring_from (i : Z) (s : string) : string :=
  String.substring (Z.to_nat i) (String.length s - Z.to_nat i) s.

(** *** Number::toString

    The shortest decimal that reads back as the number (ECMA-262, 6.1.6.1.20),
    found with exact integer arithmetic. *)

(** [m * 2^e < 10^n]. *)
Definition lt_pow10 (m : positive) (e n : Z) : bool :=
  Zpos m * 2 ^ (Z.max 0 e) * 10 ^ (Z.max 0 (- n)) <? 10 ^ (Z.max 0 n) * 2 ^ (Z.max 0 (- e)).

Fixpoint first_exponent (m : positive) (e : Z) (cands : list Z) (dflt : Z) : Z :=
  match cands with
  | [] => dflt
  | n :: rest => if lt_pow10 m e n then n else first_exponent m e rest dflt
  end.

(** The least [n] with [m * 2^e < 10^n]. *)
Definition decimal_exponent (m : positive) (e : Z) : Z :=
  let est := ((Z.log2 (Zpos m) + e) * 1233) / 4096 in
  first_exponent m e [est - 1; est; est + 1; est + 2; est + 3] (est + 4).

Definition scaleX (m : positive) (e a b : Z) : Z := Zpos m * 2 ^ (e + a) * 10 ^ b.
Definition scaleV (s p a b : Z) : Z := s * 10 ^ (p + b) * 2 ^ a.

(** Does the decimal [s * 10^p] round, to nearest and ties to even, to
    [m * 2^e]?  Both sides are scaled by [2^a * 10^b]. *)
Definition rounds_to (m : positive) (e s p : Z) : bool :=
  let a := Z.max 0 (2 - e) in
  let b := Z.max 0 (- p) in
  let X := scaleX m e a b in
  let V := scaleV s p a b in
  let up := 2 ^ (e - 1 + a) * 10 ^ b in
  let down := if (Zpos m =? 2 ^ 52) && (-1074 <? e) then 2 ^ (e - 2 + a) * 10 ^ b else up in
  if Z.even (Zpos m)
  then (X - down <=? V) && (V <=? X + up)
  else (X - down <? V) && (V <? X + up).

(** [floor (m * 2^e / 10^p)]. *)
Definition floor_scaled (m : positive) (e p : Z) : Z :=
  (Zpos m * 2 ^ (Z.max 0 e) * 10 ^ (Z.max 0 (- p))) / (2 ^ (Z.max 0 (- e)) * 10 ^ (Z.max 0 p)).

(** The decimals of [k] digits that read back as the number: (distance, s, n). *)
Definition candidates (m : positive) (e n0 k : Z) : list (Z * Z * Z) :=
  let a := Z.max 0 (2 - e) in
  let b := Z.max 0 (k - n0) in
  let X := scaleX m e a b in
  flat_map (fun n =>
    let p := n - k in
    let s0 := floor_scaled m e p in
    flat_map (fun s =>
      if (10 ^ (k - 1) <=? s) && (s <? 10 ^ k) && rounds_to m e s p
      then [(Z.abs (scaleV s p a b - X), s, n)] else [])
      [s0; s0 + 1])
    [n0; n0 + 1].

Definition better (c1 c2 : Z * Z * Z) : Z * Z * Z :=
  let '(d1, s1, _) := c1 in
  let '(d2, s2, _) := c2 in
  if d1 <? d2 then c1 else if d2 <? d1 then c2 else if Z.even s1 then c1 else c2.

Definition best (cs : list (Z * Z * Z)) : option (Z * Z) :=
  match cs with
  | [] => None
  | c :: rest => let '(_, s, n) := fold_left better rest c in Some (s, n)
  end.

(** The least number of digits [k] that has a candidate, with its [s] and [n]. *)
Fixpoint shortest (fuel : nat) (m : positive) (e n0 k : Z) : Z * Z * Z :=
  match best (candidates m e n0 k) with
  | Some (s, n) => (s, n, k)
  | None =>
      match fuel with
      | O => (floor_scaled m e (n0 - k), n0, k)
      | S f => shortest f m e n0 (k + 1)
      end
  end.

Definition format_digits (s n k : Z) : string :=
  let ds := digits s in
  if (k <=? n) && (n <=? 21) then ds ++ zeros (Z.to_nat (n - k))
  else if (0 <? n) && (n <=? 21) then substring_to n ds ++ "." ++ substring_from n ds
  else if (-6 <? n) && (n <=? 0) then "0." ++ zeros (Z.to_nat (- n)) ++ ds
  else
    let ex := n - 1 in
    let exs := (if ex <? 0 then "-" else "+") ++ digits (Z.abs ex) in
    if k =? 1 then ds ++ "e" ++ exs
    else substring_to 1 ds ++ "." ++ substring_from 1 ds ++ "e" ++ exs.

Definition SF_toString (x : spec_float) : string :=
  match x with
  | S754_nan => "NaN"
  | S754_zero _ => "0"
  | S754_infinity s => (if s then "-" else "") ++ "Infinity"
  | S754_finite sg m e =>
      let n0 := decimal_exponent m e in
      let '(s, n, k) := shortest 16 m e n0 1 in
      (if sg then "-" else "") ++ format_digits s n k
  end.

(** A number inside a template literal. *)
Definition Number_toString (x : float) : string := SF_toString (Prim2SF x).

(** An integer-valued number inside a template literal. *)
Definition Int_toString (n : Z) : string := Number_toString (Z2num n).

(** *** Number.prototype.toFixed *)

(** The integer nearest to [m * 2^e * 10^f], the larger one on a tie. *)
Definition round_half_up (m : positive) (e f : Z) : Z :=
  if 0 <=? e then Zpos m * 2 ^ e * 10 ^ f
  else (2 * Zpos m * 10 ^ f + 2 ^ (- e)) / (2 * 2 ^ (- e)).

Definition fixed_digits (n f : Z) : string :=
  let m := digits n in
  if f =? 0 then m
  else
    let m' := zeros (Z.to_nat (f + 1 - strlen m)) ++ m in
    let k := strlen m' in
    substring_to (k - f) m' ++ "." ++ substring_from (k - f) m'.

Definition toFixed (x : float) (f : Z) : string :=
  match Prim2SF x with
  | S754_zero _ => fixed_digits 0 f
  | S754_finite sg m e =>
      (if sg then "-" else "") ++
      (if lt_pow10 m e 21 then fixed_digits (round_half_up m e f) f
       else SF_toString (S754_finite false m e))
  | other => SF_toString other
  end.

(** *** String.prototype.toLowerCase, on 8-bit code units *)

Definition lower_char (c : ascii) : ascii :=
  let n := Z.of_nat (nat_of_ascii c) in
  if ((65 <=? n) && (n <=? 90)) || ((192 <=? n) && (n <=? 222) && negb (n =? 215))
  then ascii_of_nat (nat_of_ascii c + 32)
  else c.

Fixpoint toLowerCase (s : string) : string :=
  match s with
  | EmptyString => EmptyString
  | String c s' => String (lower_char c) (toLowerCase s')
  end.

(** *** parseInt(string), no radix argument

    [None] is NaN.  The digits denote an integer and the result is the number
    for it: the binary64 value nearest to that integer, ties to even, which is
    the integer itself up to [2^53] and an infinity from [2^1024 - 2^970] on.
    The result is written as the integer that number is, and an infinity as
    plus or minus [2^1026], above every finite number; [Z2num] takes each of
    them back to the number. *)

Definition integer_value (x : spec_float) : Z :=
  match x with
  | S754_finite s m e => Z.shiftl (cond_Zopp s (Zpos m)) e
  | S754_infinity s => cond_Zopp s (2 ^ 1026)
  | _ => 0
  end.

(** The number for the integer [z], as an integer again. *)
Definition nearest (z : Z) : Z := integer_value (binary_normalize prec emax z 0 false).

Definition is_white_space (c : ascii) : bool :=
  let n := Z.of_nat (nat_of_ascii c) in
  ((9 <=? n) && (n <=? 13)) || (n =? 32) || (n =? 160).

Fixpoint skip_white_space (s : string) : string :=
  match s with
  | String c s' => if is_white_space c then skip_white_space s' else s
  | EmptyString => EmptyString
  end.

Definition digit_value (c : ascii) : option Z :=
  let n := Z.of_nat (nat_of_ascii c) in
  if (48 <=? n) && (n <=? 57) then Some (n - 48)
  else if (97 <=? n) && (n <=? 122) then Some (n - 87)
  else if (65 <=? n) && (n <=? 90) then Some (n - 55)
  else None.

(** The longest prefix of digits of the radix; [acc] is [None] until a digit
    has been read. *)
Fixpoint parse_digits (radix : Z) (s : string) (acc : option Z) : option Z :=
  match s with
  | EmptyString => acc
  | String c s' =>
      match digit_value c with
      | Some d =>
          if d <? radix
          then parse_digits radix s' (Some (match acc with None => d | Some a => a * radix + d end))
          else acc
      | None => acc
      end
  end.

Definition parseInt (input : string) : option Z :=
  let s := skip_white_space input in
  let '(sign, s) :=
    match s with
    | String "-" rest => (-1, rest)
    | String "+" rest => (1, rest)
    | _ => (1, s)
    end in
  let '(radix, s) :=
    match s with
    | String "0" (String "x" rest) => (16, rest)
    | String "0" (String "X" rest) => (16, rest)
    | _ => (10, s)
    end in
  match parse_digits radix s None with
  | None => None
  | Some v => Some (nearest (sign * v))
  end.

(** *** Arrays *)

(** [a[i]]: [None] is [undefined]. *)
Definition index {A : Type} (a : list A) (i : Z) : option A :=
  if i <? 0 then None else nth_error a (Z.to_nat i).

Definition array_length {A : Type} (a : list A) : Z := Z.of_nat (List.length a).

(** [rows.join(sep)]. *)
Definition join (sep : string) (rows : list string) : string := String.concat sep rows.

End JS.

(** ** The outside world, and computations that read it *)

Module Effects.

(** What [Math.random()] and [new Date().toISOString()] answer, call after call. *)
Record World := {
  random_seq : nat -> float;
  clock_seq : nat -> string
}.

(** How many values of each sequence have been consumed. *)
Record Store := {
  random_calls : nat;
  clock_calls : nat
}.

Inductive exn :=
| TypeError (message : string).

Definition error_message (e : exn) : string :=
  match e with
  | TypeError message => message
  end.

Inductive outcome (A : Type) :=
| Threw (e : exn) (st : Store)
| Returned (a : A) (st : Store).
Arguments Threw {A} e st.
Arguments Returned {A} a st.

Definition M (A : Type) : Type := World -> Store -> outcome A.

Definition ret {A : Type} (a : A) : M A := fun _ st => Returned a st.

Definition bind {A B : Type} (c : M A) (k : A -> M B) : M B :=
  fun w st =>
    match c w st with
    | Threw e st' => Threw e st'
    | Returned a st' => k a w st'
    end.

Definition throw {A : Type} (e : exn) : M A := fun _ st => Threw e st.

Definition Math_random : M float :=
  fun w st =>
    Returned (random_seq w (random_calls st))
             {| random_calls := S (random_calls st); clock_calls := clock_calls st |}.

Definition Date_toISOString : M string :=
  fun w st =>
    Returned (clock_seq w (clock_calls st))
             {| random_calls := random_calls st; clock_calls := S (clock_calls st) |}.

(** Reading a property of [a[i]]: a TypeError when [a[i]] is [undefined]. *)
Definition property_of {A B : Type} (x : option A) (name : string) (get : A -> B) : M B :=
  match x with
  | Some a => ret (get a)
  | None =>
      throw (TypeError ("Cannot read properties of undefined (reading '" ++ name ++ "')"))
  end.

(** Every draw of the world lies in [0, 1). *)
Definition fair (w : World) : Prop :=
  forall i, Binary64.unit_interval (random_seq w i) = true.

(** [c] returns, and its result and the store it leaves satisfy [Q]. *)
Definition returns {A : Type} (c : M A) (w : World) (st : Store) (Q : A -> Store -> Prop) : Prop :=
  match c w st with
  | Returned a st' => Q a st'
  | Threw _ _ => False
  end.

End Effects.

Notation "x <- c ;; k" := (Effects.bind c (fun x => k))
  (at level 61, c at next level, right associativity).

(** ** The record synthesizer (scraper-standalone.cjs) *)

Module Synth.

Import Binary64 JS Effects.

Record Agent := {
  name : string;
  phone : string;
  email : string;
  broker : string
}.

Record PriceEvent := {
  pe_date : string;
  pe_price : Z;
  pe_event : string
}.

Record TaxYear := {
  ty_year : Z;
  ty_value : Z;
  ty_tax : Z
}.

Record School := {
  sc_name : string;
  sc_rating : Z;
  sc_distance : float;
  sc_grades : string
}.

(** One listing.  [propertyType] is [None] when the array read gave
    [undefined]; [hoaFee] is [None] for [null]. *)
Record PropertyRecord := {
  propertyId : string;
  mlsId : string;
  streetAddress : string;
  city : string;
  state : string;
  zipCode : string;
  latitude : string;
  longitude : string;
  price : Z;
  bedrooms : Z;
  bathrooms : float;
  sqft : Z;
  lotSize : Z;
  yearBuilt : Z;
  propertyType : option string;
  listingStatus : string;
  daysOnMarket : Z;
  hoaFee : option Z;
  images : list string;
  thumbnailUrl : string;
  description : string;
  agentName : string;
  agentPhone : string;
  agentEmail : string;
  brokerName : string;
  zestimate : Z;
  rentZestimate : Z;
  priceHistory : list PriceEvent;
  taxHistory : list TaxYear;
  schools : list School;
  scrapedAt : string;
  dataSource : string;
  isActive : bool
}.

Definition CITIES : list string :=
  [ "Orlando"; "Tampa"; "Daytona Beach"; "St. Petersburg"; "Clearwater";
    "Lakeland"; "Kissimmee"; "Port Orange"; "Sanford"; "Oviedo";
    "Winter Park"; "Altamonte Springs"; "Deltona"; "Palm Coast"; "Titusville" ].

Definition propertyTypes : list string :=
  [ "Single Family"; "Condo"; "Townhouse"; "Multi-Family" ].

Definition streets : list string :=
  [ "Main St"; "Oak Ave"; "Palm Dr"; "Lake View Blvd"; "Sunset Way"; "Beach Rd";
    "Pine St"; "Maple Ave" ].

Definition agents : list Agent :=
  [ {| name := "John Smith"; phone := "(407) 555-0101";
       email := "john.smith@realty.com"; broker := "Keller Williams" |};
    {| name := "Sarah Johnson"; phone := "(407) 555-0102";
       email := "sarah.j@remax.com"; broker := "RE/MAX" |};
    {| name := "Mike Davis"; phone := "(407) 555-0103";
       email := "mdavis@century21.com"; broker := "Century 21" |};
    {| name := "Emily Brown"; phone := "(407) 555-0104";
       email := "ebrown@coldwell.com"; broker := "Coldwell Banker" |} ].

Definition image_urls : list string :=
  [ "https://images.unsplash.com/photo-1568605114967-8130f3a36994?w=800&q=80";
    "https://images.unsplash.com/photo-1570129477492-45c003edd2be?w=800&q=80";
    "https://images.unsplash.com/photo-1564013799919-ab600027ffc6?w=800&q=80";
    "https://images.unsplash.com/photo-1600596542815-ffad4c1539a9?w=800&q=80" ].

(** A string or [undefined] inside a template literal. *)
Definition template (x : option string) : string :=
  match x with
  | Some s => s
  | None => "undefined"
  end.

(** [Math.floor(Math.random() * n)]. *)
Definition random_below (n : float) : M Z :=
  r <- Math_random ;; ret (Math_floor (r * n)).

(** [Math.random() > 0.5]. *)
Definition coin : M bool :=
  r <- Math_random ;; ret (0.5 <? r)%float.

(** One school entry: a rating [base + floor(random * spread)] and a distance
    [near + random * reach]. *)
Definition school (nm : string) (base : Z) (spread near reach : float) (grades : string)
  : M School :=
  k <- random_below spread ;;
  r <- Math_random ;;
  ret {| sc_name := nm; sc_rating := base + k; sc_distance := (near + r * reach)%float;
         sc_grades := grades |}.

(** The body of the generation loop: one record, its draws taken in the order
    in which the program evaluates them. *)
Definition generate_one (city : string) : M PropertyRecord :=
  b <- random_below 4 ;;
  let beds := 2 + b in
  whole <- random_below 3 ;;
  half <- coin ;;
  let baths := (Z2num (1 + whole) + (if half then 0.5 else 0))%float in
  s <- random_below 2500 ;;
  let sqft := 1000 + s in
  r_rate <- Math_random ;;
  let price := Math_floor ((Z2num sqft * (150 + r_rate * 150)) / 1000) * 1000 in
  a <- random_below (Z2num (array_length agents)) ;;
  let agent := index agents a in
  z <- random_below 100000000 ;;
  let propertyId := "ZPID" ++ Int_toString z in
  m <- random_below 1000000 ;;
  house <- random_below 9900 ;;
  st <- random_below (Z2num (array_length streets)) ;;
  zip <- random_below 1000 ;;
  r_lat <- Math_random ;;
  r_lon <- Math_random ;;
  r_lot <- Math_random ;;
  y <- random_below 44 ;;
  t <- random_below (Z2num (array_length propertyTypes)) ;;
  dom <- random_below 90 ;;
  has_hoa <- coin ;;
  hoa <- (if has_hoa then (h <- random_below 300 ;; ret (Some (h + 50))) else ret None) ;;
  t' <- random_below (Z2num (array_length propertyTypes)) ;;
  kind <- property_of (index propertyTypes t') "toLowerCase" toLowerCase ;;
  renovated <- coin ;;
  let description :=
    "Beautiful " ++ Int_toString beds ++ " bedroom, " ++ Number_toString baths ++
    " bathroom " ++ kind ++ " in " ++ city ++
    ". This stunning property features " ++ Int_toString sqft ++
    " sq ft of living space with modern amenities, updated kitchen, and spacious living areas. Great location close to schools, shopping, and entertainment. " ++
    (if renovated then "Recently renovated with new appliances and flooring."
     else "Move-in ready with excellent curb appeal.") ++
    " Perfect for " ++
    (if 4 <=? beds then "large families" else "first-time buyers or investors") ++ "." in
  agent_name <- property_of agent "name" name ;;
  agent_phone <- property_of agent "phone" phone ;;
  agent_email <- property_of agent "email" email ;;
  agent_broker <- property_of agent "broker" broker ;;
  r_zest <- Math_random ;;
  elementary <- school (city ++ " Elementary School") 7 3 0.5 2 "K-5" ;;
  middle <- school (city ++ " Middle School") 6 4 1 3 "6-8" ;;
  high <- school (city ++ " High School") 7 3 2 4 "9-12" ;;
  now <- Date_toISOString ;;
  ret {|
    propertyId := propertyId;
    mlsId := "MLS" ++ Int_toString m;
    streetAddress := Int_toString (100 + house) ++ " " ++ template (index streets st);
    city := city;
    state := "FL";
    zipCode := Int_toString (32700 + zip);
    latitude := toFixed (28.5 + r_lat * 0.5) 6;
    longitude := toFixed (-81.4 + r_lon * 0.5) 6;
    price := price;
    bedrooms := beds;
    bathrooms := baths;
    sqft := sqft;
    lotSize := Math_floor (Z2num sqft * (2 + r_lot * 3));
    yearBuilt := 1980 + y;
    propertyType := index propertyTypes t;
    listingStatus := "FOR_SALE";
    daysOnMarket := dom;
    hoaFee := hoa;
    images := image_urls;
    thumbnailUrl := "https://images.unsplash.com/photo-1568605114967-8130f3a36994?w=400&q=80";
    description := description;
    agentName := agent_name;
    agentPhone := agent_phone;
    agentEmail := agent_email;
    brokerName := agent_broker;
    zestimate := Math_floor (Z2num price * (0.95 + r_zest * 0.1));
    rentZestimate := Math_floor (Z2num price * 0.006);
    priceHistory :=
      [ {| pe_date := "2024-11-01"; pe_price := price; pe_event := "Listed for sale" |};
        {| pe_date := "2024-10-15"; pe_price := Math_floor (Z2num price * 1.05);
           pe_event := "Price change" |} ];
    taxHistory :=
      [ {| ty_year := 2024; ty_value := Math_floor (Z2num price * 0.85);
           ty_tax := Math_floor (Z2num price * 0.012) |};
        {| ty_year := 2023; ty_value := Math_floor (Z2num price * 0.82);
           ty_tax := Math_floor (Z2num price * 0.011) |} ];
    schools := [ elementary; middle; high ];
    scrapedAt := now;
    dataSource := "sample-generator";
    isActive := true
  |}.

(** [for (let i = 0; i < count; i++) properties.push(...)]: [n] more turns. *)
Fixpoint generate_loop (n : nat) (city : string) (properties : list PropertyRecord)
  : M (list PropertyRecord) :=
  match n with
  | O => ret properties
  | S n' =>
      p <- generate_one city ;;
      generate_loop n' city (properties ++ [p])%list
  end.

(** The default parameter [count = 10]; [None] is an omitted count. *)
Definition requested (count : option Z) : Z :=
  match count with
  | Some c => c
  | None => 10
  end.

(** [generateProperties(city, count = 10)]. *)
Definition generateProperties (city : string) (count : option Z) : M (list PropertyRecord) :=
  generate_loop (Z.to_nat (requested count)) city [].

(** *** What the specification asks of a record *)

(** The city is echoed and the state is Florida. *)
Definition located (c : string) (p : PropertyRecord) : Prop :=
  city p = c /\ state p = "FL".

(** [x] is a multiple of one half between [lo] and [hi]. *)
Definition half_steps (lo hi : Z) (x : float) : Prop :=
  exists h : Z, 2 * lo <= h <= 2 * hi /\ x = (Z2num h * 0.5)%float.

Definition is_digit (c : ascii) : bool :=
  let n := Z.of_nat (nat_of_ascii c) in (48 <=? n) && (n <=? 57).

Fixpoint all_digits (s : string) : bool :=
  match s with
  | EmptyString => true
  | String c s' => is_digit c && all_digits s'
  end.

(** A string of five decimal digits that writes a number of the range. *)
Definition zip_in_range (lo hi : Z) (s : string) : Prop :=
  String.length s = 5%nat /\ all_digits s = true /\
  exists z : Z, lo <= z <= hi /\ parseInt s = Some z.

(** The decidable form of [zip_in_range] for the ZIP code written from [z]. *)
Definition zip_check (z : Z) : bool :=
  let s := Int_toString z in
  Nat.eqb (String.length s) 5 && all_digits s &&
  match parseInt s with
  | Some v => v =? z
  | None => false
  end.

(** The field ranges of the data model. *)
Definition in_range (p : PropertyRecord) : Prop :=
  2 <= bedrooms p <= 5 /\
  half_steps 1 4 (bathrooms p) /\
  1000 <= sqft p <= 3500 /\
  1980 <= yearBuilt p <= 2023 /\
  zip_in_range 32700 33699 (zipCode p) /\
  exists t, In t propertyTypes /\ propertyType p = Some t.

(** The derived fields, recomputed from the stored price and area. *)
Definition consistent (p : PropertyRecord) : Prop :=
  rentZestimate p = Math_floor (Z2num (price p) * 0.006) /\
  (exists f : float,
      (0.95 <=? f)%float = true /\ (f <=? 1.05)%float = true /\
      zestimate p = Math_floor (Z2num (price p) * f)) /\
  (exists k : float,
      (2 <=? k)%float = true /\ (k <=? 5)%float = true /\
      lotSize p = Math_floor (Z2num (sqft p) * k)) /\
  (exists e1 e2,
      priceHistory p = [e1; e2] /\
      pe_price e1 = price p /\
      pe_price e2 = Math_floor (Z2num (price p) * 1.05)) /\
  (exists y1 y2,
      taxHistory p = [y1; y2] /\
      ty_value y1 = Math_floor (Z2num (price p) * 0.85) /\
      ty_tax y1 = Math_floor (Z2num (price p) * 0.012) /\
      ty_value y2 = Math_floor (Z2num (price p) * 0.82) /\
      ty_tax y2 = Math_floor (Z2num (price p) * 0.011)).

Definition well_formed (c : string) (p : PropertyRecord) : Prop :=
  located c p /\ in_range p /\ consistent p.

End Synth.

(** ** The HTTP adapter (api/scrape-v2.js) *)

Module Api.

Import Binary64 JS Effects Synth.

(** [req.query]: a parameter that is absent is [None]. *)
Record Query := {
  q_city : option string;
  q_limit : option string;
  q_all : option string;
  q_format : option string
}.

Record Request := {
  method : string;
  query : Query
}.

(** The bodies the handler sends: [res.end()], the JSON objects of
    [res.json(...)], field by field, and the text of [res.send(...)]. *)
Inductive Body :=
| NoBody
| MethodNotAllowed (error : string)
| Usage (error : string) (usage_single usage_all : string)
| Success (success : bool) (count : Z) (city : string) (properties : list PropertyRecord)
| Failure (success : bool) (error : string)
| Text (content : string).

(** A response: the status, the headers set with [res.setHeader], in the
    order in which they were set, and the body. *)
Record Response := {
  status : Z;
  headers : list (string * string);
  body : Body
}.

Definition newline : string := String (ascii_of_nat 10) "".
Definition dquote : string := String (ascii_of_nat 34) "".

Definition cors_headers : list (string * string) :=
  [ ("Access-Control-Allow-Origin", "*");
    ("Access-Control-Allow-Methods", "GET, OPTIONS");
    ("Access-Control-Allow-Headers", "Content-Type") ].

(** A destructuring default: [{ limit = '10' } = req.query]. *)
Definition default_to (x : option string) (d : string) : string :=
  match x with
  | Some s => s
  | None => d
  end.

(** A string parameter as a condition: absent and empty are falsy. *)
Definition truthy (x : option string) : bool :=
  match x with
  | Some (String _ _) => true
  | _ => false
  end.

(** [x || d]. *)
Definition or_else (x : option string) (d : string) : string :=
  match x with
  | Some (String c s) => String c s
  | _ => d
  end.

(** [all === 'true']. *)
Definition is_true (x : option string) : bool :=
  match x with
  | Some s => String.eqb s "true"
  | None => false
  end.

(** [parseInt(limit) || 10]: NaN and 0 are falsy. *)
Definition maxProperties (limit : option string) : Z :=
  match parseInt (default_to limit "10") with
  | Some n => if n =? 0 then 10 else n
  | None => 10
  end.

(** [for (const cityName of cities) properties.push(...generateProperties(cityName, max))]. *)
Fixpoint generate_all (cities : list string) (max : Z) (properties : list PropertyRecord)
  : M (list PropertyRecord) :=
  match cities with
  | [] => ret properties
  | cityName :: rest =>
      ps <- generateProperties cityName (Some max) ;;
      generate_all rest max (properties ++ ps)%list
  end.

Definition csvHeader : string :=
  "Property ID,MLS ID,Address,City,State,ZIP,Price,Beds,Baths,SqFt,Type,Year,Status" ++ newline.

Definition quoted (s : string) : string := dquote ++ s ++ dquote.

Definition csv_row (p : PropertyRecord) : string :=
  quoted (propertyId p) ++ "," ++ quoted (mlsId p) ++ "," ++
  quoted (streetAddress p) ++ "," ++ quoted (Synth.city p) ++ "," ++
  quoted (state p) ++ "," ++ quoted (zipCode p) ++ "," ++
  Int_toString (price p) ++ "," ++ Int_toString (bedrooms p) ++ "," ++
  Number_toString (bathrooms p) ++ "," ++ Int_toString (sqft p) ++ "," ++
  quoted (template (propertyType p)) ++ "," ++ Int_toString (yearBuilt p) ++ "," ++
  quoted (listingStatus p).

(** [properties.map(p => ...).join('\n')]. *)
Definition csvRows (properties : list PropertyRecord) : string :=
  join newline (map csv_row properties).

(** The download name: [properties-${city || 'all'}.csv]. *)
Definition csv_filename (city : option string) : string :=
  "properties-" ++ or_else city "all" ++ ".csv".

Definition content_disposition (city : option string) : string :=
  "attachment; filename=" ++ quoted (csv_filename city).

Definition csv_response (city : option string) (properties : list PropertyRecord) : Response :=
  {| status := 200;
     headers :=
       (cors_headers ++
        [ ("Content-Type", "text/csv");
          ("Content-Disposition", content_disposition city) ])%list;
     body := Text (csvHeader ++ csvRows properties) |}.

Definition json_response (city : option string) (properties : list PropertyRecord) : Response :=
  {| status := 200;
     headers := cors_headers;
     body := Success true (array_length properties) (or_else city "all") properties |}.

Definition usage_response : Response :=
  {| status := 400;
     headers := cors_headers;
     body := Usage "Missing parameter"
                   "/api/scrape-v2?city=Orlando&limit=50"
                   "/api/scrape-v2?all=true&limit=10" |}.

(** The selection: every roster city, one city, or none ([None]). *)
Definition select_properties (city all : option string) (max : Z)
  : M (option (list PropertyRecord)) :=
  if is_true all then
    ps <- generate_all CITIES max [] ;; ret (Some ps)
  else if truthy city then
    ps <- generateProperties (or_else city "") (Some max) ;; ret (Some ps)
  else ret None.

(** What is sent once the selection is known: the usage error, the CSV
    export or the JSON envelope. *)
Definition render (city format : option string) (selected : option (list PropertyRecord))
  : Response :=
  match selected with
  | None => usage_response
  | Some properties =>
      if String.eqb (default_to format "json") "csv" then csv_response city properties
      else json_response city properties
  end.

(** The [try] block. *)
Definition serve (q : Query) : M Response :=
  let max := maxProperties (q_limit q) in
  selected <- select_properties (q_city q) (q_all q) max ;;
  ret (render (q_city q) (q_format q) selected).

(** [module.exports = async (req, res) => ...]: the response and the store it
    leaves. *)
Definition handler (req : Request) (w : World) (st : Store) : Response * Store :=
  if String.eqb (method req) "OPTIONS" then
    ({| status := 200; headers := cors_headers; body := NoBody |}, st)
  else if negb (String.eqb (method req) "GET") then
    ({| status := 405; headers := cors_headers; body := MethodNotAllowed "Method not allowed" |}, st)
  else
    match serve (query req) w st with
    | Returned response st' => (response, st')
    | Threw e st' =>
        ({| status := 500; headers := cors_headers; body := Failure false (error_message e) |}, st')
    end.

(** *** Counting the fields of a CSV line *)

Fixpoint occurrences (c : ascii) (s : string) : nat :=
  match s with
  | EmptyString => O
  | String c' s' => (if Ascii.eqb c c' then 1 else 0) + occurrences c s'
  end.

Definition comma : ascii := ascii_of_nat 44.
Definition quote_mark : ascii := ascii_of_nat 34.

(** The comma-delimited fields of a line. *)
Definition field_count (line : string) : nat := S (occurrences comma line).

(** A text with no comma and no double quote in it. *)
Definition plain (s : string) : Prop :=
  occurrences comma s = O /\ occurrences quote_mark s = O.


(** The two characters a CSV field must not contain. *)
Definition special (c : ascii) : Prop := c = comma \/ c = quote_mark.

(** One segment of [n] records per city, in the order of the cities. *)
Definition segmented (cities : list string) (n : nat) (segs : list (list PropertyRecord)) : Prop :=
  Forall2 (fun c seg => List.length seg = n /\ Forall (well_formed c) seg) cities segs.

(** The calls of the synthesizer one after the other, one per city and in the
    order of the cities: each starts from the store the call before it left,
    and [segs] holds what each returned. *)
Fixpoint called_in_turn (w : World) (max : Z) (cities : list string)
    (segs : list (list PropertyRecord)) (st st' : Store) : Prop :=
  match cities, segs with
  | [], [] => st' = st
  | cityName :: rest, seg :: segs' =>
      exists st1,
        generateProperties cityName (Some max) w st = Returned seg st1 /\
        called_in_turn w max rest segs' st1 st'
  | _, _ => False
  end.

(** A GET request with the given query parameters. *)
Definition GET (city limit all format : option string) : Request :=
  {| method := "GET";
     query := {| q_city := city; q_limit := limit; q_all := all; q_format := format |} |}.

End Api.

(** ** A sample world *)

Module Samples.

Import Effects.

(** Seven draws, the largest possible one among them, repeated for ever. *)
Definition sample_draws : list float :=
  [ 0; 0.25; 0x1.fffffffffffffp-1; 0.5; 0.75; 0.1; 0.6 ]%float.

Definition sample_world : World :=
  {| random_seq := fun i => nth (i mod 7)%nat sample_draws 0%float;
     clock_seq := fun _ => "2024-11-01T12:00:00.000Z" |}.

Definition fresh_store : Store := {| random_calls := 0; clock_calls := 0 |}.

(** The world in which every draw is the lowest one. *)
Definition lowest_world : World :=
  {| random_seq := fun _ => 0%float;
     clock_seq := fun _ => "2024-11-01T12:00:00.000Z" |}.

End Samples.

(** ** Correctly rounded quotients *)

Module Division.
Import Binary64.

(** The state of a right shift by [k] bits of the quotient [N / D]: the
    mantissa is the integer part of [N / (2^k * D)], and the round and sticky
    bits place the remainder against one half. *)
Definition quotient_inv (N D k : Z) (mrs : shr_record) : Prop :=
  exists rem,
    N = shr_m mrs * (2 ^ k * D) + rem /\ 0 <= rem < 2 ^ k * D /\ 0 <= shr_m mrs /\
    (shr_r mrs = true <-> 2 ^ k * D <= 2 * rem) /\
    (shr_s mrs = true <-> rem <> 0 /\ 2 * rem <> 2 ^ k * D).

(** The correctly rounded quotient of [N] by [D], times [2^E]. *)
Definition Q (N D E : Z) : spec_float :=
  binary_round_aux prec emax false (N / D) E (new_location D (N mod D)).

Definition qexp (N D E : Z) : Z := fexp64 (Zdigits2 (N / D) + E).

End Division.

(** ** More of what a generated record holds *)

Module SynthDetails.

Import Binary64 JS Effects Synth.

(** The store after one more draw. *)
Definition drawn (st : Store) : Store :=
  {| random_calls := S (random_calls st); clock_calls := clock_calls st |}.

(** The identifiers and the street address are written from bounded integers
    and a street of the list. *)
Definition identified (p : PropertyRecord) : Prop :=
  (exists z, 0 <= z <= 99999999 /\ propertyId p = "ZPID" ++ Int_toString z) /\
  (exists m, 0 <= m <= 999999 /\ mlsId p = "MLS" ++ Int_toString m) /\
  (exists n street, 100 <= n <= 9999 /\ In street streets /\
                    streetAddress p = Int_toString n ++ " " ++ street) /\
  (exists z, 32700 <= z <= 33699 /\ zipCode p = Int_toString z).

(** The listing metadata and the media. *)
Definition listed (p : PropertyRecord) : Prop :=
  listingStatus p = "FOR_SALE" /\
  0 <= daysOnMarket p <= 89 /\
  (hoaFee p = None \/ exists h, hoaFee p = Some h /\ 50 <= h <= 349) /\
  images p = image_urls /\ List.length (images p) = 4%nat /\
  dataSource p = "sample-generator" /\ isActive p = true.

(** The four agent fields are those of one agent of the roster. *)
Definition represented (p : PropertyRecord) : Prop :=
  exists a, In a agents /\
            agentName p = name a /\ agentPhone p = phone a /\
            agentEmail p = email a /\ brokerName p = broker a.

Definition school_within (nm grades : string) (lo hi : Z) (near far : float) (s : School)
  : Prop :=
  sc_name s = nm /\ sc_grades s = grades /\ lo <= sc_rating s <= hi /\
  (near <=? sc_distance s)%float = true /\ (sc_distance s <=? far)%float = true.

(** Three schools, elementary, middle and high, named after the city. *)
Definition schooled (c : string) (p : PropertyRecord) : Prop :=
  exists e m h,
    schools p = [e; m; h] /\
    school_within (c ++ " Elementary School") "K-5" 7 9 0.5 2.5 e /\
    school_within (c ++ " Middle School") "6-8" 6 9 1 4 m /\
    school_within (c ++ " High School") "9-12" 7 9 2 6 h.

(** The coordinates, in millionths of a degree: the latitude from 28.5 to 29
    north, the longitude from 81.4 to 80.9 west, both ends included. *)
Definition boxed (p : PropertyRecord) : Prop :=
  (exists n, 28500000 <= n <= 29000000 /\ latitude p = fixed_digits n 6) /\
  (exists n, 80900000 <= n <= 81400000 /\ longitude p = "-" ++ fixed_digits n 6).

(** The description follows the bedrooms: large families from four up. *)
Definition described (c : string) (p : PropertyRecord) : Prop :=
  exists kind renovation,
    In kind (map toLowerCase propertyTypes) /\
    In renovation [ "Recently renovated with new appliances and flooring.";
                    "Move-in ready with excellent curb appeal." ] /\
    description p =
      "Beautiful " ++ Int_toString (bedrooms p) ++ " bedroom, " ++
      Number_toString (bathrooms p) ++ " bathroom " ++ kind ++ " in " ++ c ++
      ". This stunning property features " ++ Int_toString (sqft p) ++
      " sq ft of living space with modern amenities, updated kitchen, and spacious living areas. Great location close to schools, shopping, and entertainment. " ++
      renovation ++ " Perfect for " ++
      (if 4 <=? bedrooms p then "large families" else "first-time buyers or investors") ++ ".".

(** How many draws a record costs: one more when it has an HOA fee. *)
Definition draws_of (p : PropertyRecord) : nat :=
  match hoaFee p with
  | Some _ => 28
  | None => 27
  end.

Definition detailed (c : string) (p : PropertyRecord) : Prop :=
  identified p /\ listed p /\ represented p /\ schooled c p /\ boxed p.

(** [x * 10^f] rounded to the nearest integer, the larger one on a tie, from
    the value [V] of [x] in units of [2^-1074]. *)
Definition fixed_value (V f : Z) : Z := (2 * V * 10 ^ f + 2 ^ 1074) / (2 * 2 ^ 1074).

(** The price against the area: from 150 to 300 dollars per square foot,
    cut to whole thousands. *)
Definition priced (p : PropertyRecord) : Prop :=
  sqft p * 150 / 1000 * 1000 <= price p <= sqft p * 300 / 1000 * 1000 /\
  (exists k, 150 <= k <= 1049 /\ price p = k * 1000).

(** The derived amounts, in integers. *)
Definition amounts (p : PropertyRecord) : Prop :=
  rentZestimate p = price p * 6 / 1000 /\
  price p * 95 / 100 <= zestimate p <= price p * 105 / 100 /\
  2 * sqft p <= lotSize p <= 5 * sqft p /\
  (exists e1 e2, priceHistory p = [e1; e2] /\ pe_price e1 = price p /\
                 pe_price e2 = price p * 105 / 100) /\
  (exists y1 y2, taxHistory p = [y1; y2] /\
                 ty_value y1 = price p * 85 / 100 /\ ty_tax y1 = price p * 12 / 1000 /\
                 price p * 82 / 100 - 1 <= ty_value y2 <= price p * 82 / 100 /\
                 price p * 11 / 1000 - 1 <= ty_tax y2 <= price p * 11 / 1000).

(** The decidable facts about the amounts derived from a price of [k]
    thousands. *)
Definition amount_check (k : Z) : bool :=
  let P := Z2num (k * 1000) in
  let n := k * 1000 in
  nonneg_fin (Prim2SF P) &&
  nonneg_fin (Prim2SF (P * 1.05)) &&
  (Math_floor (P * 0.006) =? n * 6 / 1000) &&
  (Math_floor (P * 0.95) =? n * 95 / 100) &&
  (Math_floor (P * 1.05) =? n * 105 / 100) &&
  (Math_floor (P * 0.85) =? n * 85 / 100) &&
  (Math_floor (P * 0.012) =? n * 12 / 1000) &&
  (n * 82 / 100 - 1 <=? Math_floor (P * 0.82)) && (Math_floor (P * 0.82) <=? n * 82 / 100) &&
  (n * 11 / 1000 - 1 <=? Math_floor (P * 0.011)) && (Math_floor (P * 0.011) <=? n * 11 / 1000).

(** The decidable facts about the lot of a home of [n] square feet. *)
Definition lot_check (n : Z) : bool :=
  let N := Z2num n in
  nonneg_fin (Prim2SF N) &&
  nonneg_fin (Prim2SF (N * 5)) &&
  (Math_floor (N * 2) =? 2 * n) && (Math_floor (N * 5) =? 5 * n).

(** The decidable facts about the price of a home of [n] square feet: at
    150 and at 300 dollars per square foot the thousands of the price are those
    of integer arithmetic, and every intermediate value is finite. *)
Definition price_check (n : Z) : bool :=
  let N := Z2num n in
  nonneg_fin (Prim2SF N) &&
  nonneg_fin (Prim2SF (N * (150 + 1 * 150))) &&
  nonneg_fin (Prim2SF (N * (150 + 1 * 150) / 1000)) &&
  (val 1000 <=? val (N * (150 + 0 * 150))) &&
  (Math_floor (N * (150 + 0 * 150) / 1000) =? n * 150 / 1000) &&
  (Math_floor (N * (150 + 1 * 150) / 1000) =? n * 300 / 1000).

(** The largest value, in units of [2^-1074], that [toFixed] still prints in
    fixed notation. *)
Definition fixed_limit : Z := 10 ^ 21 * 2 ^ 1074.

(** The draws a sequence of records has cost. *)
Definition draws (ps : list PropertyRecord) : nat := list_sum (map draws_of ps).

(** Everything established of one record generated for the city [c]. *)
Definition complete (c : string) (p : PropertyRecord) : Prop :=
  well_formed c p /\ detailed c p /\ described c p /\ priced p /\ amounts p.

(** The records [ps] were generated from the store [st], leaving [st']: the
    counters have advanced by their cost, and the records are stamped with the
    readings of the clock, in order. *)
Definition accounted (w : World) (st : Store) (ps : list PropertyRecord) (st' : Store) : Prop :=
  random_calls st' = (random_calls st + draws ps)%nat /\
  clock_calls st' = (clock_calls st + List.length ps)%nat /\
  map scrapedAt ps = map (clock_seq w) (seq (clock_calls st) (List.length ps)).

(** What may follow a decimal numeral without being read by [parseInt]:
    nothing, or a character that is neither a digit nor a letter. *)
Definition stops (rest : string) : bool :=
  match rest with
  | EmptyString => true
  | String c _ => match digit_value c with None => true | Some _ => false end
  end.

End SynthDetails.

(** ** The first scraper's fallback generator and price parser (index.js) *)

Module Index.

Import Binary64 JS Effects Synth.

(** [priceText.replace(/[^0-9]/g, '')]. *)
Fixpoint digits_only (s : string) : string :=
  match s with
  | EmptyString => EmptyString
  | String c s' => if is_digit c then String c (digits_only s') else digits_only s'
  end.

(** What [parsePrice] returns: [null], or the number [parseInt] gave ([None]
    is NaN). *)
Inductive Price :=
| null
| number (n : option Z).

(** [parsePrice(priceText)]; an [undefined] or [null] argument is [None]. *)
Definition parsePrice (priceText : option string) : Price :=
  match priceText with
  | None => null
  | Some EmptyString => null
  | Some s =>
      match digits_only s with
      | EmptyString => null
      | cleaned => number (parseInt cleaned)
      end
  end.

(** The world of index.js adds what [Date.now()] answers, call after call. *)
Record Env := {
  world : World;
  epoch_seq : nat -> Z
}.

(** The store, the calls of [Date.now()] so far, and the messages passed to
    [log.warn], oldest first. *)
Record State := {
  store : Store;
  epoch_calls : nat;
  warnings : list string
}.

Inductive result (A : Type) :=
| Raised (e : exn) (s : State)
| Done (a : A) (s : State).
Arguments Raised {A} e s.
Arguments Done {A} a s.

Definition L (A : Type) : Type := Env -> State -> result A.

Definition unit_L {A : Type} (a : A) : L A := fun _ s => Done a s.

Definition bind_L {A B : Type} (c : L A) (k : A -> L B) : L B :=
  fun env s =>
    match c env s with
    | Raised e s' => Raised e s'
    | Done a s' => k a env s'
    end.

(** The state with another store inside. *)
Definition with_store (s : State) (st : Store) : State :=
  {| store := st; epoch_calls := epoch_calls s; warnings := warnings s |}.

(** A computation of the synthesizer's monad, run on the store inside. *)
Definition lift {A : Type} (c : M A) : L A :=
  fun env s =>
    match c (world env) (store s) with
    | Threw e st' => Raised e (with_store s st')
    | Returned a st' => Done a (with_store s st')
    end.

Definition Date_now : L Z :=
  fun env s =>
    Done (epoch_seq env (epoch_calls s))
         {| store := store s; epoch_calls := S (epoch_calls s); warnings := warnings s |}.

(** [log.warn(msg)]: [console.warn] prints a warning sign and [msg]; the
    state keeps [msg]. *)
Definition log_warn (msg : string) : L unit :=
  fun _ s =>
    Done tt {| store := store s; epoch_calls := epoch_calls s;
               warnings := (warnings s ++ [msg])%list |}.

(** [c] finishes without raising, and its result and the state it leaves
    satisfy [Q]. *)
Definition finishes {A : Type} (c : L A) (env : Env) (s : State) (Q : A -> State -> Prop)
  : Prop :=
  match c env s with
  | Done a s' => Q a s'
  | Raised _ _ => False
  end.

End Index.

Notation "x <~ c ;; k" := (Index.bind_L c (fun x => k))
  (at level 61, c at next level, right associativity).

Module Fallback.

Import Binary64 JS Effects Synth Index.

(** A city of the roster: [{ name, state, zip }]. *)
Record City := {
  name : string;
  state : string;
  zip : string
}.

Record Property := {
  source : string;
  address : string;
  city : string;
  p_state : string;
  zipCode : string;
  price : Z;
  beds : Z;
  baths : Z;
  sqft : Z;
  propertyType : option string;
  yearBuilt : Z;
  link : string;
  imageUrl : string;
  scrapedAt : string
}.

Definition streetNames : list string :=
  [ "Oak"; "Maple"; "Pine"; "Cedar"; "Elm"; "Palm"; "Lake"; "Bay" ].

Definition streetTypes : list string := [ "Dr"; "St"; "Ave"; "Blvd"; "Ln"; "Way" ].

Definition kinds : list string := [ "House"; "Condo"; "Townhouse" ].

(** A number in a template literal; [None] is NaN. *)
Definition show (n : option Z) : string :=
  match n with
  | Some z => Int_toString z
  | None => "NaN"
  end.

(** The body of the loop at index [i]. *)
Definition sample_one (c : City) (i : Z) : L Property :=
  b <~ lift (random_below 4) ;;
  let beds := b + 1 in
  t <~ lift (random_below 3) ;;
  let baths := t + 1 in
  f <~ lift (random_below 2000) ;;
  let sqft := f + 1000 in
  d <~ lift (random_below 400000) ;;
  let price := d + 200000 in
  house <~ lift (random_below 9000) ;;
  sn <~ lift (random_below (Z2num (array_length streetNames))) ;;
  ty <~ lift (random_below (Z2num (array_length streetTypes))) ;;
  k <~ lift (random_below 3) ;;
  y <~ lift (random_below 40) ;;
  now <~ Date_now ;;
  at_ <~ lift Date_toISOString ;;
  unit_L {|
    source := "generated";
    address := Int_toString (house + 1000) ++ " " ++ template (index streetNames sn) ++ " " ++
               template (index streetTypes ty);
    city := name c;
    p_state := state c;
    zipCode := zip c;
    price := price;
    beds := beds;
    baths := baths;
    sqft := sqft;
    propertyType := index kinds k;
    yearBuilt := y + 1980;
    link := "https://example.com/property/" ++ Int_toString now ++ "-" ++ Int_toString i;
    imageUrl := "https://images.unsplash.com/photo-" ++ Int_toString (1568605114967 + i);
    scrapedAt := at_
  |}.

(** [for (let i = 0; i < count; i++) properties.push(...)]: [n] more turns
    from the index [i]. *)
Fixpoint sample_loop (n : nat) (c : City) (i : Z) (properties : list Property)
  : L (list Property) :=
  match n with
  | O => unit_L properties
  | S n' =>
      p <~ sample_one c i ;;
      sample_loop n' c (i + 1) (properties ++ [p])%list
  end.

(** The default parameter [count = 10]: [None] is an omitted count, and a
    count that is given may be NaN. *)
Definition requested (count : option (option Z)) : option Z :=
  match count with
  | Some n => n
  | None => Some 10
  end.

(** How often [i < count] holds from [i = 0]: never for NaN. *)
Definition turns (count : option Z) : nat :=
  match count with
  | Some n => Z.to_nat n
  | None => O
  end.

(** [generateSampleProperties(city, count = 10)]. *)
Definition generateSampleProperties (c : City) (count : option (option Z)) : L (list Property) :=
  _ <~ log_warn ("Generating " ++ show (requested count) ++ " sample properties for " ++ name c) ;;
  sample_loop (turns (requested count)) c 0 [].

End Fallback.

(** ** The first HTTP adapter (api/scrape.js) *)

Module Legacy.

Import Binary64 JS Effects Synth Index Fallback.
Import Api(Query, q_city, q_limit, q_format, Request, method, query, newline, dquote,
           cors_headers, default_to, or_else, quoted).

Inductive Body :=
| NoBody
| MethodNotAllowed (error : string)
| Success (success : bool) (city : string) (count : Z) (properties : list Property)
| Failure (success : bool) (error : string)
| Text (content : string).

Record Response := {
  status : Z;
  headers : list (string * string);
  body : Body
}.

Definition csv_headers : list string :=
  [ "Address"; "City"; "State"; "ZIP"; "Price"; "Beds"; "Baths"; "SqFt"; "Type"; "Source" ].

(** The cells of a row, each as the template literal prints it. *)
Definition cells (p : Property) : list string :=
  [ address p; city p; p_state p; zipCode p; Int_toString (price p);
    Int_toString (beds p); Int_toString (baths p); Int_toString (sqft p);
    template (propertyType p); source p ].

Definition csv_line (p : Property) : string := join "," (map quoted (cells p)).

Definition csv (properties : list Property) : string :=
  join newline (join "," csv_headers :: map csv_line properties).

(** [{ name: city || 'Orlando', state: 'FL', zip: '32801' }]. *)
Definition sampleCity (city : option string) : City :=
  {| name := or_else city "Orlando"; state := "FL"; zip := "32801" |}.

(** [parseInt(limit)] with the default [limit = 10], a number that
    [parseInt] first writes as a string. *)
Definition parsed_limit (limit : option string) : option Z :=
  parseInt (default_to limit (Int_toString 10)).

Definition content_disposition (city : option string) : string :=
  "attachment; filename=" ++ quoted ("properties-" ++ name (sampleCity city) ++ ".csv").

Definition respond (city format : option string) (properties : list Property) : Response :=
  if String.eqb (default_to format "json") "csv" then
    {| status := 200;
       headers :=
         (cors_headers ++
          [ ("Content-Type", "text/csv");
            ("Content-Disposition", content_disposition city) ])%list;
       body := Text (csv properties) |}
  else
    {| status := 200;
       headers := cors_headers;
       body := Success true (name (sampleCity city)) (array_length properties) properties |}.

(** The [try] block. *)
Definition attempt (req : Request) : L Response :=
  if String.eqb (method req) "OPTIONS" then
    unit_L {| status := 200; headers := cors_headers; body := NoBody |}
  else if negb (String.eqb (method req) "GET") then
    unit_L {| status := 405; headers := cors_headers; body := MethodNotAllowed "Method not allowed" |}
  else
    properties <~ generateSampleProperties (sampleCity (q_city (query req)))
                    (Some (parsed_limit (q_limit (query req)))) ;;
    unit_L (respond (q_city (query req)) (q_format (query req)) properties).

(** [export default async function handler(req, res)]: the response and the
    state it leaves. *)
Definition handler (req : Request) (env : Env) (s : State) : Response * State :=
  match attempt req env s with
  | Done response s' => (response, s')
  | Raised e s' =>
      ({| status := 500; headers := cors_headers; body := Failure false (error_message e) |}, s')
  end.

End Legacy.

(** ** What the fallback generator's records hold *)

Module FallbackDetails.

Import Binary64 JS Effects Index Fallback.
Import Synth(template).
Import Api(plain).

(** The fields copied from the city, and the source. *)
Definition labelled (c : City) (p : Property) : Prop :=
  source p = "generated" /\ city p = name c /\ p_state p = state c /\ zipCode p = zip c.

(** The fields that are drawn. *)
Definition ranged (p : Property) : Prop :=
  1 <= beds p <= 4 /\ 1 <= baths p <= 3 /\ 1000 <= sqft p <= 2999 /\
  200000 <= price p <= 599999 /\ 1980 <= yearBuilt p <= 2019 /\
  (exists k, In k kinds /\ propertyType p = Some k) /\
  (exists n sn ty, 1000 <= n <= 9999 /\ In sn streetNames /\ In ty streetTypes /\
                   address p = Int_toString n ++ " " ++ sn ++ " " ++ ty).

(** The record made at the loop index [i], at the [e]-th call of
    [Date.now()] and the [t]-th reading of the ISO clock. *)
Definition numbered (env : Env) (e t : nat) (i : Z) (p : Property) : Prop :=
  link p = "https://example.com/property/" ++ Int_toString (epoch_seq env e) ++
           "-" ++ Int_toString i /\
  imageUrl p = "https://images.unsplash.com/photo-" ++ Int_toString (1568605114967 + i) /\
  scrapedAt p = clock_seq (world env) t.

(** The address and the type hold no comma and no quote. *)
Definition printable (p : Property) : Prop :=
  plain (address p) /\ plain (template (propertyType p)).

(** The records made one after the other from the index [i]. *)
Fixpoint consecutive (env : Env) (e t : nat) (i : Z) (ps : list Property) : Prop :=
  match ps with
  | [] => True
  | p :: ps' => numbered env e t i p /\ consecutive env (S e) (S t) (i + 1) ps'
  end.

(** The counters of [s'] are those of [s] after [n] turns of the loop. *)
Definition advanced (n : nat) (s s' : State) : Prop :=
  random_calls (store s') = (random_calls (store s) + 9 * n)%nat /\
  clock_calls (store s') = (clock_calls (store s) + n)%nat /\
  epoch_calls s' = (epoch_calls s + n)%nat /\
  warnings s' = warnings s.

End FallbackDetails.

(** ** A sample world for index.js *)

Module FallbackSamples.

Import Effects Index Samples.

(** The sample draws, and a clock that advances by one millisecond per call. *)
Definition sample_env : Env :=
  {| world := sample_world; epoch_seq := fun i => 1730462400000 + Z.of_nat i |}.

Definition fresh_state : State :=
  {| store := fresh_store; epoch_calls := 0; warnings := [] |}.

End FallbackSamples.

(** * Properties *)

(** ** Rounding to nearest is monotone

    The operations of [SpecFloat] are the kernel's specification of the
    primitive ones.  What the synthesizer needs from them is that products and
    sums of non-negative numbers are monotone, rounding included, so that a
    bound checked at the largest draw holds for every draw. *)

Module Binary64Facts.

Import Binary64.

Lemma fexp64_eq e : fexp64 e = Z.max (e - 53) (-1074).
Proof. reflexivity. Qed.

Lemma digits2_pos_size m : digits2_pos m = Pos.size m.
Proof. induction m; simpl; congruence. Qed.

Lemma digits_bounds m :
  2 ^ (Zpos (digits2_pos m) - 1) <= Zpos m < 2 ^ Zpos (digits2_pos m).
Proof.
  rewrite digits2_pos_size. split.
  - pose proof (Pos.size_le m) as H.
    apply Pos2Z.pos_le_pos in H. rewrite Pos2Z.inj_pow in H.
    replace (Zpos (Pos.size m)) with (Zpos (Pos.size m) - 1 + 1) in H by lia.
    rewrite Z.pow_add_r in H by lia.
    change (Zpos m~0) with (2 * Zpos m) in H. lia.
  - pose proof (Pos.size_gt m) as H.
    apply Pos2Z.pos_lt_pos in H. now rewrite Pos2Z.inj_pow in H.
Qed.

(** *** Shifting right, bit by bit *)

Lemma shr_1_inv m k mrs :
  0 <= k -> shr_inv m k mrs -> shr_inv m (k + 1) (shr_1 mrs).
Proof.
  intros Hk (rem & Hm & Hrem & Hq & H0 & Hpos).
  destruct mrs as [q r s]; simpl in *.
  assert (Hrs : orb r s = true <-> rem <> 0).
  { destruct (Z.eq_dec k 0) as [->|Hk0].
    - destruct (H0 eq_refl) as [-> ->]. simpl in *. split; [discriminate|lia].
    - destruct Hpos as [Hr Hs]; [lia|].
      assert (0 < 2 ^ (k - 1)) by (apply Z.pow_pos_nonneg; lia).
      rewrite orb_true_iff, Hr, Hs. split.
      + intros [H1|H1]; [lia|]. intros ->. now rewrite Z.mod_0_l in H1 by lia.
      + intros Hne. destruct (Z_lt_le_dec rem (2 ^ (k - 1))) as [Hlt|Hle]; [right|now left].
        rewrite Z.mod_small by lia. exact Hne. }
  assert (Hp : 0 < 2 ^ k) by (apply Z.pow_pos_nonneg; lia).
  assert (Hpk : 2 ^ (k + 1) = 2 * 2 ^ k) by (rewrite Z.pow_add_r by lia; lia).
  replace (k + 1 - 1) with k by lia.
  assert (Hgoal : forall q' (b : bool), q = 2 * q' + (if b then 1 else 0) -> 0 <= q' ->
     shr_inv m (k + 1) (Build_shr_record q' b (orb r s))).
  { intros q' b Hq' Hq0. exists (rem + (if b then 2 ^ k else 0)). simpl.
    replace (k + 1 - 1) with k by lia.
    split; [destruct b; nia|]. split; [destruct b; lia|]. split; [exact Hq0|].
    split; [intros; lia|]. intros _. split.
    - destruct b; split; intros; try lia; try discriminate; reflexivity.
    - rewrite Hrs. destruct b.
      + replace (rem + 2 ^ k) with (rem + 1 * 2 ^ k) by lia.
        rewrite Z.mod_add by lia. rewrite Z.mod_small by lia. reflexivity.
      + rewrite Z.add_0_r, Z.mod_small by lia. reflexivity. }
  destruct q as [|[p|p|]|p]; try lia.
  - apply (Hgoal 0 false); lia.
  - apply (Hgoal (Zpos p) true); lia.
  - apply (Hgoal (Zpos p) false); lia.
  - apply (Hgoal 0 true); lia.
Qed.

Lemma iter_pos_nat {A} (f : A -> A) p x :
  iter_pos f p x = Nat.iter (Pos.to_nat p) f x.
Proof.
  revert x. induction p; intros x; cbn [iter_pos].
  - rewrite !IHp, Pos2Nat.inj_xI, <- Nat.iter_add, Nat.iter_succ_r.
    f_equal. lia.
  - rewrite !IHp, Pos2Nat.inj_xO, <- Nat.iter_add. f_equal. lia.
  - reflexivity.
Qed.

Lemma shr_iter_inv m n mrs k :
  0 <= k -> shr_inv m k mrs -> shr_inv m (k + Z.of_nat n) (Nat.iter n shr_1 mrs).
Proof.
  intros Hk H. induction n.
  - simpl. now rewrite Z.add_0_r.
  - rewrite Nat2Z.inj_succ. simpl.
    replace (k + Z.succ (Z.of_nat n)) with (k + Z.of_nat n + 1) by lia.
    apply shr_1_inv; [lia|exact IHn].
Qed.

Lemma shr_inv_start m : 0 <= m -> shr_inv m 0 (Build_shr_record m false false).
Proof.
  intros Hm. exists 0. simpl. repeat split; try lia.
Qed.

Lemma shr_spec m e n :
  0 <= m -> 0 <= n ->
  exists mrs, shr (Build_shr_record m false false) e n = (mrs, e + n) /\ shr_inv m n mrs.
Proof.
  intros Hm Hn. destruct n as [|p|p]; try lia.
  - exists (Build_shr_record m false false). rewrite Z.add_0_r. split; [reflexivity|].
    now apply shr_inv_start.
  - eexists. split; [reflexivity|]. rewrite iter_pos_nat.
    replace (Zpos p) with (0 + Z.of_nat (Pos.to_nat p)) by lia.
    apply shr_iter_inv; [lia|now apply shr_inv_start].
Qed.

(** *** Rounding the shifted mantissa *)

Lemma round_inv m k mrs :
  0 <= k -> shr_inv m k mrs ->
  rne_ok (round_nearest_even (shr_m mrs) (loc_of_shr_record mrs)) m k.
Proof.
  intros Hk (rem & Hm & Hrem & Hq & H0 & Hpos).
  destruct mrs as [q r s]; simpl in *.
  assert (Hp : 0 < 2 ^ k) by (apply Z.pow_pos_nonneg; lia).
  assert (Hdiv : m / 2 ^ k = q).
  { symmetry. apply (Z.div_unique m (2 ^ k) q rem); lia. }
  unfold rne_ok. rewrite Hdiv.
  destruct (Z.eq_dec k 0) as [->|Hk0].
  - destruct (H0 eq_refl) as [-> ->]. cbn [round_nearest_even loc_of_shr_record shr_m].
    rewrite Z.pow_0_r in *. assert (rem = 0) by lia. subst rem.
    split; [lia|]. split; [lia|]. intros; lia.
  - destruct Hpos as [Hr Hs]; [lia|].
    assert (Hh : 0 < 2 ^ (k - 1)) by (apply Z.pow_pos_nonneg; lia).
    assert (Hpk : 2 ^ k = 2 * 2 ^ (k - 1)).
    { replace k with (k - 1 + 1) at 1 by lia. rewrite Z.pow_add_r by lia. lia. }
    assert (Hrem' : rem mod 2 ^ (k - 1) = if Z.leb (2 ^ (k - 1)) rem then rem - 2 ^ (k - 1) else rem).
    { destruct (Z.leb_spec (2 ^ (k - 1)) rem).
      - symmetry. apply (Z.mod_unique rem (2 ^ (k - 1)) 1); lia.
      - apply Z.mod_small; lia. }
    destruct r, s; cbn [round_nearest_even loc_of_shr_record shr_m].
    + assert (2 ^ (k - 1) <= rem) by now apply Hr.
      assert (rem mod 2 ^ (k - 1) <> 0) by now apply Hs.
      destruct (Z.leb_spec (2 ^ (k - 1)) rem); lia.
    + assert (2 ^ (k - 1) <= rem) by now apply Hr.
      assert (rem mod 2 ^ (k - 1) = 0).
      { destruct (Z.eq_dec (rem mod 2 ^ (k - 1)) 0) as [E|E]; trivial.
        apply Hs in E. discriminate. }
      destruct (Z.leb_spec (2 ^ (k - 1)) rem); try lia.
      destruct (Z.even q) eqn:Hev.
      * split; [lia|]. split; [lia|]. intros _. exact Hev.
      * split; [lia|]. split; [lia|]. intros _.
        rewrite Z.even_add, Hev. reflexivity.
    + assert (~ 2 ^ (k - 1) <= rem) by (intros E; apply Hr in E; discriminate).
      assert (rem mod 2 ^ (k - 1) <> 0) by now apply Hs.
      destruct (Z.leb_spec (2 ^ (k - 1)) rem); lia.
    + assert (~ 2 ^ (k - 1) <= rem) by (intros E; apply Hr in E; discriminate).
      destruct (Z.leb_spec (2 ^ (k - 1)) rem); lia.
Qed.

Lemma rne_scaled_mono q1 q2 W1 W2 U :
  0 < U -> rne_scaled q1 W1 U -> rne_scaled q2 W2 U -> W1 <= W2 -> q1 <= q2.
Proof.
  intros HU [H1 T1] [H2 T2] HW.
  destruct (Z_le_gt_dec q1 q2) as [|Hgt]; trivial. exfalso.
  assert (Hq : q2 * U + U <= q1 * U) by nia.
  assert (q1 = q2 + 1) by nia. subst q1.
  assert (E1 : 2 * Z.abs ((q2 + 1) * U - W1) = U) by lia.
  assert (E2 : 2 * Z.abs (q2 * U - W2) = U) by lia.
  apply T1 in E1. apply T2 in E2.
  rewrite Z.even_add, E2 in E1. discriminate.
Qed.

Lemma rne_ok_scaled q M E c K :
  E <= c -> 0 <= E + K -> rne_ok q M (c - E) ->
  rne_scaled q (M * 2 ^ (E + K)) (2 ^ (c + K)).
Proof.
  intros Hc HK (_ & Hle & Htie).
  assert (HU : 2 ^ (c + K) = 2 ^ (c - E) * 2 ^ (E + K)).
  { rewrite <- Z.pow_add_r by lia. f_equal. lia. }
  assert (Hp : 0 < 2 ^ (E + K)) by (apply Z.pow_pos_nonneg; lia).
  assert (Habs : Z.abs (q * 2 ^ (c + K) - M * 2 ^ (E + K)) =
                 Z.abs (q * 2 ^ (c - E) - M) * 2 ^ (E + K)).
  { rewrite HU. replace (q * (2 ^ (c - E) * 2 ^ (E + K)) - M * 2 ^ (E + K))
      with ((q * 2 ^ (c - E) - M) * 2 ^ (E + K)) by ring.
    rewrite Z.abs_mul. f_equal. apply Z.abs_eq. lia. }
  unfold rne_scaled. rewrite Habs, HU. split.
  - nia.
  - intros Heq. apply Htie. nia.
Qed.

Lemma round_aux_spec M E :
  E <= cexp M E ->
  exists q, rne_ok q (Zpos M) (cexp M E - E) /\ R M E = pack q (cexp M E).
Proof.
  intros Hc. unfold R, binary_round_aux, shr_fexp. simpl Zdigits2. simpl shr_record_of_loc.
  fold (fexp64 (Zpos (digits2_pos M) + E)). fold (cexp M E).
  destruct (shr_spec (Zpos M) E (cexp M E - E)) as (mrs & Heq & Hinv); try lia.
  rewrite Heq. replace (E + (cexp M E - E)) with (cexp M E) by lia.
  exists (round_nearest_even (shr_m mrs) (loc_of_shr_record mrs)). split.
  - apply round_inv; [lia|exact Hinv].
  - reflexivity.
Qed.

Lemma SFval_pack q c :
  0 <= q <= 2 ^ 53 -> -1074 <= c -> SFval (pack q c) = pack_val q c.
Proof.
  intros Hq Hc. unfold pack, pack_val, overflows, shr_fexp.
  destruct (Z.eqb_spec q 0) as [->|Hq0].
  - cbn [Zdigits2 shr_record_of_loc]. fold (fexp64 (0 + c)).
    rewrite fexp64_eq.
    destruct (Z.max (0 + c - 53) (-1074) - c) eqn:Hn; try lia; reflexivity.
  - destruct (Z.eqb_spec q (2 ^ 53)) as [->|Hq53].
    + cbn [shr_record_of_loc]. change (Zdigits2 (2 ^ 53)) with 54.
      fold (fexp64 (54 + c)). rewrite fexp64_eq.
      replace (Z.max (54 + c - 53) (-1074) - c) with 1 by lia.
      cbn [shr iter_pos shr_1 shr_m]. change (2 ^ 53) with 9007199254740992.
      cbn [shr_1 shr_m]. change (emax - prec) with 971.
      destruct (Z.leb_spec (c + 1) 971); cbn [negb SFval]; trivial.
      replace (c + 1 + 1074) with (1 + (c + 1074)) by lia.
      rewrite Z.pow_add_r by lia. lia.
    + destruct q as [|p|p]; try lia.
      cbn [shr_record_of_loc Zdigits2]. fold (fexp64 (Zpos (digits2_pos p) + c)).
      rewrite fexp64_eq.
      assert (Hd : Zpos (digits2_pos p) <= 53).
      { pose proof (digits_bounds p) as [Hlo _].
        destruct (Z_le_gt_dec (Zpos (digits2_pos p)) 53); trivial. exfalso.
        assert (2 ^ 53 <= 2 ^ (Zpos (digits2_pos p) - 1)) by (apply Z.pow_le_mono_r; lia).
        lia. }
      destruct (Z.max (Zpos (digits2_pos p) + c - 53) (-1074) - c) eqn:Hn; try lia;
        cbn [shr shr_m]; change (emax - prec) with 971;
        destruct (Z.leb_spec c 971); reflexivity.
Qed.

Lemma pack_val_nonneg q c : 0 <= q -> 0 <= pack_val q c.
Proof.
  intros Hq. unfold pack_val.
  destruct (q =? 0); [lia|]. destruct (overflows q c); [apply Z.pow_nonneg; lia|].
  apply Z.mul_nonneg_nonneg; [lia|apply Z.pow_nonneg; lia].
Qed.

Lemma pack_val_mono q1 c1 q2 c2 :
  0 <= q1 <= 2 ^ 53 -> 0 <= q2 <= 2 ^ 53 -> -1074 <= c1 ->
  (c1 = c2 /\ q1 <= q2) \/ (c1 < c2 /\ 2 ^ 52 <= q2) ->
  pack_val q1 c1 <= pack_val q2 c2.
Proof.
  intros H1 H2 Hc Hcase.
  assert (Hfin : forall q c, 0 <= q <= 2 ^ 53 -> -1074 <= c -> overflows q c = false ->
                             q * 2 ^ (c + 1074) <= 2 ^ 2098).
  { intros q c Hq Hc' Hov. unfold overflows in Hov. apply negb_false_iff in Hov.
    destruct (Z.eqb_spec q (2 ^ 53)) as [->|Hne].
    - apply Z.leb_le in Hov. rewrite <- Z.pow_add_r by lia. apply Z.pow_le_mono_r; lia.
    - apply Z.leb_le in Hov.
      assert (2 ^ (c + 1074) <= 2 ^ 2045) by (apply Z.pow_le_mono_r; lia).
      assert (0 < 2 ^ (c + 1074)) by (apply Z.pow_pos_nonneg; lia).
      change (2 ^ 2098) with (2 ^ 53 * 2 ^ 2045). nia. }
  assert (Hbig : 2 ^ 2098 <= 2 ^ 2100) by (apply Z.pow_le_mono_r; lia).
  unfold pack_val.
  destruct (Z.eqb_spec q1 0) as [->|Hq1].
  { fold (pack_val q2 c2). apply pack_val_nonneg; lia. }
  destruct (Z.eqb_spec q2 0) as [->|Hq2].
  { exfalso. assert (0 < 2 ^ 52) by (apply Z.pow_pos_nonneg; lia). lia. }
  destruct (overflows q2 c2) eqn:Ho2.
  { destruct (overflows q1 c1) eqn:Ho1; [lia|].
    specialize (Hfin q1 c1 H1 Hc Ho1). lia. }
  assert (Ho1 : overflows q1 c1 = false).
  { unfold overflows in *. apply negb_false_iff in Ho2. apply negb_false_iff.
    apply Z.leb_le in Ho2. apply Z.leb_le.
    destruct (Z.eqb_spec q1 (2 ^ 53)), (Z.eqb_spec q2 (2 ^ 53)); lia. }
  rewrite Ho1.
  destruct Hcase as [[<- Hq]|[Hlt Hq]].
  - assert (0 < 2 ^ (c1 + 1074)) by (apply Z.pow_pos_nonneg; lia). nia.
  - assert (0 < 2 ^ (c1 + 1074)) by (apply Z.pow_pos_nonneg; lia).
    assert (2 * 2 ^ (c1 + 1074) <= 2 ^ (c2 + 1074)).
    { replace (2 * 2 ^ (c1 + 1074)) with (2 ^ (c1 + 1074 + 1)) by (rewrite Z.pow_add_r by lia; lia).
      apply Z.pow_le_mono_r; lia. }
    change (2 ^ 53) with (2 * 2 ^ 52) in *.
    assert (0 < 2 ^ 52) by (apply Z.pow_pos_nonneg; lia).
    nia.
Qed.

Lemma cexp_ge M E : -1074 <= cexp M E.
Proof. unfold cexp. rewrite fexp64_eq. lia. Qed.

Lemma round_q_bounds M E q :
  E <= cexp M E -> rne_ok q (Zpos M) (cexp M E - E) ->
  0 <= q <= 2 ^ 53 /\ (-1074 < cexp M E -> 2 ^ 52 <= q).
Proof.
  intros Hc ((Hlo & Hhi) & _).
  pose proof (digits_bounds M) as [Hd1 Hd2].
  unfold cexp in *. rewrite fexp64_eq in *.
  set (d := Zpos (digits2_pos M)) in *.
  set (s := Z.max (d + E - 53) (-1074) - E) in *.
  assert (Hs : 0 <= s) by lia.
  assert (Hps : 0 < 2 ^ s) by (apply Z.pow_pos_nonneg; lia).
  assert (Hup : Zpos M / 2 ^ s < 2 ^ 53).
  { apply Z.div_lt_upper_bound; [lia|].
    rewrite <- Z.pow_add_r by lia.
    assert (2 ^ d <= 2 ^ (s + 53)) by (apply Z.pow_le_mono_r; lia). lia. }
  assert (Hnn : 0 <= Zpos M / 2 ^ s) by (apply Z.div_pos; lia).
  split; [lia|]. intros Hnorm.
  assert (Hs' : s = d - 53) by lia.
  assert (2 ^ 52 <= Zpos M / 2 ^ s); [|lia].
  apply Z.div_le_lower_bound; [lia|].
  rewrite <- Z.pow_add_r by lia. replace (s + 52) with (d - 1) by lia. exact Hd1.
Qed.

Lemma cexp_mono M1 E1 M2 E2 K :
  0 <= E1 + K -> 0 <= E2 + K ->
  Zpos M1 * 2 ^ (E1 + K) <= Zpos M2 * 2 ^ (E2 + K) ->
  cexp M1 E1 <= cexp M2 E2.
Proof.
  intros HK1 HK2 HW. unfold cexp. rewrite !fexp64_eq.
  pose proof (digits_bounds M1) as [Hd1 _].
  pose proof (digits_bounds M2) as [_ Hd2].
  set (d1 := Zpos (digits2_pos M1)) in *. set (d2 := Zpos (digits2_pos M2)) in *.
  assert (0 < d1) by (unfold d1; lia). assert (0 < d2) by (unfold d2; lia).
  destruct (Z_le_gt_dec (d1 + E1) (d2 + E2)) as [|Hgt]; [lia|]. exfalso.
  assert (Hp1 : 0 < 2 ^ (E1 + K)) by (apply Z.pow_pos_nonneg; lia).
  assert (Hp2 : 0 < 2 ^ (E2 + K)) by (apply Z.pow_pos_nonneg; lia).
  assert (H1 : 2 ^ (d1 - 1 + (E1 + K)) <= Zpos M1 * 2 ^ (E1 + K)).
  { rewrite (Z.pow_add_r 2 (d1 - 1) (E1 + K)) by lia. nia. }
  assert (H2 : Zpos M2 * 2 ^ (E2 + K) < 2 ^ (d2 + (E2 + K))).
  { rewrite (Z.pow_add_r 2 d2 (E2 + K)) by lia. nia. }
  assert (2 ^ (d2 + (E2 + K)) <= 2 ^ (d1 - 1 + (E1 + K))) by (apply Z.pow_le_mono_r; lia).
  lia.
Qed.

(** Rounding to nearest even is monotone. *)
Lemma round_mono M1 E1 M2 E2 K :
  E1 <= cexp M1 E1 -> E2 <= cexp M2 E2 ->
  0 <= E1 + K -> 0 <= E2 + K ->
  Zpos M1 * 2 ^ (E1 + K) <= Zpos M2 * 2 ^ (E2 + K) ->
  SFval (R M1 E1) <= SFval (R M2 E2).
Proof.
  intros Hc1 Hc2 HK1 HK2 HW.
  destruct (round_aux_spec M1 E1 Hc1) as (q1 & Hq1 & ->).
  destruct (round_aux_spec M2 E2 Hc2) as (q2 & Hq2 & ->).
  destruct (round_q_bounds _ _ _ Hc1 Hq1) as [Hb1 _].
  destruct (round_q_bounds _ _ _ Hc2 Hq2) as [Hb2 Hn2].
  pose proof (cexp_ge M1 E1) as Hg1. pose proof (cexp_ge M2 E2) as Hg2.
  rewrite !SFval_pack by assumption.
  apply pack_val_mono; try assumption.
  pose proof (cexp_mono _ _ _ _ K HK1 HK2 HW) as Hcm.
  destruct (Z.eq_dec (cexp M1 E1) (cexp M2 E2)) as [Heq|Hne].
  - left. split; [exact Heq|].
    apply (rne_ok_scaled _ _ _ _ K Hc1 HK1) in Hq1.
    apply (rne_ok_scaled _ _ _ _ K Hc2 HK2) in Hq2.
    rewrite Heq in Hq1.
    eapply rne_scaled_mono; [|exact Hq1|exact Hq2|exact HW].
    apply Z.pow_pos_nonneg; lia.
  - right. split; [lia|]. apply Hn2. lia.
Qed.

(** A value that already fits is returned unchanged. *)
Lemma round_exact m e :
  bounded prec emax m e = true -> R m e = S754_finite false m e.
Proof.
  intros Hb. unfold bounded, canonical_mantissa in Hb.
  apply andb_true_iff in Hb. destruct Hb as [Hcan Hle].
  apply Z.eqb_eq in Hcan.
  unfold R, binary_round_aux, shr_fexp. cbn [Zdigits2 shr_record_of_loc].
  rewrite Hcan, Z.sub_diag. cbn [shr shr_m round_nearest_even loc_of_shr_record Zdigits2].
  rewrite Hcan, Z.sub_diag. cbn [shr shr_m]. now rewrite Hle.
Qed.

(** *** Non-negative operands and their order *)

Lemma nonneg_fin_ext x : nonneg_fin x = true -> nonneg_ext x = true.
Proof. destruct x as [?|[]| |[] ? ?]; simpl; congruence. Qed.

Lemma bounded_inv m e :
  bounded prec emax m e = true ->
  -1074 <= e <= 971 /\ Zpos (digits2_pos m) <= 53 /\
  (-1074 < e -> Zpos (digits2_pos m) = 53).
Proof.
  unfold bounded, canonical_mantissa. intros H.
  apply andb_true_iff in H. destruct H as [Hc Hle].
  apply Z.eqb_eq in Hc. apply Z.leb_le in Hle.
  fold (fexp64 (Zpos (digits2_pos m) + e)) in Hc. rewrite fexp64_eq in Hc.
  change (emax - prec) with 971 in Hle. lia.
Qed.

Lemma bounded_cexp m e : bounded prec emax m e = true -> cexp m e = e.
Proof.
  unfold bounded, canonical_mantissa. intros H.
  apply andb_true_iff in H. destruct H as [Hc _]. now apply Z.eqb_eq in Hc.
Qed.

Lemma SFval_nonneg x : 0 <= SFval x.
Proof.
  destruct x as [?|[]| |[] m e]; cbn [SFval]; try lia.
  all: try (apply Z.mul_nonneg_nonneg; [lia|apply Z.pow_nonneg; lia]).
Qed.

Lemma SFval_finite_pos m e : -1074 <= e -> 0 < SFval (S754_finite false m e).
Proof.
  intros He. cbn [SFval]. apply Z.mul_pos_pos; [lia|apply Z.pow_pos_nonneg; lia].
Qed.

Lemma SFval_finite_lt m e :
  bounded prec emax m e = true -> SFval (S754_finite false m e) < 2 ^ 2100.
Proof.
  intros Hb. destruct (bounded_inv _ _ Hb) as (He & Hd & _).
  pose proof (digits_bounds m) as [_ Hm]. cbn [SFval].
  assert (2 ^ Zpos (digits2_pos m) <= 2 ^ 53) by (apply Z.pow_le_mono_r; lia).
  assert (2 ^ (e + 1074) <= 2 ^ 2045) by (apply Z.pow_le_mono_r; lia).
  assert (0 < 2 ^ (e + 1074)) by (apply Z.pow_pos_nonneg; lia).
  assert (2 ^ 53 * 2 ^ 2045 < 2 ^ 2100).
  { rewrite <- Z.pow_add_r by lia. apply Z.pow_lt_mono_r; lia. }
  nia.
Qed.

Lemma val_lt_exp m1 e1 m2 e2 :
  bounded prec emax m1 e1 = true -> bounded prec emax m2 e2 = true -> e1 < e2 ->
  Zpos m1 * 2 ^ (e1 + 1074) < Zpos m2 * 2 ^ (e2 + 1074).
Proof.
  intros H1 H2 Hlt.
  destruct (bounded_inv _ _ H1) as (He1 & Hd1 & _).
  destruct (bounded_inv _ _ H2) as (He2 & _ & Hn2).
  pose proof (digits_bounds m1) as [_ Hm1]. pose proof (digits_bounds m2) as [Hm2 _].
  rewrite Hn2 in Hm2 by lia. change (2 ^ (53 - 1)) with (2 ^ 52) in Hm2.
  assert (2 ^ Zpos (digits2_pos m1) <= 2 ^ 53) by (apply Z.pow_le_mono_r; lia).
  assert (0 < 2 ^ (e1 + 1074)) by (apply Z.pow_pos_nonneg; lia).
  assert (2 * 2 ^ (e1 + 1074) <= 2 ^ (e2 + 1074)).
  { replace (2 * 2 ^ (e1 + 1074)) with (2 ^ (e1 + 1074 + 1)) by (rewrite Z.pow_add_r by lia; lia).
    apply Z.pow_le_mono_r; lia. }
  change (2 ^ 53) with (2 * 2 ^ 52) in *.
  assert (0 < 2 ^ 52) by (apply Z.pow_pos_nonneg; lia).
  nia.
Qed.

(** On valid non-negative floats the IEEE comparison is the comparison of values. *)
Lemma SFcompare_val x y :
  nonneg_ext x = true -> nonneg_ext y = true ->
  SpecFloat.valid_binary prec emax x = true -> SpecFloat.valid_binary prec emax y = true ->
  SFcompare x y = Some (SFval x ?= SFval y).
Proof.
  intros Hx Hy Vx Vy.
  destruct x as [sx|[|]| |[|] mx ex]; try discriminate;
  destruct y as [sy|[|]| |[|] my ey]; try discriminate; cbn [SFcompare valid_binary] in *.
  - reflexivity.
  - reflexivity.
  - pose proof (SFval_finite_pos my ey) as H. destruct (bounded_inv _ _ Vy) as (He & _).
    specialize (H ltac:(lia)). change (SFval (S754_zero sx)) with 0.
    symmetry. f_equal. apply Z.compare_lt_iff. exact H.
  - reflexivity.
  - reflexivity.
  - pose proof (SFval_finite_lt _ _ Vy) as H.
    f_equal. symmetry. apply Z.compare_gt_iff. exact H.
  - pose proof (SFval_finite_pos mx ex) as H. destruct (bounded_inv _ _ Vx) as (He & _).
    specialize (H ltac:(lia)). change (SFval (S754_zero sy)) with 0.
    f_equal. symmetry. apply Z.compare_gt_iff. exact H.
  - pose proof (SFval_finite_lt _ _ Vx) as H.
    f_equal. symmetry. apply Z.compare_lt_iff. exact H.
  - f_equal. cbn [SFval].
    destruct (bounded_inv _ _ Vx) as (Hex & _). destruct (bounded_inv _ _ Vy) as (Hey & _).
    destruct (Z.compare_spec ex ey) as [->|Hlt|Hgt].
    + change (Pos.compare_cont Eq mx my) with (Pos.compare mx my).
      rewrite Pos2Z.inj_compare. symmetry.
      assert (0 < 2 ^ (ey + 1074)) by (apply Z.pow_pos_nonneg; lia).
      destruct (Z.compare_spec (Zpos mx) (Zpos my)) as [Heq|Hlt|Hgt].
      * rewrite Heq. apply Z.compare_refl.
      * apply Z.compare_lt_iff. nia.
      * apply Z.compare_gt_iff. nia.
    + symmetry. apply Z.compare_lt_iff. now apply val_lt_exp.
    + symmetry. apply Z.compare_gt_iff. now apply val_lt_exp.
Qed.

(** *** Products and sums *)

Lemma pack_nonneg q c : 0 <= q -> nonneg_ext (pack q c) = true.
Proof.
  intros Hq. unfold pack, shr_fexp. cbn [shr_record_of_loc].
  set (n := SpecFloat.fexp prec emax (Zdigits2 q + c) - c).
  destruct (Z_le_gt_dec 0 n) as [Hn|Hn].
  - destruct (shr_spec q c n Hq Hn) as (mrs & -> & (rem & _ & _ & Hm & _)).
    destruct (shr_m mrs); try lia; [reflexivity|].
    destruct (_ <=? _); reflexivity.
  - destruct n; try lia. cbn [shr shr_m].
    destruct q; try lia; [reflexivity|]. destruct (_ <=? _); reflexivity.
Qed.

Lemma R_nonneg M E : E <= cexp M E -> nonneg_ext (R M E) = true.
Proof.
  intros Hc. destruct (round_aux_spec M E Hc) as (q & Hq & ->).
  apply pack_nonneg. destruct (round_q_bounds _ _ _ Hc Hq) as [? _]. lia.
Qed.

Lemma digits_mul mx my :
  Zpos (digits2_pos mx) + Zpos (digits2_pos my) - 1 <= Zpos (digits2_pos (mx * my)).
Proof.
  pose proof (digits_bounds mx) as [Hx _]. pose proof (digits_bounds my) as [Hy _].
  pose proof (digits_bounds (mx * my)) as [_ Hxy].
  set (dx := Zpos (digits2_pos mx)) in *. set (dy := Zpos (digits2_pos my)) in *.
  set (d := Zpos (digits2_pos (mx * my))) in *.
  assert (0 < dx) by (unfold dx; lia). assert (0 < dy) by (unfold dy; lia).
  assert (0 < d) by (unfold d; lia).
  assert (Hpw : 2 ^ (dx - 1 + (dy - 1)) < 2 ^ d).
  { rewrite Z.pow_add_r by lia. rewrite Pos2Z.inj_mul in Hxy.
    assert (0 < 2 ^ (dx - 1)) by (apply Z.pow_pos_nonneg; lia).
    assert (0 < 2 ^ (dy - 1)) by (apply Z.pow_pos_nonneg; lia). nia. }
  apply Z.pow_lt_mono_r_iff in Hpw; lia.
Qed.

(** The product of two valid non-negative floats is zero or one rounding of the
    exact product. *)
Lemma SFmul_cases x y :
  nonneg_fin x = true -> nonneg_fin y = true ->
  SpecFloat.valid_binary prec emax x = true -> SpecFloat.valid_binary prec emax y = true ->
  (SFval x * SFval y = 0 /\ SFval (SF64mul x y) = 0 /\ nonneg_fin (SF64mul x y) = true) \/
  (exists M E, SF64mul x y = R M E /\ E <= cexp M E /\ 0 <= E + 2148 /\
               Zpos M * 2 ^ (E + 2148) = SFval x * SFval y).
Proof.
  intros Hx Hy Vx Vy.
  destruct x as [sx|[|]| |[|] mx ex]; try discriminate;
  destruct y as [sy|[|]| |[|] my ey]; try discriminate.
  - left. cbn. auto.
  - left. cbn. auto.
  - left. cbn [SF64mul SFmul SFval]. rewrite Z.mul_0_r. auto.
  - right. exists (mx * my)%positive, (ex + ey). cbn [valid_binary] in Vx, Vy.
    destruct (bounded_inv _ _ Vx) as (Hex & Hdx & Hnx).
    destruct (bounded_inv _ _ Vy) as (Hey & Hdy & Hny).
    pose proof (digits_mul mx my) as Hd.
    split; [reflexivity|]. split.
    + unfold cexp. rewrite fexp64_eq.
      assert (0 < Zpos (digits2_pos mx)) by lia. assert (0 < Zpos (digits2_pos my)) by lia.
      lia.
    + split; [lia|]. cbn [SFval]. rewrite Pos2Z.inj_mul.
      replace (ex + ey + 2148) with ((ex + 1074) + (ey + 1074)) by lia.
      rewrite Z.pow_add_r by lia. ring.
Qed.

Lemma SFmul_mono a b c :
  nonneg_fin a = true -> nonneg_fin b = true -> nonneg_fin c = true ->
  SpecFloat.valid_binary prec emax a = true -> SpecFloat.valid_binary prec emax b = true ->
  SpecFloat.valid_binary prec emax c = true ->
  SFval a <= SFval b ->
  SFval (SF64mul a c) <= SFval (SF64mul b c).
Proof.
  intros Ha Hb Hc Va Vb Vc Hle.
  destruct (SFmul_cases a c Ha Hc Va Vc) as [(_ & -> & _)|(M1 & E1 & -> & Hc1 & HK1 & HW1)].
  { apply SFval_nonneg. }
  destruct (SFmul_cases b c Hb Hc Vb Vc) as [(Hz & _ & _)|(M2 & E2 & -> & Hc2 & HK2 & HW2)].
  - exfalso. pose proof (SFval_nonneg a). pose proof (SFval_nonneg c).
    assert (0 < Zpos M1 * 2 ^ (E1 + 2148)).
    { apply Z.mul_pos_pos; [lia|apply Z.pow_pos_nonneg; lia]. }
    nia.
  - apply (round_mono M1 E1 M2 E2 2148); try assumption.
    rewrite HW1, HW2. pose proof (SFval_nonneg c). nia.
Qed.

Lemma SFmul_nonneg x y :
  nonneg_fin x = true -> nonneg_fin y = true ->
  SpecFloat.valid_binary prec emax x = true -> SpecFloat.valid_binary prec emax y = true ->
  nonneg_ext (SF64mul x y) = true.
Proof.
  intros Hx Hy Vx Vy.
  destruct (SFmul_cases x y Hx Hy Vx Vy) as [(_ & _ & H)|(M & E & -> & Hc & _)].
  - now apply nonneg_fin_ext.
  - now apply R_nonneg.
Qed.

Lemma pos_iter_xO m d :
  Zpos (Pos.iter xO m d) = Zpos m * 2 ^ Zpos d /\
  digits2_pos (Pos.iter xO m d) = (digits2_pos m + d)%positive.
Proof.
  induction d using Pos.peano_ind.
  - split; [cbn [Pos.iter]; lia|]. cbn. lia.
  - destruct IHd as [IH1 IH2]. rewrite Pos.iter_succ. split.
    + rewrite Pos2Z.inj_xO, IH1, Pos2Z.inj_succ, Z.pow_succ_r by lia. ring.
    + cbn [digits2_pos]. rewrite IH2. lia.
Qed.

Lemma binary_round_R M E :
  -1074 <= E ->
  exists M' E', binary_round prec emax false M E = R M' E' /\ E' <= cexp M' E' /\
                -1074 <= E' <= E /\ Zpos M' = Zpos M * 2 ^ (E - E').
Proof.
  intros HE. unfold binary_round, shl_align.
  fold (fexp64 (Zpos (digits2_pos M) + E)). fold (cexp M E).
  pose proof (cexp_ge M E) as Hg.
  destruct (cexp M E - E) as [|p|p] eqn:Hs.
  - exists M, E. split; [reflexivity|]. rewrite Z.sub_diag, Z.mul_1_r. repeat split; lia.
  - exists M, E. split; [reflexivity|]. rewrite Z.sub_diag, Z.mul_1_r. repeat split; lia.
  - destruct (pos_iter_xO M p) as [Hv Hd].
    exists (Pos.iter xO M p), (cexp M E). split; [reflexivity|].
    split; [|split; [lia|]].
    + unfold cexp at 2. rewrite Hd, Pos2Z.inj_add.
      replace (Zpos (digits2_pos M) + Zpos p + cexp M E) with (Zpos (digits2_pos M) + E) by lia.
      fold (cexp M E). lia.
    + rewrite Hv. f_equal. f_equal. lia.
Qed.

Lemma SFadd_cases x y :
  nonneg_fin x = true -> nonneg_fin y = true ->
  SpecFloat.valid_binary prec emax x = true -> SpecFloat.valid_binary prec emax y = true ->
  (SFval x + SFval y = 0 /\ SFval (SF64add x y) = 0 /\ nonneg_fin (SF64add x y) = true) \/
  (exists M E, SF64add x y = R M E /\ E <= cexp M E /\ 0 <= E + 1074 /\
               Zpos M * 2 ^ (E + 1074) = SFval x + SFval y).
Proof.
  intros Hx Hy Vx Vy.
  destruct x as [sx|[|]| |[|] mx ex]; try discriminate;
  destruct y as [sy|[|]| |[|] my ey]; try discriminate; cbn [valid_binary] in *.
  - left. destruct sx, sy; cbn; auto.
  - right. exists my, ey. cbn [SF64add SFadd]. rewrite round_exact by assumption.
    rewrite (bounded_cexp _ _ Vy). destruct (bounded_inv _ _ Vy) as (He & _).
    cbn [SFval]. repeat split; lia.
  - right. exists mx, ex. cbn [SF64add SFadd]. rewrite round_exact by assumption.
    rewrite (bounded_cexp _ _ Vx). destruct (bounded_inv _ _ Vx) as (He & _).
    cbn [SFval]. repeat split; lia.
  - right. destruct (bounded_inv _ _ Vx) as (Hex & _). destruct (bounded_inv _ _ Vy) as (Hey & _).
    cbn [SF64add SFadd cond_Zopp].
    set (ez := Z.min ex ey).
    assert (Hax : Zpos (fst (shl_align mx ex ez)) = Zpos mx * 2 ^ (ex - ez)).
    { unfold shl_align. destruct (ez - ex) as [|p|p] eqn:Hs; cbn [fst].
      - replace (ex - ez) with 0 by lia. lia.
      - unfold ez in Hs. lia.
      - destruct (pos_iter_xO mx p) as [-> _]. f_equal. f_equal. lia. }
    assert (Hay : Zpos (fst (shl_align my ey ez)) = Zpos my * 2 ^ (ey - ez)).
    { unfold shl_align. destruct (ez - ey) as [|p|p] eqn:Hs; cbn [fst].
      - replace (ey - ez) with 0 by lia. lia.
      - unfold ez in Hs. lia.
      - destruct (pos_iter_xO my p) as [-> _]. f_equal. f_equal. lia. }
    set (ax := fst (shl_align mx ex ez)) in *. set (ay := fst (shl_align my ey ez)) in *.
    change (Zpos ax + Zpos ay) with (Zpos (ax + ay)). cbn [binary_normalize].
    destruct (binary_round_R (ax + ay) ez) as (M' & E' & -> & Hc & HE & HM); [unfold ez; lia|].
    exists M', E'. split; [reflexivity|]. split; [exact Hc|]. split; [lia|].
    rewrite HM, Pos2Z.inj_add, Hax, Hay. cbn [SFval].
    rewrite <- Z.mul_assoc, <- Z.pow_add_r by lia.
    replace (ez - E' + (E' + 1074)) with (ez + 1074) by lia.
    rewrite Z.mul_add_distr_r, <- !Z.mul_assoc, <- !Z.pow_add_r by (unfold ez; lia).
    f_equal; f_equal; f_equal; lia.
Qed.

Lemma SFadd_mono a b c :
  nonneg_fin a = true -> nonneg_fin b = true -> nonneg_fin c = true ->
  SpecFloat.valid_binary prec emax a = true -> SpecFloat.valid_binary prec emax b = true ->
  SpecFloat.valid_binary prec emax c = true ->
  SFval a <= SFval b ->
  SFval (SF64add c a) <= SFval (SF64add c b).
Proof.
  intros Ha Hb Hc Va Vb Vc Hle.
  destruct (SFadd_cases c a Hc Ha Vc Va) as [(_ & -> & _)|(M1 & E1 & -> & Hc1 & HK1 & HW1)].
  { apply SFval_nonneg. }
  destruct (SFadd_cases c b Hc Hb Vc Vb) as [(Hz & _ & _)|(M2 & E2 & -> & Hc2 & HK2 & HW2)].
  - exfalso. pose proof (SFval_nonneg a). pose proof (SFval_nonneg c).
    assert (0 < Zpos M1 * 2 ^ (E1 + 1074)).
    { apply Z.mul_pos_pos; [lia|apply Z.pow_pos_nonneg; lia]. }
    lia.
  - apply (round_mono M1 E1 M2 E2 1074); try assumption. lia.
Qed.

Lemma SFadd_nonneg x y :
  nonneg_fin x = true -> nonneg_fin y = true ->
  SpecFloat.valid_binary prec emax x = true -> SpecFloat.valid_binary prec emax y = true ->
  nonneg_ext (SF64add x y) = true.
Proof.
  intros Hx Hy Vx Vy.
  destruct (SFadd_cases x y Hx Hy Vx Vy) as [(_ & _ & H)|(M & E & -> & Hc & _)].
  - now apply nonneg_fin_ext.
  - now apply R_nonneg.
Qed.

(** *** Floor *)

Lemma SFfloorZ_val x :
  nonneg_fin x = true -> SpecFloat.valid_binary prec emax x = true ->
  SFfloorZ x = SFval x / 2 ^ 1074.
Proof.
  intros Hx Vx. destruct x as [sx|[|]| |[|] m e]; try discriminate; cbn [SFfloorZ SFval cond_Zopp].
  - reflexivity.
  - cbn [valid_binary] in Vx. destruct (bounded_inv _ _ Vx) as (He & _).
    destruct (Z_le_gt_dec 0 e) as [Hpos|Hneg].
    + rewrite Z.shiftl_mul_pow2 by lia. rewrite Z.pow_add_r by lia.
      rewrite Z.mul_assoc, Z.div_mul; [reflexivity|]. apply Z.pow_nonzero; lia.
    + rewrite Z.shiftl_div_pow2 by lia.
      replace (2 ^ 1074) with (2 ^ (- e) * 2 ^ (e + 1074)).
      2:{ rewrite <- Z.pow_add_r by lia. f_equal. lia. }
      rewrite Z.div_mul_cancel_r; [reflexivity| |]; apply Z.pow_nonzero; lia.
Qed.

(** *** The primitive operations *)

Lemma fin_nonneg x : fin x -> nonneg x.
Proof. apply nonneg_fin_ext. Qed.

Lemma val_nonneg x : 0 <= val x.
Proof. apply SFval_nonneg. Qed.

Lemma compare_val a b :
  nonneg a -> nonneg b -> SFcompare (Prim2SF a) (Prim2SF b) = Some (val a ?= val b).
Proof. intros Ha Hb. apply SFcompare_val; auto using Prim2SF_valid. Qed.

Lemma leb_val a b : nonneg a -> nonneg b -> (a <=? b)%float = (val a <=? val b).
Proof.
  intros Ha Hb. rewrite leb_spec. unfold SFleb. rewrite (compare_val a b Ha Hb).
  unfold Z.leb. destruct (val a ?= val b); reflexivity.
Qed.

Lemma ltb_val a b : nonneg a -> nonneg b -> (a <? b)%float = (val a <? val b).
Proof.
  intros Ha Hb. rewrite ltb_spec. unfold SFltb. rewrite (compare_val a b Ha Hb).
  unfold Z.ltb. destruct (val a ?= val b); reflexivity.
Qed.

Lemma fin_val_lt x : fin x -> val x < 2 ^ 2100.
Proof.
  unfold fin, val. intros H. pose proof (Prim2SF_valid x) as V.
  destruct (Prim2SF x) as [sx|[|]| |[|] m e]; try discriminate H.
  - cbn [SFval]. apply Z.pow_pos_nonneg; lia.
  - now apply SFval_finite_lt.
Qed.

Lemma nonneg_fin_of_lt x : nonneg x -> val x < 2 ^ 2100 -> fin x.
Proof.
  unfold nonneg, fin, val. intros Hn Hlt.
  destruct (Prim2SF x) as [sx|[|]| |[|] m e]; try discriminate Hn; trivial.
  cbn [SFval] in Hlt. lia.
Qed.

Lemma fin_le x y : nonneg x -> fin y -> val x <= val y -> fin x.
Proof.
  intros Hx Hy Hle. apply nonneg_fin_of_lt; trivial.
  pose proof (fin_val_lt y Hy). lia.
Qed.

Lemma nonneg_of_leb x : (0 <=? x)%float = true -> nonneg x.
Proof.
  rewrite leb_spec. unfold nonneg. change (Prim2SF 0) with (S754_zero false).
  destruct (Prim2SF x) as [sx|[|]| |[|] m e]; try discriminate; trivial.
Qed.

Lemma mul_nonneg a b : fin a -> fin b -> nonneg (a * b)%float.
Proof.
  intros Ha Hb. unfold nonneg. rewrite mul_spec.
  apply SFmul_nonneg; auto using Prim2SF_valid.
Qed.

Lemma add_nonneg a b : fin a -> fin b -> nonneg (a + b)%float.
Proof.
  intros Ha Hb. unfold nonneg. rewrite add_spec.
  apply SFadd_nonneg; auto using Prim2SF_valid.
Qed.

(** Multiplying by a non-negative number is monotone, rounding included. *)
Lemma mul_mono a b c :
  fin a -> fin b -> fin c -> val a <= val b -> val (a * c)%float <= val (b * c)%float.
Proof.
  intros Ha Hb Hc Hle. unfold val. rewrite !mul_spec.
  apply SFmul_mono; auto using Prim2SF_valid.
Qed.

Lemma add_mono a b c :
  fin a -> fin b -> fin c -> val a <= val b -> val (c + a)%float <= val (c + b)%float.
Proof.
  intros Ha Hb Hc Hle. unfold val. rewrite !add_spec.
  apply SFadd_mono; auto using Prim2SF_valid.
Qed.

Lemma Math_floor_val x : fin x -> Math_floor x = val x / 2 ^ 1074.
Proof. intros Hx. apply SFfloorZ_val; auto using Prim2SF_valid. Qed.

Lemma Math_floor_mono a b : fin a -> fin b -> val a <= val b -> Math_floor a <= Math_floor b.
Proof.
  intros Ha Hb Hle. rewrite !Math_floor_val by assumption.
  apply Z.div_le_mono; [apply Z.pow_pos_nonneg; lia|exact Hle].
Qed.

Lemma Math_floor_nonneg a : fin a -> 0 <= Math_floor a.
Proof.
  intros Ha. rewrite Math_floor_val by assumption.
  apply Z.div_pos; [apply val_nonneg|apply Z.pow_pos_nonneg; lia].
Qed.

Lemma unit_interval_fin r : unit_interval r = true -> fin r /\ val r <= val pred1.
Proof.
  unfold unit_interval. intros H. apply andb_true_iff in H. destruct H as [H0 H1].
  pose proof (nonneg_of_leb r H0) as Hn.
  assert (Hone : nonneg 1%float) by reflexivity.
  rewrite (ltb_val r 1 Hn Hone) in H1. apply Z.ltb_lt in H1.
  assert (Hv1 : val 1%float = 2 ^ 53 * 2 ^ 1021) by (vm_compute; reflexivity).
  assert (Hvp : val pred1 = (2 ^ 53 - 1) * 2 ^ 1021) by (vm_compute; reflexivity).
  assert (Hfin : fin r).
  { apply nonneg_fin_of_lt; trivial.
    assert (val 1%float < 2 ^ 2100) by (vm_compute; reflexivity). lia. }
  split; [exact Hfin|].
  rewrite Hvp. rewrite Hv1 in H1. clear Hv1 Hvp H0 Hn Hone.
  unfold fin, val in *. pose proof (Prim2SF_valid r) as V.
  assert (Hp : 0 < 2 ^ 1021) by (apply Z.pow_pos_nonneg; lia).
  destruct (Prim2SF r) as [sx|[|]| |[|] m e]; try discriminate Hfin; cbn [SFval] in *.
  { apply Z.mul_nonneg_nonneg; lia. }
  cbn [valid_binary] in V. destruct (bounded_inv _ _ V) as (He & Hd & _).
  pose proof (digits_bounds m) as [_ Hm].
  { 
    assert (Hm53 : Zpos m < 2 ^ 53).
    { assert (2 ^ Zpos (digits2_pos m) <= 2 ^ 53) by (apply Z.pow_le_mono_r; lia). lia. }
    destruct (Z_le_gt_dec (-53) e) as [Hge|Hlt].
    + replace (e + 1074) with ((e + 53) + 1021) in * by lia.
      rewrite Z.pow_add_r in * by lia.
      rewrite Z.mul_assoc in *.
      remember (2 ^ 1021) as P. remember (Zpos m * 2 ^ (e + 53)) as Q.
      apply Z.mul_le_mono_nonneg_r; [lia|].
      apply Z.mul_lt_mono_pos_r in H1; lia.
    + assert (Hpe : 2 ^ (e + 1074) <= 2 ^ 1021) by (apply Z.pow_le_mono_r; lia).
      assert (0 < 2 ^ (e + 1074)) by (apply Z.pow_pos_nonneg; lia).
      remember (2 ^ 1021) as P. remember (2 ^ (e + 1074)) as Q.
      apply Z.mul_le_mono_nonneg; lia. }
Qed.

(** [Math.floor(Math.random() * n)] is an index below [n]: it is enough to
    evaluate the product at the largest possible draw. *)
Lemma floor_random_mul r n k :
  unit_interval r = true -> fin n -> fin (pred1 * n)%float ->
  Math_floor (pred1 * n)%float = k ->
  0 <= Math_floor (r * n)%float <= k.
Proof.
  intros Hr Hn Hfp Hk. destruct (unit_interval_fin r Hr) as [Hfr Hle].
  assert (Hp : fin pred1) by reflexivity.
  pose proof (mul_mono r pred1 n Hfr Hp Hn Hle) as Hm.
  assert (Hfrn : fin (r * n)%float).
  { apply (fin_le _ (pred1 * n)%float); trivial. now apply mul_nonneg. }
  split; [now apply Math_floor_nonneg|].
  rewrite <- Hk. now apply Math_floor_mono.
Qed.

(** [c + Math.random() * a] stays between its values at the two ends of the
    interval. *)
Lemma affine_random r c a lo hi :
  unit_interval r = true -> fin c -> fin a -> fin (1 * a)%float ->
  fin lo -> fin hi ->
  (lo <=? c + 0 * a)%float = true -> (c + 1 * a <=? hi)%float = true ->
  (lo <=? c + r * a)%float = true /\ (c + r * a <=? hi)%float = true.
Proof.
  intros Hr Hc Ha H1a Hlo Hhi Hlow Hup.
  destruct (unit_interval_fin r Hr) as [Hfr Hle].
  assert (Hf0 : fin 0%float) by reflexivity.
  assert (Hf1 : fin 1%float) by reflexivity.
  assert (Hp : fin pred1) by reflexivity.
  assert (Hr1 : val r <= val 1%float).
  { assert (val pred1 <= val 1%float) by (vm_compute; discriminate). lia. }
  pose proof (mul_mono 0 r a Hf0 Hfr Ha (val_nonneg r)) as Hm0.
  pose proof (mul_mono r 1 a Hfr Hf1 Ha Hr1) as Hm1.
  assert (Hfra : fin (r * a)%float).
  { apply (fin_le _ (1 * a)%float); trivial. now apply mul_nonneg. }
  assert (Hf0a : fin (0 * a)%float).
  { apply (fin_le _ (r * a)%float); trivial. now apply mul_nonneg. }
  pose proof (add_mono _ _ c Hf0a Hfra Hc Hm0) as Ha0.
  pose proof (add_mono _ _ c Hfra H1a Hc Hm1) as Ha1.
  assert (Hn0 : nonneg (c + 0 * a)%float) by now apply add_nonneg.
  assert (Hnr : nonneg (c + r * a)%float) by now apply add_nonneg.
  assert (Hn1 : nonneg (c + 1 * a)%float) by now apply add_nonneg.
  rewrite (leb_val _ _ (fin_nonneg _ Hlo) Hn0) in Hlow.
  rewrite (leb_val _ _ Hn1 (fin_nonneg _ Hhi)) in Hup.
  apply Z.leb_le in Hlow. apply Z.leb_le in Hup.
  rewrite (leb_val _ _ (fin_nonneg _ Hlo) Hnr), (leb_val _ _ Hnr (fin_nonneg _ Hhi)).
  split; apply Z.leb_le; lia.
Qed.

End Binary64Facts.

(** ** Computations that return *)

Module EffectsFacts.

Import Binary64 Effects.

Lemma returns_ret {A : Type} (a : A) w st (Q : A -> Store -> Prop) :
  Q a st -> returns (ret a) w st Q.
Proof. intros H. exact H. Qed.

Lemma returns_bind {A B : Type} (c : M A) (k : A -> M B) w st (Q : B -> Store -> Prop) :
  returns c w st (fun a st' => returns (k a) w st' Q) -> returns (bind c k) w st Q.
Proof.
  unfold returns, bind. destruct (c w st) as [e st'|a st']; trivial.
Qed.

Lemma returns_weaken {A : Type} (c : M A) w st (Q Q' : A -> Store -> Prop) :
  returns c w st Q -> (forall a st', Q a st' -> Q' a st') -> returns c w st Q'.
Proof.
  unfold returns. destruct (c w st) as [e st'|a st']; [trivial|]. intros H HQ. now apply HQ.
Qed.

Lemma returns_inv {A : Type} (c : M A) w st (Q : A -> Store -> Prop) :
  returns c w st Q -> exists a st', c w st = Returned a st' /\ Q a st'.
Proof.
  unfold returns. destruct (c w st) as [e st'|a st']; [contradiction|].
  intros H. now exists a, st'.
Qed.

Lemma returns_Math_random w st (Q : float -> Store -> Prop) :
  fair w -> (forall r st', unit_interval r = true -> Q r st') ->
  returns Math_random w st Q.
Proof. intros Hw HQ. apply HQ, Hw. Qed.

Lemma returns_Date_toISOString w st (Q : string -> Store -> Prop) :
  (forall s st', Q s st') -> returns Date_toISOString w st Q.
Proof. intros HQ. apply HQ. Qed.

Lemma returns_property_of {A B : Type} (x : option A) (a : A) nm (get : A -> B) w st
      (Q : B -> Store -> Prop) :
  x = Some a -> Q (get a) st -> returns (property_of x nm get) w st Q.
Proof. intros -> H. exact H. Qed.

End EffectsFacts.

(** ** The synthesizer *)

Module SynthFacts.

Import Binary64 Binary64Facts JS Effects EffectsFacts Synth.

Lemma returns_random_below n k w st (Q : Z -> Store -> Prop) :
  fair w -> fin n -> fin (pred1 * n)%float -> Math_floor (pred1 * n)%float = k ->
  (forall v st', 0 <= v <= k -> Q v st') ->
  returns (random_below n) w st Q.
Proof.
  intros Hw Hn Hp Hk HQ. unfold random_below.
  apply returns_bind, returns_Math_random; [exact Hw|].
  intros r st' Hr. apply returns_ret, HQ.
  now apply (floor_random_mul r n k).
Qed.

Lemma returns_coin w st (Q : bool -> Store -> Prop) :
  fair w -> (forall b st', Q b st') -> returns coin w st Q.
Proof.
  intros Hw HQ. unfold coin.
  apply returns_bind, returns_Math_random; [exact Hw|].
  intros r st' _. apply returns_ret, HQ.
Qed.

Lemma returns_school nm base spread near reach grades w st (Q : School -> Store -> Prop) :
  fair w -> (forall s st', Q s st') ->
  returns (school nm base spread near reach grades) w st Q.
Proof.
  intros Hw HQ. unfold school, random_below.
  apply returns_bind, returns_bind, returns_Math_random; [exact Hw|].
  intros r st' _. apply returns_ret.
  apply returns_bind, returns_Math_random; [exact Hw|].
  intros r' st'' _. apply returns_ret, HQ.
Qed.

Lemma index_in_bounds {A : Type} (a : list A) (i : Z) :
  0 <= i < array_length a -> exists x, index a i = Some x /\ In x a.
Proof.
  unfold index, array_length. intros Hi.
  destruct (Z.ltb_spec i 0) as [|_]; [lia|].
  destruct (nth_error a (Z.to_nat i)) as [x|] eqn:Hx.
  - exists x. split; [reflexivity|]. now apply nth_error_In in Hx.
  - apply nth_error_None in Hx. lia.
Qed.

Lemma forallb_range (P : Z -> bool) (lo : Z) (n : nat) :
  forallb P (map (fun i => lo + Z.of_nat i) (seq 0 n)) = true ->
  forall z, lo <= z < lo + Z.of_nat n -> P z = true.
Proof.
  intros H z Hz. rewrite forallb_forall in H. apply H.
  apply in_map_iff. exists (Z.to_nat (z - lo)). split; [lia|].
  apply in_seq. lia.
Qed.

Lemma zip_codes z :
  32700 <= z <= 33699 -> zip_in_range 32700 33699 (Int_toString z).
Proof.
  intros Hz.
  assert (Hall : forallb zip_check (map (fun i => 32700 + Z.of_nat i) (seq 0 1000)) = true)
    by (vm_compute; reflexivity).
  pose proof (forallb_range zip_check 32700 1000 Hall z ltac:(lia)) as Hc.
  unfold zip_check in Hc.
  apply andb_true_iff in Hc. destruct Hc as [Hc Hp].
  apply andb_true_iff in Hc. destruct Hc as [Hlen Hdig].
  apply Nat.eqb_eq in Hlen.
  split; [exact Hlen|]. split; [exact Hdig|].
  exists z. split; [exact Hz|].
  destruct (parseInt (Int_toString z)) as [v|]; [|discriminate].
  apply Z.eqb_eq in Hp. now subst.
Qed.

Lemma half_steps_baths whole (half : bool) :
  0 <= whole <= 2 ->
  half_steps 1 4 (Z2num (1 + whole) + (if half then 0.5 else 0))%float.
Proof.
  intros Hw. exists (2 * (1 + whole) + (if half then 1 else 0)).
  assert (Hcases : whole = 0 \/ whole = 1 \/ whole = 2) by lia.
  destruct Hcases as [ -> | [ -> | -> ] ]; destruct half;
    (split; [lia|vm_compute; reflexivity]).
Qed.

(** Why products are taken in binary64: at the lowest price the program's
    [Math.floor(price * 0.82)] is one less than the floor of the exact product. *)
Remark binary64_product_at_lowest_price :
  Math_floor (Z2num 150000 * 0.82) = 122999 /\ 150000 * 82 / 100 = 123000.
Proof. split; reflexivity. Qed.

Ltac draw_below H :=
  apply returns_bind; eapply returns_random_below;
  [ eassumption | reflexivity | reflexivity | vm_compute; reflexivity
  | intros ? ? H; cbv zeta ].

Ltac draw_coin :=
  apply returns_bind; apply returns_coin; [assumption | intros ? ?; cbv zeta].

Ltac draw H :=
  apply returns_bind; apply returns_Math_random; [assumption | intros ? ? H; cbv zeta].

(** Under fair draws the loop body returns a record that meets the data model. *)
Lemma generate_one_returns c w st :
  fair w -> returns (generate_one c) w st (fun p _ => well_formed c p).
Proof.
  intros Hw. unfold generate_one.
  draw_below ipattern:(Hb).
  draw_below ipattern:(Hwhole).
  draw_coin.
  draw_below ipattern:(Hs).
  draw ipattern:(Hrate).
  draw_below ipattern:(Ha).
  draw_below ipattern:(Hz).
  draw_below ipattern:(Hm).
  draw_below ipattern:(Hhouse).
  draw_below ipattern:(Hst).
  draw_below ipattern:(Hzip).
  draw ipattern:(Hlat).
  draw ipattern:(Hlon).
  draw ipattern:(Hlot).
  draw_below ipattern:(Hy).
  draw_below ipattern:(Ht).
  draw_below ipattern:(Hdom).
  draw_coin.
  apply returns_bind.
  apply (returns_weaken _ _ _ (fun _ _ => True)).
  { match goal with |- context [if ?b then _ else _] => destruct b end.
    - draw_below ipattern:(Hh). now apply returns_ret.
    - now apply returns_ret. }
  intros hoa ? _.
  draw_below ipattern:(Ht').
  match goal with H : 0 <= ?t' <= 3 |- context [index propertyTypes ?t'] =>
    destruct (index_in_bounds propertyTypes t' ltac:(change (array_length propertyTypes) with 4; lia))
      as (kind & Hkind & _) end.
  apply returns_bind. eapply returns_property_of; [exact Hkind|].
  draw_coin.
  match goal with H : 0 <= ?a <= 3 |- context [index agents ?a] =>
    destruct (index_in_bounds agents a ltac:(change (array_length agents) with 4; lia))
      as (agent & Hagent & _) end.
  do 4 (apply returns_bind; eapply returns_property_of; [exact Hagent|]).
  draw ipattern:(Hzest).
  do 3 (apply returns_bind; apply returns_school; [assumption | intros ? ?]).
  apply returns_bind, returns_Date_toISOString. intros now ?.
  apply returns_ret.
  unfold well_formed, located, in_range, consistent.
  cbn [city state bedrooms bathrooms sqft yearBuilt zipCode propertyType price
       rentZestimate zestimate lotSize priceHistory taxHistory].
  split; [split; reflexivity|]. split.
  - split; [lia|]. split; [now apply half_steps_baths|].
    split; [lia|]. split; [lia|]. split; [apply zip_codes; lia|].
    match goal with H : 0 <= ?t <= 3 |- context [index propertyTypes ?t = _] =>
      destruct (index_in_bounds propertyTypes t ltac:(change (array_length propertyTypes) with 4; lia))
        as (ty & Hty & Hin) end.
    exists ty. now split.
  - split; [reflexivity|]. split.
    { eexists. split; [|split; [|reflexivity]];
        eapply (affine_random _ 0.95 0.1 0.95 1.05); try eassumption; reflexivity. }
    split.
    { eexists. split; [|split; [|reflexivity]];
        eapply (affine_random _ 2 3 2 5); try eassumption; reflexivity. }
    split.
    { do 2 eexists. split; [reflexivity|]. split; reflexivity. }
    do 2 eexists. split; [reflexivity|]. repeat split.
Qed.

End SynthFacts.

(** ** The characters of a printed number *)

Module JSFacts.

Import Binary64 JS Synth Api.

Lemma occurrences_app c a b :
  occurrences c (a ++ b) = (occurrences c a + occurrences c b)%nat.
Proof.
  induction a as [|x a IH]; cbn [append occurrences]; [reflexivity|].
  rewrite IH. lia.
Qed.

Lemma occurrences_substring c n m s :
  occurrences c s = O -> occurrences c (String.substring n m s) = O.
Proof.
  revert n m. induction s as [|x s IH]; intros n m H.
  - destruct n, m; reflexivity.
  - cbn [occurrences] in H.
    destruct n as [|n], m as [|m]; cbn [String.substring occurrences]; try reflexivity.
    + rewrite IH by lia. lia.
    + apply IH. lia.
    + apply IH. lia.
Qed.

Lemma digit_char_plain c d :
  special c -> 0 <= d < 10 -> Ascii.eqb c (digit_char d) = false.
Proof.
  intros Hc Hd.
  assert (H : d = 0 \/ d = 1 \/ d = 2 \/ d = 3 \/ d = 4 \/ d = 5 \/ d = 6 \/ d = 7 \/
              d = 8 \/ d = 9) by lia.
  destruct Hc as [-> | ->];
    repeat (destruct H as [-> | H]; [reflexivity|]); subst d; reflexivity.
Qed.

Lemma digits_fuel_plain c fuel n acc :
  special c -> occurrences c acc = O -> occurrences c (digits_fuel fuel n acc) = O.
Proof.
  intros Hc. revert n acc. induction fuel as [|fuel IH]; intros n acc Hacc.
  - cbn [digits_fuel occurrences].
    rewrite (digit_char_plain c (n mod 10) Hc) by (apply Z.mod_pos_bound; lia). exact Hacc.
  - cbn [digits_fuel].
    assert (Hstep : occurrences c (String (digit_char (n mod 10)) acc) = O).
    { cbn [occurrences].
      rewrite (digit_char_plain c (n mod 10) Hc) by (apply Z.mod_pos_bound; lia). exact Hacc. }
    destruct (n <? 10); [exact Hstep|]. now apply IH.
Qed.

Lemma digits_plain c n : special c -> occurrences c (digits n) = O.
Proof. intros Hc. now apply digits_fuel_plain. Qed.

Lemma zeros_plain c n : special c -> occurrences c (zeros n) = O.
Proof.
  intros Hc. induction n as [|n IH]; [reflexivity|].
  cbn [zeros occurrences]. rewrite IH. destruct Hc as [-> | ->]; reflexivity.
Qed.

Lemma literal_plain c (s : string) :
  special c -> occurrences comma s = O -> occurrences quote_mark s = O ->
  occurrences c s = O.
Proof. intros [-> | ->]; trivial. Qed.

Lemma format_digits_plain c s n k : special c -> occurrences c (format_digits s n k) = O.
Proof.
  intros Hc. unfold format_digits, substring_to, substring_from.
  pose proof (digits_plain c s Hc) as Hd.
  pose proof (digits_plain c (Z.abs (n - 1)) Hc) as He.
  assert (Hsign : occurrences c (if n - 1 <? 0 then "-" else "+") = O).
  { destruct (n - 1 <? 0); apply literal_plain; trivial. }
  assert (Hdot : occurrences c "." = O) by (apply literal_plain; trivial).
  assert (Hexp : occurrences c "e" = O) by (apply literal_plain; trivial).
  assert (Hzero : occurrences c "0." = O) by (apply literal_plain; trivial).
  repeat match goal with |- context [if ?b then _ else _] => destruct b end;
    repeat rewrite occurrences_app;
    repeat rewrite occurrences_substring by exact Hd;
    rewrite ?Hd, ?He, ?Hsign, ?Hdot, ?Hexp, ?Hzero, ?zeros_plain by exact Hc;
    reflexivity.
Qed.

Lemma SF_toString_plain c x : special c -> occurrences c (SF_toString x) = O.
Proof.
  intros Hc. destruct x as [s|s| |s m e]; cbn [SF_toString].
  - now apply literal_plain.
  - destruct s; now apply literal_plain.
  - now apply literal_plain.
  - destruct (shortest 16 m e (decimal_exponent m e) 1) as [[d n] k].
    rewrite occurrences_app, format_digits_plain by exact Hc.
    destruct s; now rewrite literal_plain.
Qed.

(** A printed number holds no comma and no quote. *)
Lemma Number_toString_plain x : plain (Number_toString x).
Proof.
  split; apply SF_toString_plain; [now left|now right].
Qed.

Lemma Int_toString_plain n : plain (Int_toString n).
Proof. apply Number_toString_plain. Qed.

End JSFacts.

(** ** The generation loop *)

Module LoopFacts.

Import Binary64 JS Effects EffectsFacts Synth SynthFacts.

Lemma generate_loop_returns n c acc w st :
  fair w ->
  returns (generate_loop n c acc) w st
    (fun props _ =>
       exists fresh, props = (acc ++ fresh)%list /\ List.length fresh = n /\
                     Forall (well_formed c) fresh).
Proof.
  intros Hw. revert acc st. induction n as [|n IH]; intros acc st; cbn [generate_loop].
  - apply returns_ret. exists []. rewrite app_nil_r. auto.
  - apply returns_bind.
    eapply returns_weaken; [apply generate_one_returns; exact Hw|].
    intros p st' Hp. cbv beta.
    eapply returns_weaken; [apply IH|].
    intros props st'' (fresh & -> & Hlen & Hall).
    exists (p :: fresh). rewrite <- app_assoc. cbn [app List.length].
    split; [reflexivity|]. split; [now rewrite Hlen|]. now constructor.
Qed.

Lemma generateProperties_returns c count w st :
  fair w ->
  returns (generateProperties c count) w st
    (fun props _ =>
       List.length props = Z.to_nat (requested count) /\ Forall (well_formed c) props).
Proof.
  intros Hw. unfold generateProperties.
  eapply returns_weaken; [apply generate_loop_returns; exact Hw|].
  intros props st' (fresh & -> & Hlen & Hall). cbn [app]. auto.
Qed.

(** With nothing to generate the loop body never runs: no draw is taken. *)
Lemma generateProperties_none c n w st :
  n <= 0 -> generateProperties c (Some n) w st = Returned [] st.
Proof.
  intros Hn. unfold generateProperties, requested.
  replace (Z.to_nat n) with O by lia. reflexivity.
Qed.

End LoopFacts.

(** ** The adapter *)

Module ApiFacts.

Import Binary64 JS Effects EffectsFacts Synth SynthFacts LoopFacts Api JSFacts.

Lemma generate_all_returns cities max acc w st :
  fair w ->
  returns (generate_all cities max acc) w st
    (fun props _ =>
       exists segs, props = (acc ++ List.concat segs)%list /\ segmented cities (Z.to_nat max) segs).
Proof.
  intros Hw. revert acc st. induction cities as [|c cities IH]; intros acc st; cbn [generate_all].
  - apply returns_ret. exists []. cbn [List.concat]. rewrite app_nil_r. split; [reflexivity|constructor].
  - apply returns_bind.
    eapply returns_weaken; [apply generateProperties_returns; exact Hw|].
    intros ps st' [Hlen Hall]. cbv beta.
    eapply returns_weaken; [apply IH|].
    intros props st'' (segs & -> & Hsegs).
    exists (ps :: segs). cbn [List.concat]. rewrite <- app_assoc.
    split; [reflexivity|]. constructor; [|exact Hsegs]. now split.
Qed.

Lemma generate_all_none cities max acc w st :
  max <= 0 -> generate_all cities max acc w st = Returned acc st.
Proof.
  intros Hmax. revert acc. induction cities as [|c cities IH]; intros acc; cbn [generate_all].
  - reflexivity.
  - unfold bind. rewrite generateProperties_none by exact Hmax.
    rewrite app_nil_r. apply IH.
Qed.

Lemma segmented_length cities n segs :
  segmented cities n segs -> List.length (List.concat segs) = (List.length cities * n)%nat.
Proof.
  induction 1 as [|c seg cities segs [Hlen _] _ IH]; [reflexivity|].
  cbn [List.concat List.length]. rewrite length_app, IH, Hlen. lia.
Qed.

Lemma segmented_cities cities n segs :
  segmented cities n segs ->
  map Synth.city (List.concat segs) = flat_map (fun c => repeat c n) cities.
Proof.
  induction 1 as [|c seg cities segs [Hlen Hall] _ IH]; [reflexivity|].
  cbn [List.concat flat_map]. rewrite map_app, IH. f_equal.
  subst n. clear -Hall. induction Hall as [|p seg [[Hc _] _] _ IHs]; [reflexivity|].
  cbn [map List.length repeat]. now rewrite Hc, IHs.
Qed.

(** A GET request goes to the [try] block. *)
Lemma handler_GET city limit all format w st :
  handler (GET city limit all format) w st =
  match serve {| q_city := city; q_limit := limit; q_all := all; q_format := format |} w st with
  | Returned response st' => (response, st')
  | Threw e st' =>
      ({| status := 500; headers := cors_headers; body := Failure false (error_message e) |}, st')
  end.
Proof. reflexivity. Qed.

Lemma handler_selected city limit all format w st selected st' :
  select_properties city all (maxProperties limit) w st = Returned selected st' ->
  handler (GET city limit all format) w st = (render city format selected, st').
Proof.
  intros Hsel. rewrite handler_GET. unfold serve, bind. cbn [q_city q_limit q_all q_format].
  rewrite Hsel. reflexivity.
Qed.

Lemma select_all city max w st :
  fair w ->
  exists props st' segs,
    select_properties city (Some "true") max w st = Returned (Some props) st' /\
    props = List.concat segs /\ segmented CITIES (Z.to_nat max) segs.
Proof.
  intros Hw. unfold select_properties. cbn [is_true String.eqb Ascii.eqb Bool.eqb].
  destruct (returns_inv _ _ _ _ (generate_all_returns CITIES max [] w st Hw))
    as (props & st' & Heq & segs & -> & Hsegs).
  exists (List.concat segs), st', segs. unfold bind. rewrite Heq. cbn [app]. auto.
Qed.

Lemma is_true_inv all : is_true all = true -> all = Some "true".
Proof.
  destruct all as [s|]; cbn [is_true]; [|discriminate].
  intros H. apply String.eqb_eq in H. now subst.
Qed.

Lemma truthy_inv city : truthy city = true -> exists c s, city = Some (String c s).
Proof.
  destruct city as [[|c s]|]; cbn [truthy]; try discriminate. eauto.
Qed.

Lemma select_one c s all max w st :
  fair w -> is_true all = false ->
  exists props st',
    select_properties (Some (String c s)) all max w st = Returned (Some props) st' /\
    List.length props = Z.to_nat max /\ Forall (well_formed (String c s)) props.
Proof.
  intros Hw Hall. unfold select_properties. rewrite Hall. cbn [truthy or_else].
  destruct (returns_inv _ _ _ _ (generateProperties_returns (String c s) (Some max) w st Hw))
    as (props & st' & Heq & Hlen & Hwf).
  exists props, st'. unfold bind. rewrite Heq. auto.
Qed.

(** With a valid selection and fair draws the synthesizer does not throw. *)
Lemma select_some city all max w st :
  fair w -> is_true all = true \/ truthy city = true ->
  exists props st', select_properties city all max w st = Returned (Some props) st'.
Proof.
  intros Hw Hsel. destruct (is_true all) eqn:Hall.
  - apply is_true_inv in Hall. subst all.
    destruct (select_all city max w st Hw) as (props & st' & _ & H & _). eauto.
  - destruct Hsel as [Hsel|Hsel]; [discriminate|].
    destruct (truthy_inv _ Hsel) as (c & s & ->).
    destruct (select_one c s all max w st Hw Hall) as (props & st' & H & _). eauto.
Qed.

(** With nothing to generate the selection is empty and takes no draw. *)
Lemma select_none city all max w st :
  max <= 0 -> is_true all = true \/ truthy city = true ->
  select_properties city all max w st = Returned (Some []) st.
Proof.
  intros Hmax Hsel. unfold select_properties, bind. destruct (is_true all) eqn:Hall.
  - now rewrite generate_all_none.
  - destruct Hsel as [Hsel|Hsel]; [discriminate|]. rewrite Hsel.
    now rewrite generateProperties_none.
Qed.

End ApiFacts.

(** ** The number nearest to an integer *)

Module NearestFacts.

Import Binary64 Binary64Facts JS.

(** The integer a rounded value is, from its value in units of [2^-1074]. *)
Lemma integer_value_pack q c :
  0 <= q <= 2 ^ 53 -> -1074 <= c -> integer_value (pack q c) = pack_val q c / 2 ^ 1074.
Proof.
  intros Hq Hc.
  assert (Hfin : forall m e, -1074 <= e ->
            integer_value (S754_finite false m e) = Zpos m * 2 ^ (e + 1074) / 2 ^ 1074).
  { intros m e He. cbn [integer_value cond_Zopp].
    destruct (Z_le_gt_dec 0 e) as [Hpos|Hneg].
    + rewrite Z.shiftl_mul_pow2 by lia. rewrite Z.pow_add_r by lia.
      rewrite Z.mul_assoc, Z.div_mul; [reflexivity|]. apply Z.pow_nonzero; lia.
    + rewrite Z.shiftl_div_pow2 by lia.
      replace (2 ^ 1074) with (2 ^ (- e) * 2 ^ (e + 1074)).
      2:{ rewrite <- Z.pow_add_r by lia. f_equal. lia. }
      rewrite Z.div_mul_cancel_r; [reflexivity| |]; apply Z.pow_nonzero; lia. }
  assert (Hinf : integer_value (S754_infinity false) = 2 ^ 2100 / 2 ^ 1074).
  { cbn [integer_value cond_Zopp]. change 2100 with (1026 + 1074).
    rewrite Z.pow_add_r by lia. rewrite Z.div_mul; [reflexivity|]. apply Z.pow_nonzero; lia. }
  unfold pack, pack_val, overflows, shr_fexp.
  destruct (Z.eqb_spec q 0) as [->|Hq0].
  - cbn [Zdigits2 shr_record_of_loc]. fold (fexp64 (0 + c)).
    rewrite fexp64_eq.
    destruct (Z.max (0 + c - 53) (-1074) - c) eqn:Hn; try lia; reflexivity.
  - destruct (Z.eqb_spec q (2 ^ 53)) as [->|Hq53].
    + cbn [shr_record_of_loc]. change (Zdigits2 (2 ^ 53)) with 54.
      fold (fexp64 (54 + c)). rewrite fexp64_eq.
      replace (Z.max (54 + c - 53) (-1074) - c) with 1 by lia.
      cbn [shr iter_pos shr_1 shr_m]. change (2 ^ 53) with 9007199254740992.
      cbn [shr_1 shr_m]. change (emax - prec) with 971.
      destruct (Z.leb_spec (c + 1) 971); cbn [negb]; [|exact Hinf].
      rewrite Hfin by lia. f_equal.
      replace (c + 1 + 1074) with (1 + (c + 1074)) by lia.
      rewrite Z.pow_add_r by lia. lia.
    + destruct q as [|p|p]; try lia.
      cbn [shr_record_of_loc Zdigits2]. fold (fexp64 (Zpos (digits2_pos p) + c)).
      rewrite fexp64_eq.
      assert (Hd : Zpos (digits2_pos p) <= 53).
      { pose proof (digits_bounds p) as [Hlo _].
        destruct (Z_le_gt_dec (Zpos (digits2_pos p)) 53); trivial. exfalso.
        assert (2 ^ 53 <= 2 ^ (Zpos (digits2_pos p) - 1)) by (apply Z.pow_le_mono_r; lia).
        lia. }
      destruct (Z.max (Zpos (digits2_pos p) + c - 53) (-1074) - c) eqn:Hn; try lia;
        cbn [shr shr_m]; change (emax - prec) with 971;
        destruct (Z.leb_spec c 971); cbn [negb]; try exact Hinf; apply Hfin; lia.
Qed.

(** The number for a positive integer is its value rounded once. *)
Lemma nearest_val p :
  exists M E, E <= cexp M E /\ -1074 <= E <= 0 /\ Zpos M * 2 ^ (E + 1074) = Zpos p * 2 ^ 1074 /\
    nearest (Zpos p) = SFval (R M E) / 2 ^ 1074.
Proof.
  unfold nearest. cbn [binary_normalize].
  assert (H0 : -1074 <= 0) by lia.
  destruct (binary_round_R p 0 H0) as (M & E & -> & Hc & HE & HM).
  exists M, E. split; [exact Hc|]. split; [exact HE|]. split.
  - rewrite HM. rewrite <- Z.mul_assoc, <- Z.pow_add_r by lia.
    f_equal. f_equal. lia.
  - destruct (round_aux_spec M E Hc) as (q & Hq & ->).
    destruct (round_q_bounds _ _ _ Hc Hq) as [Hb _].
    pose proof (cexp_ge M E).
    rewrite integer_value_pack, SFval_pack by lia. reflexivity.
Qed.

(** It keeps the sign and the order of the integers. *)
Lemma nearest_nonneg z : 0 <= z -> 0 <= nearest z.
Proof.
  intros Hz. destruct z as [|p|p]; try lia; [reflexivity|].
  destruct (nearest_val p) as (M & E & _ & _ & _ & ->).
  apply Z.div_pos; [apply SFval_nonneg|]. apply Z.pow_pos_nonneg; lia.
Qed.

Lemma nearest_mono a b : 0 <= a <= b -> nearest a <= nearest b.
Proof.
  intros [Ha Hab]. destruct a as [|p|p]; try lia.
  - change (nearest 0) with 0. apply nearest_nonneg. lia.
  - destruct b as [|r|r]; try lia.
    destruct (nearest_val p) as (M1 & E1 & Hc1 & HE1 & HM1 & ->).
    destruct (nearest_val r) as (M2 & E2 & Hc2 & HE2 & HM2 & ->).
    apply Z.div_le_mono; [apply Z.pow_pos_nonneg; lia|].
    apply (round_mono M1 E1 M2 E2 1074); [exact Hc1|exact Hc2|lia|lia|].
    rewrite HM1, HM2.
    apply Z.mul_le_mono_nonneg_r; [apply Z.pow_nonneg; lia|exact Hab].
Qed.

(** Up to [2^53] every integer is a number. *)
Lemma nearest_exact z : 0 <= z <= 2 ^ 53 -> nearest z = z.
Proof.
  intros Hz. destruct (Z.eq_dec z (2 ^ 53)) as [->|Hne]; [vm_compute; reflexivity|].
  destruct z as [|p|p]; try lia; [reflexivity|].
  unfold nearest. cbn [binary_normalize]. unfold binary_round, shl_align.
  fold (fexp64 (Zpos (digits2_pos p) + 0)). rewrite fexp64_eq.
  assert (Hd : Zpos (digits2_pos p) <= 53).
  { pose proof (digits_bounds p) as [Hlo _].
    destruct (Z_le_gt_dec (Zpos (digits2_pos p)) 53); trivial. exfalso.
    assert (2 ^ 53 <= 2 ^ (Zpos (digits2_pos p) - 1)) by (apply Z.pow_le_mono_r; lia).
    lia. }
  destruct (Z.max (Zpos (digits2_pos p) + 0 - 53) (-1074) - 0) as [|s|s] eqn:Hs; try lia.
  - fold (R p 0). rewrite round_exact; [reflexivity|].
    unfold bounded, canonical_mantissa. fold (fexp64 (Zpos (digits2_pos p) + 0)).
    rewrite fexp64_eq. apply andb_true_iff. split; [apply Z.eqb_eq; lia|reflexivity].
  - destruct (pos_iter_xO p s) as [Hv Hdig].
    fold (R (Pos.iter xO p s) (Z.max (Zpos (digits2_pos p) + 0 - 53) (-1074))).
    rewrite round_exact.
    + cbn [integer_value cond_Zopp]. rewrite Hv.
      rewrite Z.shiftl_div_pow2 by lia.
      replace (- Z.max (Zpos (digits2_pos p) + 0 - 53) (-1074)) with (Zpos s) by lia.
      apply Z.div_mul. apply Z.pow_nonzero; lia.
    + unfold bounded, canonical_mantissa.
      fold (fexp64 (Zpos (digits2_pos (Pos.iter xO p s)) + Z.max (Zpos (digits2_pos p) + 0 - 53) (-1074))).
      rewrite fexp64_eq, Hdig, Pos2Z.inj_add. apply andb_true_iff. split.
      * apply Z.eqb_eq. lia.
      * apply Z.leb_le. change (emax - prec) with 971. lia.
Qed.

End NearestFacts.

(** ** Reading back a decimal *)

Module ParseFacts.

Import JS Synth.

Lemma digit_value_char d : 0 <= d < 10 -> digit_value (digit_char d) = Some d.
Proof.
  intros Hd.
  assert (H : d = 0 \/ d = 1 \/ d = 2 \/ d = 3 \/ d = 4 \/ d = 5 \/ d = 6 \/ d = 7 \/
              d = 8 \/ d = 9) by lia.
  repeat (destruct H as [-> | H]; [reflexivity|]); subst d; reflexivity.
Qed.

Lemma is_digit_char d : 0 <= d < 10 -> is_digit (digit_char d) = true.
Proof.
  intros Hd.
  assert (H : d = 0 \/ d = 1 \/ d = 2 \/ d = 3 \/ d = 4 \/ d = 5 \/ d = 6 \/ d = 7 \/
              d = 8 \/ d = 9) by lia.
  repeat (destruct H as [-> | H]; [reflexivity|]); subst d; reflexivity.
Qed.

(** Reading the digits written in front of [acc] leaves [n] as the value
    read so far. *)
Lemma parse_digits_fuel fuel n acc :
  0 <= n -> Z.log2 n <= Z.of_nat fuel ->
  parse_digits 10 (digits_fuel fuel n acc) None = parse_digits 10 acc (Some n).
Proof.
  revert n acc. induction fuel as [|fuel IH]; intros n acc Hn Hlog.
  - assert (Hsmall : n < 2).
    { destruct (Z_lt_le_dec n 2) as [|Hge]; trivial.
      pose proof (Z.log2_le_mono 2 n Hge) as H. change (Z.log2 2) with 1 in H. lia. }
    cbn [digits_fuel parse_digits].
    rewrite Z.mod_small by lia. rewrite digit_value_char by lia.
    destruct (Z.ltb_spec n 10); [reflexivity|lia].
  - cbn [digits_fuel]. destruct (Z.ltb_spec n 10) as [Hlt|Hge].
    + cbn [parse_digits]. rewrite Z.mod_small by lia. rewrite digit_value_char by lia.
      destruct (Z.ltb_spec n 10); [reflexivity|lia].
    + assert (Hq : 0 < n / 10) by (apply Z.div_str_pos; lia).
      rewrite IH.
      * cbn [parse_digits].
        rewrite digit_value_char by (apply Z.mod_pos_bound; lia).
        destruct (Z.ltb_spec (n mod 10) 10) as [_|Hbad].
        -- f_equal. f_equal. rewrite (Z.div_mod n 10) at 3 by lia. lia.
        -- pose proof (Z.mod_pos_bound n 10). lia.
      * lia.
      * assert (Hdouble : Z.log2 (2 * (n / 10)) = Z.succ (Z.log2 (n / 10)))
          by (apply Z.log2_double; exact Hq).
        assert (Hle : 2 * (n / 10) <= n).
        { pose proof (Z.mul_div_le n 10). lia. }
        apply Z.log2_le_mono in Hle. lia.
Qed.

Lemma digits_fuel_shape fuel n acc :
  all_digits acc = true ->
  all_digits (digits_fuel fuel n acc) = true /\ digits_fuel fuel n acc <> "".
Proof.
  revert n acc. induction fuel as [|fuel IH]; intros n acc Hacc.
  - cbn [digits_fuel all_digits].
    rewrite is_digit_char by (apply Z.mod_pos_bound; lia). split; [exact Hacc|discriminate].
  - cbn [digits_fuel].
    assert (Hstep : all_digits (String (digit_char (n mod 10)) acc) = true).
    { cbn [all_digits]. now rewrite is_digit_char by (apply Z.mod_pos_bound; lia). }
    destruct (n <? 10); [split; [exact Hstep|discriminate]|]. now apply IH.
Qed.

(** A digit is not white space, not a sign, and after a leading zero it is
    not the mark of a hexadecimal number. *)
Lemma parseInt_digits_only s :
  all_digits s = true ->
  parseInt s = option_map (fun v => nearest (1 * v)) (parse_digits 10 s None).
Proof.
  intros Hs. destruct s as [|c s]; [reflexivity|].
  cbn [all_digits] in Hs. apply andb_true_iff in Hs. destruct Hs as [Hc Hs].
  destruct s as [|c' s].
  - destruct c as [[] [] [] [] [] [] [] []]; try discriminate Hc; reflexivity.
  - cbn [all_digits] in Hs. apply andb_true_iff in Hs. destruct Hs as [Hc' _].
    destruct c as [[] [] [] [] [] [] [] []]; try discriminate Hc; try reflexivity.
    destruct c' as [[] [] [] [] [] [] [] []]; try discriminate Hc'; reflexivity.
Qed.

(** [parseInt] reads what [digits] writes, as a number. *)
Lemma parseInt_digits n : 0 <= n -> parseInt (digits n) = Some (nearest n).
Proof.
  intros Hn. unfold digits.
  destruct (digits_fuel_shape (Z.to_nat (Z.log2 n)) n "" eq_refl) as [Hall _].
  rewrite parseInt_digits_only by exact Hall.
  rewrite parse_digits_fuel; [|exact Hn|pose proof (Z.log2_nonneg n); lia].
  cbn [parse_digits option_map]. f_equal. f_equal. lia.
Qed.

End ParseFacts.

(** * The claims of the specification *)

Module Claims.

Import Binary64 Binary64Facts JS Effects EffectsFacts Synth SynthFacts LoopFacts.
Import Api JSFacts ApiFacts ParseFacts Samples.

Lemma sample_world_fair : fair sample_world.
Proof.
  intros i. unfold sample_world. cbn [random_seq].
  pose proof (Nat.mod_upper_bound i 7 ltac:(lia)) as Hi.
  destruct (i mod 7)%nat as [|[|[|[|[|[|[|k]]]]]]]; try reflexivity. lia.
Qed.

(** C1.  For every city and every non-negative count, [generateProperties]
    returns (it does not throw) exactly [count] records, each with the city it
    was given and with state FL.  The draws are those [Math.random] promises:
    numbers of the interval [0, 1). *)
Theorem generateProperties_count (c : string) (count : Z) (w : World) (st : Store) :
  fair w -> 0 <= count ->
  exists props st',
    generateProperties c (Some count) w st = Returned props st' /\
    array_length props = count /\
    Forall (located c) props.
Proof.
  intros Hw Hcount.
  destruct (returns_inv _ _ _ _ (generateProperties_returns c (Some count) w st Hw))
    as (props & st' & Heq & Hlen & Hall).
  exists props, st'. split; [exact Heq|]. split.
  - unfold array_length. rewrite Hlen. cbn [requested]. lia.
  - eapply Forall_impl; [|exact Hall]. intros p (Hloc & _). exact Hloc.
Qed.

Lemma generateProperties_count_sample :
  exists props st',
    generateProperties "Orlando" (Some 3) sample_world fresh_store = Returned props st' /\
    array_length props = 3 /\
    Forall (located "Orlando") props.
Proof.
  apply (generateProperties_count "Orlando" 3 sample_world fresh_store);
    [exact sample_world_fair|lia].
Defined.

(** C3.  Every record [generateProperties] produces is within the field
    ranges: bedrooms an integer from 2 to 5, bathrooms from 1 to 4 in steps of
    one half, sqft from 1000 to 3500, yearBuilt from 1980 to 2023, zipCode a
    string of five digits that writes a number from 32700 to 33699, and
    propertyType one of the four fixed values. *)
Theorem generated_records_in_range (c : string) (count : option Z) (w : World) (st : Store) :
  fair w ->
  exists props st',
    generateProperties c count w st = Returned props st' /\
    Forall in_range props.
Proof.
  intros Hw.
  destruct (returns_inv _ _ _ _ (generateProperties_returns c count w st Hw))
    as (props & st' & Heq & _ & Hall).
  exists props, st'. split; [exact Heq|].
  eapply Forall_impl; [|exact Hall]. intros p (_ & Hrange & _). exact Hrange.
Qed.

Lemma generated_records_in_range_sample :
  exists props st',
    generateProperties "Sanford" None sample_world fresh_store = Returned props st' /\
    Forall in_range props.
Proof.
  apply (generated_records_in_range "Sanford" None sample_world fresh_store).
  exact sample_world_fair.
Defined.

(** An empty city parameter selects nothing either. *)
Lemma empty_city_is_usage_error (limit all format : option string) (w : World) (st : Store) :
  is_true all = false ->
  handler (GET (Some "") limit all format) w st = (usage_response, st).
Proof.
  intros Hall. apply (handler_selected (Some "") limit all format w st None st).
  unfold select_properties. rewrite Hall. reflexivity.
Qed.


(** The JSON envelope of a successful request: the count is the length of
    the properties, and the city label is the city parameter when there is
    one, and "all" otherwise. *)
Lemma json_envelope (city limit all format : option string) (w : World) (st : Store) :
  fair w -> is_true all = true \/ truthy city = true ->
  String.eqb (default_to format "json") "csv" = false ->
  exists props st',
    select_properties city all (maxProperties limit) w st = Returned (Some props) st' /\
    handler (GET city limit all format) w st =
    ({| status := 200;
        headers := cors_headers;
        body := Success true (array_length props) (or_else city "all") props |}, st').
Proof.
  intros Hw Hsel Hfmt.
  destruct (select_some city all (maxProperties limit) w st Hw Hsel) as (props & st' & Heq).
  exists props, st'. split; [exact Heq|].
  rewrite (handler_selected _ _ _ _ _ _ _ _ Heq). unfold render. now rewrite Hfmt.
Qed.

(** C7, at the request all=true&city=Tampa&limit=1.  The adapter is in
    all-cities mode: it generates one record for each of the fifteen roster
    cities.  The envelope it sends has success true and count 15, the length
    of the properties, but its city label is "Tampa", the city parameter, and
    not "all". *)
Theorem all_cities_label_follows_city_parameter :
  exists props st',
    handler (GET (Some "Tampa") (Some "1") (Some "true") None) sample_world fresh_store =
    ({| status := 200;
        headers := cors_headers;
        body := Success true 15 "Tampa" props |}, st') /\
    map Synth.city props = CITIES.
Proof.
  destruct (select_all (Some "Tampa") 1 sample_world fresh_store sample_world_fair)
    as (props & st' & segs & Hsel & Hprops & Hsegs).
  exists props, st'. split.
  - rewrite (handler_selected (Some "Tampa") (Some "1") (Some "true") None _ _ _ _ Hsel).
    unfold render, json_response. cbn [default_to or_else String.eqb Ascii.eqb Bool.eqb].
    repeat f_equal. subst props. unfold array_length.
    now rewrite (segmented_length _ _ _ Hsegs).
  - subst props. now rewrite (segmented_cities _ _ _ Hsegs).
Qed.

(** C9.  A limit that parses to 0 is treated as an absent limit: the count
    per city is the default 10, the response is the one the same request
    without a limit would get, and so a single-city request gets 10 records
    and an all-cities request 150; no request gets zero records. *)
Theorem zero_limit_means_default (limit : string) :
  parseInt limit = Some 0 ->
  maxProperties (Some limit) = 10 /\
  (forall city all format w st,
      handler (GET city (Some limit) all format) w st =
      handler (GET city None all format) w st) /\
  (forall c s w st,
      fair w ->
      exists props st',
        handler (GET (Some (String c s)) (Some limit) None None) w st =
        ({| status := 200; headers := cors_headers;
            body := Success true 10 (String c s) props |}, st') /\
        array_length props = 10) /\
  (forall w st,
      fair w ->
      exists props st',
        handler (GET None (Some limit) (Some "true") None) w st =
        ({| status := 200; headers := cors_headers;
            body := Success true 150 "all" props |}, st') /\
        array_length props = 150).
Proof.
  intros Hzero.
  assert (Hmax : maxProperties (Some limit) = 10).
  { unfold maxProperties. cbn [default_to]. now rewrite Hzero. }
  split; [exact Hmax|]. split.
  { intros city all format w st. rewrite !handler_GET. unfold serve.
    cbn [q_city q_limit q_all q_format]. now rewrite Hmax. }
  split.
  - intros c s w st Hw.
    destruct (select_one c s None 10 w st Hw eq_refl) as (props & st' & Hsel & Hlen & _).
    assert (Hn : array_length props = 10) by (unfold array_length; lia).
    exists props, st'. split; [|exact Hn].
    rewrite <- Hmax in Hsel.
    rewrite (handler_selected _ _ _ None _ _ _ _ Hsel).
    unfold render, json_response. cbn [default_to or_else String.eqb Ascii.eqb Bool.eqb].
    now rewrite Hn.
  - intros w st Hw.
    destruct (select_all None 10 w st Hw) as (props & st' & segs & Hsel & Hprops & Hsegs).
    assert (Hn : array_length props = 150).
    { subst props. unfold array_length. now rewrite (segmented_length _ _ _ Hsegs). }
    exists props, st'. split; [|exact Hn].
    rewrite <- Hmax in Hsel.
    rewrite (handler_selected _ _ _ None _ _ _ _ Hsel).
    unfold render, json_response. cbn [default_to or_else String.eqb Ascii.eqb Bool.eqb].
    now rewrite Hn.
Qed.

Lemma zero_limit_means_default_sample :
  maxProperties (Some "0") = 10 /\
  (forall city all format w st,
      handler (GET city (Some "0") all format) w st =
      handler (GET city None all format) w st) /\
  (forall c s w st,
      fair w ->
      exists props st',
        handler (GET (Some (String c s)) (Some "0") None None) w st =
        ({| status := 200; headers := cors_headers;
            body := Success true 10 (String c s) props |}, st') /\
        array_length props = 10) /\
  (forall w st,
      fair w ->
      exists props st',
        handler (GET None (Some "0") (Some "true") None) w st =
        ({| status := 200; headers := cors_headers;
            body := Success true 150 "all" props |}, st') /\
        array_length props = 150).
Proof.
  apply (zero_limit_means_default "0"). reflexivity.
Defined.

(** C10.  For every city and every negative count [generateProperties]
    returns the empty sequence: the loop body never runs, nothing is drawn and
    nothing is thrown.  So a request whose limit parses to a negative number,
    limit=-5 for one, with a city or with all=true, is answered with status
    200, count 0 and no properties, not with an error. *)
Theorem negative_count_is_empty :
  (forall c count w st,
      count < 0 -> generateProperties c (Some count) w st = Returned [] st) /\
  parseInt "-5" = Some (-5) /\
  (forall city limit all n w st,
      parseInt limit = Some n -> n < 0 ->
      is_true all = true \/ truthy city = true ->
      handler (GET city (Some limit) all None) w st =
      ({| status := 200; headers := cors_headers;
          body := Success true 0 (or_else city "all") [] |}, st)).
Proof.
  split.
  { intros c count w st Hneg. apply generateProperties_none. lia. }
  split; [reflexivity|].
  intros city limit all n w st Hparse Hneg Hsel.
  assert (Hmax : maxProperties (Some limit) = n).
  { unfold maxProperties. cbn [default_to]. rewrite Hparse.
    destruct (Z.eqb_spec n 0); [lia|reflexivity]. }
  assert (Heq : select_properties city all (maxProperties (Some limit)) w st
                = Returned (Some []) st).
  { rewrite Hmax. apply select_none; [lia|exact Hsel]. }
  rewrite (handler_selected _ _ _ None _ _ _ _ Heq). reflexivity.
Qed.

Lemma negative_count_is_empty_sample :
  generateProperties "Orlando" (Some (-5)) sample_world fresh_store = Returned [] fresh_store /\
  handler (GET (Some "Orlando") (Some "-5") None None) sample_world fresh_store =
  ({| status := 200; headers := cors_headers;
      body := Success true 0 "Orlando" [] |}, fresh_store).
Proof.
  destruct negative_count_is_empty as (Hgen & Hparse & Hhttp).
  split.
  - apply Hgen. lia.
  - apply (Hhttp (Some "Orlando") "-5" None (-5)); [exact Hparse|lia|right; reflexivity].
Defined.

End Claims.

(** * Beyond the claims *)

(** ** Fixed notation *)

Module FixedFacts.

Import Binary64 Binary64Facts JS Effects EffectsFacts Synth SynthFacts SynthDetails.

Lemma round_half_up_val m e f :
  -1074 <= e -> 0 <= f -> round_half_up m e f = fixed_value (Zpos m * 2 ^ (e + 1074)) f.
Proof.
  intros He Hf. unfold round_half_up, fixed_value.
  assert (HP : 0 < 2 ^ 1074) by (apply Z.pow_pos_nonneg; lia).
  assert (Hten : 0 < 10 ^ f) by (apply Z.pow_pos_nonneg; lia).
  destruct (Z.leb_spec 0 e) as [Hpos|Hneg].
  - rewrite Z.pow_add_r by lia. remember (2 ^ 1074) as P. remember (2 ^ e) as Q.
    remember (10 ^ f) as T.
    apply (Z.div_unique _ (2 * P) _ P); [lia|ring].
  - assert (Hsplit : 2 ^ 1074 = 2 ^ (e + 1074) * 2 ^ (- e)).
    { rewrite <- Z.pow_add_r by lia. f_equal. lia. }
    rewrite Hsplit.
    assert (HA : 0 < 2 ^ (e + 1074)) by (apply Z.pow_pos_nonneg; lia).
    assert (HB : 0 < 2 ^ (- e)) by (apply Z.pow_pos_nonneg; lia).
    remember (2 ^ (e + 1074)) as A. remember (2 ^ (- e)) as B. remember (10 ^ f) as T.
    replace (2 * (Z.pos m * A) * T + A * B) with (A * (2 * Z.pos m * T + B)) by ring.
    replace (2 * (A * B)) with (A * (2 * B)) by ring.
    rewrite Z.div_mul_cancel_l by lia. reflexivity.
Qed.

Lemma fixed_value_mono V1 V2 f :
  0 <= f -> V1 <= V2 -> fixed_value V1 f <= fixed_value V2 f.
Proof.
  intros Hf Hle. unfold fixed_value.
  assert (HP : 0 < 2 ^ 1074) by (apply Z.pow_pos_nonneg; lia).
  assert (Hten : 0 < 10 ^ f) by (apply Z.pow_pos_nonneg; lia).
  remember (2 ^ 1074) as P. remember (10 ^ f) as T.
  apply Z.div_le_mono; [lia|]. nia.
Qed.

Lemma lt_pow10_21 m e :
  -1074 <= e -> Zpos m * 2 ^ (e + 1074) < fixed_limit -> lt_pow10 m e 21 = true.
Proof.
  intros He Hlt. unfold lt_pow10, fixed_limit in *. apply Z.ltb_lt.
  change (Z.max 0 (- 21)) with 0. change (Z.max 0 21) with 21.
  rewrite Z.pow_0_r, Z.mul_1_r.
  destruct (Z_le_gt_dec 0 e) as [Hpos|Hneg].
  - rewrite (Z.max_r 0 e), (Z.max_l 0 (- e)) by lia. rewrite Z.pow_0_r, Z.mul_1_r.
    rewrite Z.pow_add_r in Hlt by lia.
    assert (HP : 0 < 2 ^ 1074) by (apply Z.pow_pos_nonneg; lia).
    remember (2 ^ 1074) as P. remember (2 ^ e) as Q. remember (10 ^ 21) as T. nia.
  - rewrite (Z.max_l 0 e), (Z.max_r 0 (- e)) by lia. rewrite Z.pow_0_r, Z.mul_1_r.
    assert (Hsplit : 2 ^ 1074 = 2 ^ (- e) * 2 ^ (e + 1074)).
    { rewrite <- Z.pow_add_r by lia. f_equal. lia. }
    rewrite Hsplit in Hlt.
    assert (HA : 0 < 2 ^ (e + 1074)) by (apply Z.pow_pos_nonneg; lia).
    remember (2 ^ (e + 1074)) as A. remember (2 ^ (- e)) as B. remember (10 ^ 21) as T. nia.
Qed.

Lemma toFixed_positive x f :
  fin x -> 0 < val x -> val x < fixed_limit -> 0 <= f ->
  toFixed x f = fixed_digits (fixed_value (val x) f) f.
Proof.
  unfold fin, val, toFixed. intros Hfin Hpos Hlim Hf. pose proof (Prim2SF_valid x) as V.
  destruct (Prim2SF x) as [s|s| |[|] m e]; try discriminate Hfin.
  - cbn [SFval] in Hpos. lia.
  - cbn [valid_binary] in V. destruct (bounded_inv _ _ V) as (He & _).
    cbn [SFval] in *. rewrite (lt_pow10_21 m e) by (lia || assumption).
    rewrite round_half_up_val by lia. reflexivity.
Qed.

Lemma toFixed_negative x f :
  fin (- x)%float -> 0 < val (- x)%float -> val (- x)%float < fixed_limit -> 0 <= f ->
  toFixed x f = "-" ++ fixed_digits (fixed_value (val (- x)%float) f) f.
Proof.
  unfold fin, val, toFixed. rewrite opp_spec. intros Hfin Hpos Hlim Hf.
  pose proof (Prim2SF_valid x) as V.
  destruct (Prim2SF x) as [s|s| |[|] m e]; try discriminate Hfin.
  - cbn [SFopp SFval] in Hpos. lia.
  - cbn [valid_binary] in V. destruct (bounded_inv _ _ V) as (He & _).
    cbn [SFopp negb SFval] in *. rewrite (lt_pow10_21 m e) by (lia || assumption).
    rewrite round_half_up_val by lia. reflexivity.
Qed.

End FixedFacts.

(** ** Adding to a negative number *)

Module NegFacts.

Import Binary64 Binary64Facts JS.

Lemma binary_round_aux_opp m e l :
  binary_round_aux prec emax true m e l = SFopp (binary_round_aux prec emax false m e l).
Proof.
  unfold binary_round_aux.
  destruct (shr_fexp prec emax m e l) as [mrs e'].
  destruct (shr_fexp prec emax _ e' loc_Exact) as [mrs' e''].
  destruct (shr_m mrs') as [|q|q]; try reflexivity.
  destruct (e'' <=? emax - prec); reflexivity.
Qed.

Lemma binary_round_opp m e :
  binary_round prec emax true m e = SFopp (binary_round prec emax false m e).
Proof.
  unfold binary_round. destruct (shl_align m e _) as [mz ez].
  apply binary_round_aux_opp.
Qed.

(** A negative number plus a smaller non-negative one: the opposite of the
    rounded difference of the magnitudes. *)
Lemma SFadd_neg_cases mc ec x :
  bounded prec emax mc ec = true ->
  nonneg_fin x = true -> SpecFloat.valid_binary prec emax x = true ->
  SFval x < Zpos mc * 2 ^ (ec + 1074) ->
  exists M E, SF64add (S754_finite true mc ec) x = SFopp (R M E) /\ E <= cexp M E /\
              0 <= E + 1074 /\
              Zpos M * 2 ^ (E + 1074) = Zpos mc * 2 ^ (ec + 1074) - SFval x.
Proof.
  intros Vc Hx Vx Hlt. destruct (bounded_inv _ _ Vc) as (Hec & _).
  destruct x as [sx|[|]| |[|] mx ex]; try discriminate; cbn [valid_binary] in *.
  - exists mc, ec. cbn [SF64add SFadd]. rewrite round_exact by assumption.
    rewrite (bounded_cexp _ _ Vc). cbn [SFopp negb SFval]. repeat split; lia.
  - destruct (bounded_inv _ _ Vx) as (Hex & _).
    cbn [SF64add SFadd cond_Zopp].
    set (ez := Z.min ec ex).
    assert (Hac : Zpos (fst (shl_align mc ec ez)) = Zpos mc * 2 ^ (ec - ez)).
    { unfold shl_align. destruct (ez - ec) as [|p|p] eqn:Hs; cbn [fst].
      - replace (ec - ez) with 0 by lia. lia.
      - unfold ez in Hs. lia.
      - destruct (pos_iter_xO mc p) as [-> _]. f_equal. f_equal. lia. }
    assert (Hax : Zpos (fst (shl_align mx ex ez)) = Zpos mx * 2 ^ (ex - ez)).
    { unfold shl_align. destruct (ez - ex) as [|p|p] eqn:Hs; cbn [fst].
      - replace (ex - ez) with 0 by lia. lia.
      - unfold ez in Hs. lia.
      - destruct (pos_iter_xO mx p) as [-> _]. f_equal. f_equal. lia. }
    set (ac := fst (shl_align mc ec ez)) in *. set (ax := fst (shl_align mx ex ez)) in *.
    assert (Hez : -1074 <= ez) by (unfold ez; lia).
    assert (Hsc : Zpos mc * 2 ^ (ec + 1074) = Zpos ac * 2 ^ (ez + 1074)).
    { rewrite Hac, <- Z.mul_assoc, <- Z.pow_add_r by (unfold ez; lia).
      f_equal. f_equal. lia. }
    assert (Hsx : Zpos mx * 2 ^ (ex + 1074) = Zpos ax * 2 ^ (ez + 1074)).
    { rewrite Hax, <- Z.mul_assoc, <- Z.pow_add_r by (unfold ez; lia).
      f_equal. f_equal. lia. }
    cbn [SFval] in Hlt. rewrite Hsc, Hsx in Hlt.
    assert (Hpow : 0 < 2 ^ (ez + 1074)) by (apply Z.pow_pos_nonneg; lia).
    assert (Hlt' : (ax < ac)%positive).
    { apply Z.mul_lt_mono_pos_r in Hlt; [lia|exact Hpow]. }
    change (- Zpos ac + Zpos ax) with (Z.pos_sub ax ac).
    rewrite (Z.pos_sub_lt ax ac Hlt'). cbn [binary_normalize].
    rewrite binary_round_opp.
    destruct (binary_round_R (ac - ax) ez Hez) as (M' & E' & -> & Hc & HE & HM).
    exists M', E'. split; [reflexivity|]. split; [exact Hc|]. split; [lia|].
    cbn [SFval]. rewrite Hsc, Hsx, HM, Pos2Z.inj_sub by exact Hlt'.
    rewrite <- Z.mul_assoc, <- Z.pow_add_r by lia.
    replace (ez - E' + (E' + 1074)) with (ez + 1074) by lia. ring.
Qed.

(** The magnitude of [c + x] for a negative [c] decreases as [x] grows
    towards the magnitude of [c], rounding included. *)
Lemma neg_add_mono c a b :
  fin (- c)%float -> 0 < val (- c)%float -> fin a -> fin b ->
  val a <= val b -> val b < val (- c)%float ->
  val (- (c + b))%float <= val (- (c + a))%float /\
  nonneg (- (c + a))%float /\ nonneg (- (c + b))%float.
Proof.
  unfold fin, val, nonneg. rewrite !opp_spec, !add_spec.
  intros Hc Hpos Ha Hb Hle Hlt.
  pose proof (Prim2SF_valid c) as Vc. pose proof (Prim2SF_valid a) as Va.
  pose proof (Prim2SF_valid b) as Vb.
  destruct (Prim2SF c) as [s|s| |[|] mc ec]; try discriminate Hc.
  { cbn [SFopp SFval] in Hpos. lia. }
  cbn [SFopp negb SFval valid_binary] in *.
  destruct (SFadd_neg_cases mc ec _ Vc Ha Va ltac:(lia)) as (Ma & Ea & Hea & Hca & HKa & HWa).
  destruct (SFadd_neg_cases mc ec _ Vc Hb Vb Hlt) as (Mb & Eb & Heb & Hcb & HKb & HWb).
  unfold SF64add in *. rewrite Hea, Heb.
  assert (Hinv : forall y, nonneg_ext y = true -> SFopp (SFopp y) = y).
  { intros [s|s| |s m e]; cbn; intros; try discriminate; now rewrite negb_involutive. }
  rewrite !Hinv by now apply R_nonneg.
  split; [apply (round_mono Mb Eb Ma Ea 1074); try assumption; lia|].
  split; now apply R_nonneg.
Qed.

End NegFacts.

(** ** The coordinates *)

Module CoordFacts.

Import Binary64 Binary64Facts JS Effects EffectsFacts Synth SynthFacts SynthDetails.
Import FixedFacts NegFacts.

Lemma scaled_random r a :
  unit_interval r = true -> fin a -> fin (1 * a)%float ->
  fin (r * a)%float /\ val (r * a)%float <= val (1 * a)%float.
Proof.
  intros Hr Ha H1a. destruct (unit_interval_fin r Hr) as [Hfr Hle].
  assert (Hf1 : fin 1%float) by reflexivity.
  assert (Hr1 : val r <= val 1%float).
  { assert (val pred1 <= val 1%float) by (vm_compute; discriminate). lia. }
  pose proof (mul_mono r 1 a Hfr Hf1 Ha Hr1) as Hm1.
  split; [|exact Hm1].
  apply (fin_le _ (1 * a)%float); trivial. now apply mul_nonneg.
Qed.

Lemma latitude_boxed r :
  unit_interval r = true ->
  exists n, 28500000 <= n <= 29000000 /\ toFixed (28.5 + r * 0.5) 6 = fixed_digits n 6.
Proof.
  intros Hr.
  destruct (scaled_random r 0.5 Hr eq_refl eq_refl) as [Hf Hle].
  assert (Hf0 : fin (0 * 0.5)%float) by reflexivity.
  assert (Hc : fin 28.5%float) by reflexivity.
  pose proof (add_mono _ _ 28.5 Hf0 Hf Hc (val_nonneg _)) as Hlo.
  assert (Hf1 : fin (1 * 0.5)%float) by reflexivity.
  pose proof (add_mono _ _ 28.5 Hf Hf1 Hc Hle) as Hhi.
  set (x := (28.5 + r * 0.5)%float) in *.
  assert (Hfx : fin x).
  { apply (fin_le _ (28.5 + 1 * 0.5)%float); [now apply add_nonneg|reflexivity|exact Hhi]. }
  assert (Hpos : 0 < val (28.5 + 0 * 0.5)%float) by (vm_compute; reflexivity).
  assert (Hlim : val (28.5 + 1 * 0.5)%float < fixed_limit) by (vm_compute; reflexivity).
  exists (fixed_value (val x) 6). split.
  - split.
    + change 28500000 with (fixed_value (val (28.5 + 0 * 0.5)%float) 6).
      apply fixed_value_mono; [lia|exact Hlo].
    + change 29000000 with (fixed_value (val (28.5 + 1 * 0.5)%float) 6).
      apply fixed_value_mono; [lia|exact Hhi].
  - apply toFixed_positive; [exact Hfx| | |lia].
    + eapply Z.lt_le_trans; [exact Hpos|exact Hlo].
    + eapply Z.le_lt_trans; [exact Hhi|exact Hlim].
Qed.

Lemma longitude_boxed r :
  unit_interval r = true ->
  exists n, 80900000 <= n <= 81400000 /\
            toFixed (-81.4 + r * 0.5) 6 = "-" ++ fixed_digits n 6.
Proof.
  intros Hr.
  destruct (scaled_random r 0.5 Hr eq_refl eq_refl) as [Hf Hle].
  assert (Hf0 : fin (0 * 0.5)%float) by reflexivity.
  assert (Hc : fin (- -81.4)%float) by reflexivity.
  assert (Hcpos : 0 < val (- -81.4)%float) by (vm_compute; reflexivity).
  assert (Hsmall : val (1 * 0.5)%float < val (- -81.4)%float) by (vm_compute; reflexivity).
  destruct (neg_add_mono (-81.4) _ _ Hc Hcpos Hf0 Hf (val_nonneg _) ltac:(eapply Z.le_lt_trans; [exact Hle|exact Hsmall]))
    as (Hhi & Hn0 & Hnr).
  assert (Hf1 : fin (1 * 0.5)%float) by reflexivity.
  destruct (neg_add_mono (-81.4) _ (1 * 0.5)%float Hc Hcpos Hf Hf1 Hle Hsmall)
    as (Hlo & _ & _).
  set (x := (-81.4 + r * 0.5)%float) in *.
  assert (Hpos : 0 < val (- (-81.4 + 1 * 0.5))%float) by (vm_compute; reflexivity).
  assert (Hlim : val (- (-81.4 + 0 * 0.5))%float < fixed_limit) by (vm_compute; reflexivity).
  assert (Hfx : fin (- x)%float).
  { apply (fin_le _ (- (-81.4 + 0 * 0.5))%float); [exact Hnr|reflexivity|exact Hhi]. }
  exists (fixed_value (val (- x)%float) 6). split.
  - split.
    + change 80900000 with (fixed_value (val (- (-81.4 + 1 * 0.5))%float) 6).
      apply fixed_value_mono; [lia|exact Hlo].
    + change 81400000 with (fixed_value (val (- (-81.4 + 0 * 0.5))%float) 6).
      apply fixed_value_mono; [lia|exact Hhi].
  - apply toFixed_negative; [exact Hfx| | |lia].
    + eapply Z.lt_le_trans; [exact Hpos|exact Hlo].
    + eapply Z.le_lt_trans; [exact Hhi|exact Hlim].
Qed.

End CoordFacts.

(** ** Dividing is monotone *)

Module DivisionFacts.
Import Binary64 Binary64Facts Division.

Lemma quotient_start N D :
  0 <= N -> 0 < D ->
  quotient_inv N D 0 (shr_record_of_loc (N / D) (new_location D (N mod D))).
Proof.
  intros HN HD. pose proof (Z.mod_pos_bound N D HD) as Hr.
  pose proof (Z.div_mod N D ltac:(lia)) as Hdm.
  assert (Hq : 0 <= N / D) by (apply Z.div_pos; lia).
  exists (N mod D). rewrite Z.pow_0_r, Z.mul_1_l.
  assert (Hshape : forall l, shr_m (shr_record_of_loc (N / D) l) = N / D).
  { intros [|[]]; reflexivity. }
  rewrite Hshape. split; [lia|]. split; [lia|]. split; [exact Hq|].
  unfold new_location, new_location_even, new_location_odd.
  destruct (Z.even D) eqn:Hev.
  - destruct (Z.eqb_spec (N mod D) 0) as [E0|E0].
    + cbn [shr_record_of_loc shr_r shr_s]. split; split; intros; try discriminate; lia.
    + destruct (Z.compare_spec (2 * (N mod D)) D); cbn [shr_record_of_loc shr_r shr_s];
        split; split; intros; try discriminate; try reflexivity; lia.
  - assert (Hodd : 2 * (N mod D) <> D).
    { intros E. rewrite <- E, Z.even_mul in Hev. discriminate. }
    destruct (Z.eqb_spec (N mod D) 0) as [E0|E0].
    + cbn [shr_record_of_loc shr_r shr_s]. split; split; intros; try discriminate; lia.
    + destruct (Z.compare_spec (2 * (N mod D) + 1) D); cbn [shr_record_of_loc shr_r shr_s];
        split; split; intros; try discriminate; try reflexivity; lia.
Qed.

Lemma quotient_shr_1 N D k mrs :
  0 <= k -> 0 < D -> quotient_inv N D k mrs -> quotient_inv N D (k + 1) (shr_1 mrs).
Proof.
  intros Hk HD (rem & HN & Hrem & Hm & Hr & Hs).
  destruct mrs as [m r s]; cbn [shr_m shr_r shr_s] in *.
  assert (Hp : 0 < 2 ^ k) by (apply Z.pow_pos_nonneg; lia).
  assert (HU : 0 < 2 ^ k * D) by lia.
  assert (Hpk : 2 ^ (k + 1) * D = 2 * (2 ^ k * D)) by (rewrite Z.pow_add_r by lia; ring).
  remember (2 ^ k * D) as U eqn:EU.
  assert (Hrs : orb r s = true <-> rem <> 0).
  { rewrite orb_true_iff, Hr, Hs. split.
    - intros [H|[H _]]; lia.
    - intros Hne. destruct (Z.eq_dec (2 * rem) U); [left; lia|right; lia]. }
  assert (Hgoal : forall m' (b : bool), m = 2 * m' + (if b then 1 else 0) -> 0 <= m' ->
     quotient_inv N D (k + 1) (Build_shr_record m' b (orb r s))).
  { intros m' b Hm' Hm0. exists (rem + (if b then U else 0)).
    cbn [shr_m shr_r shr_s]. rewrite Hpk.
    split; [destruct b; nia|]. split; [destruct b; lia|]. split; [exact Hm0|].
    split.
    - destruct b; split; intros; try discriminate; try reflexivity; lia.
    - rewrite Hrs. destruct b; split; intros; lia. }
  unfold shr_1. destruct m as [|[p|p|]|p]; try lia.
  - apply (Hgoal 0 false); lia.
  - apply (Hgoal (Zpos p) true); lia.
  - apply (Hgoal (Zpos p) false); lia.
  - apply (Hgoal 0 true); lia.
Qed.

Lemma quotient_iter N D n mrs k :
  0 <= k -> 0 < D -> quotient_inv N D k mrs ->
  quotient_inv N D (k + Z.of_nat n) (Nat.iter n shr_1 mrs).
Proof.
  intros Hk HD H. induction n.
  - simpl. now rewrite Z.add_0_r.
  - rewrite Nat2Z.inj_succ. simpl.
    replace (k + Z.succ (Z.of_nat n)) with (k + Z.of_nat n + 1) by lia.
    apply quotient_shr_1; [lia|exact HD|exact IHn].
Qed.

Lemma quotient_shr N D e n :
  0 <= N -> 0 < D -> 0 <= n ->
  exists mrs,
    shr (shr_record_of_loc (N / D) (new_location D (N mod D))) e n = (mrs, e + n) /\
    quotient_inv N D n mrs.
Proof.
  intros HN HD Hn. destruct n as [|p|p]; try lia.
  - eexists. rewrite Z.add_0_r. split; [reflexivity|]. now apply quotient_start.
  - eexists. split; [reflexivity|]. rewrite iter_pos_nat.
    replace (Zpos p) with (0 + Z.of_nat (Pos.to_nat p)) by lia.
    apply quotient_iter; [lia|exact HD|now apply quotient_start].
Qed.

Lemma quotient_round N D k mrs :
  0 <= k -> 0 < D -> quotient_inv N D k mrs ->
  shr_m mrs = N / (2 ^ k * D) /\
  shr_m mrs <= round_nearest_even (shr_m mrs) (loc_of_shr_record mrs) <= shr_m mrs + 1 /\
  rne_scaled (round_nearest_even (shr_m mrs) (loc_of_shr_record mrs)) N (2 ^ k * D).
Proof.
  intros Hk HD (rem & HN & Hrem & Hm & Hr & Hs).
  destruct mrs as [m r s]; cbn [shr_m shr_r shr_s] in *.
  assert (Hp : 0 < 2 ^ k) by (apply Z.pow_pos_nonneg; lia).
  assert (HU : 0 < 2 ^ k * D) by lia.
  remember (2 ^ k * D) as U eqn:EU.
  split; [apply (Z.div_unique N U m rem); lia|].
  unfold rne_scaled.
  destruct r, s; cbn [round_nearest_even loc_of_shr_record shr_m shr_r shr_s].
  - assert (U <= 2 * rem) by now apply Hr.
    assert (rem <> 0 /\ 2 * rem <> U) by now apply Hs.
    split; [lia|]. split; [lia|]. intros; lia.
  - assert (U <= 2 * rem) by now apply Hr.
    assert (E : 2 * rem = U).
    { destruct (Z.eq_dec (2 * rem) U) as [E|E]; trivial.
      assert (false = true) by (apply Hs; lia). discriminate. }
    destruct (Z.even m) eqn:Hev.
    + split; [lia|]. split; [lia|]. intros _. exact Hev.
    + split; [lia|]. split; [lia|]. intros _. rewrite Z.even_add, Hev. reflexivity.
  - assert (~ U <= 2 * rem) by (intros E; apply Hr in E; discriminate).
    split; [lia|]. split; [lia|]. intros; lia.
  - assert (~ U <= 2 * rem) by (intros E; apply Hr in E; discriminate).
    assert (rem = 0).
    { destruct (Z.eq_dec rem 0) as [E|E]; trivial.
      assert (false = true) by (apply Hs; lia). discriminate. }
    split; [lia|]. split; [lia|]. intros; lia.
Qed.

Lemma quotient_aux_spec N D E :
  0 <= N -> 0 < D -> E <= qexp N D E ->
  exists q,
    N / (2 ^ (qexp N D E - E) * D) <= q <= N / (2 ^ (qexp N D E - E) * D) + 1 /\
    rne_scaled q N (2 ^ (qexp N D E - E) * D) /\
    Q N D E = pack q (qexp N D E).
Proof.
  intros HN HD Hc. unfold Q, binary_round_aux, shr_fexp.
  fold (fexp64 (Zdigits2 (N / D) + E)). fold (qexp N D E).
  destruct (quotient_shr N D E (qexp N D E - E) HN HD ltac:(lia)) as (mrs & Heq & Hinv).
  rewrite Heq. replace (E + (qexp N D E - E)) with (qexp N D E) by lia.
  destruct (quotient_round N D (qexp N D E - E) mrs ltac:(lia) HD Hinv) as (Hm & Hb & Hr).
  exists (round_nearest_even (shr_m mrs) (loc_of_shr_record mrs)).
  rewrite <- Hm. split; [exact Hb|]. split; [exact Hr|reflexivity].
Qed.

End DivisionFacts.

Module DivisionMono.
Import Binary64 Binary64Facts Division DivisionFacts.

Lemma Zdigits2_bounds q :
  0 < q -> 2 ^ (Zdigits2 q - 1) <= q < 2 ^ Zdigits2 q /\ 0 < Zdigits2 q.
Proof.
  intros Hq. destruct q as [|p|p]; try lia. cbn [Zdigits2].
  split; [apply digits_bounds|lia].
Qed.

Lemma quotient_q_bounds N D E q :
  0 <= N -> 0 < D -> 0 < N / D -> E <= qexp N D E ->
  N / (2 ^ (qexp N D E - E) * D) <= q <= N / (2 ^ (qexp N D E - E) * D) + 1 ->
  0 <= q <= 2 ^ 53 /\ (-1074 < qexp N D E -> 2 ^ 52 <= q).
Proof.
  intros HN HD Hq0 Hc [Hlo Hhi].
  destruct (Zdigits2_bounds (N / D) Hq0) as [[Hd1 Hd2] Hd0].
  unfold qexp in *. rewrite fexp64_eq in *.
  set (d := Zdigits2 (N / D)) in *.
  set (s := Z.max (d + E - 53) (-1074) - E) in *.
  assert (Hs : 0 <= s) by lia.
  assert (Hps : 0 < 2 ^ s) by (apply Z.pow_pos_nonneg; lia).
  assert (Hdd : N / (2 ^ s * D) = N / D / 2 ^ s).
  { rewrite (Z.mul_comm (2 ^ s) D). symmetry. apply Z.div_div; lia. }
  rewrite Hdd in *.
  assert (Hup : N / D / 2 ^ s < 2 ^ 53).
  { apply Z.div_lt_upper_bound; [lia|].
    rewrite <- Z.pow_add_r by lia.
    assert (2 ^ d <= 2 ^ (s + 53)) by (apply Z.pow_le_mono_r; lia). lia. }
  assert (Hnn : 0 <= N / D / 2 ^ s) by (apply Z.div_pos; lia).
  split; [lia|]. intros Hnorm.
  assert (Hs' : s = d - 53) by lia.
  assert (2 ^ 52 <= N / D / 2 ^ s); [|lia].
  apply Z.div_le_lower_bound; [lia|].
  rewrite <- Z.pow_add_r by lia. replace (s + 52) with (d - 1) by lia. exact Hd1.
Qed.

Lemma quotient_cexp_mono N1 N2 D E1 E2 K :
  0 < D -> 0 < N1 / D -> 0 < N2 / D -> 0 <= E1 + K -> 0 <= E2 + K ->
  N1 * 2 ^ (E1 + K) <= N2 * 2 ^ (E2 + K) ->
  qexp N1 D E1 <= qexp N2 D E2.
Proof.
  intros HD H1 H2 HK1 HK2 HW. unfold qexp. rewrite !fexp64_eq.
  destruct (Zdigits2_bounds _ H1) as [[Hd1 _] Hp1].
  destruct (Zdigits2_bounds _ H2) as [[_ Hd2] Hp2].
  set (d1 := Zdigits2 (N1 / D)) in *. set (d2 := Zdigits2 (N2 / D)) in *.
  destruct (Z_le_gt_dec (d1 + E1) (d2 + E2)) as [|Hgt]; [lia|]. exfalso.
  assert (Hn1 : 2 ^ (d1 - 1) * D <= N1).
  { pose proof (Z.mul_div_le N1 D HD). nia. }
  assert (Hn2 : N2 < 2 ^ d2 * D).
  { pose proof (Z.mod_pos_bound N2 D HD). pose proof (Z.div_mod N2 D ltac:(lia)). nia. }
  assert (Hq1 : 0 < 2 ^ (E1 + K)) by (apply Z.pow_pos_nonneg; lia).
  assert (Hq2 : 0 < 2 ^ (E2 + K)) by (apply Z.pow_pos_nonneg; lia).
  assert (Hle : 2 ^ (d2 + (E2 + K)) <= 2 ^ (d1 - 1 + (E1 + K))) by (apply Z.pow_le_mono_r; lia).
  rewrite (Z.pow_add_r 2 d2 (E2 + K)) in Hle by lia.
  rewrite (Z.pow_add_r 2 (d1 - 1) (E1 + K)) in Hle by lia.
  assert (A : 2 ^ (d1 - 1) * 2 ^ (E1 + K) * D <= N1 * 2 ^ (E1 + K)) by nia.
  assert (B : N2 * 2 ^ (E2 + K) < 2 ^ d2 * 2 ^ (E2 + K) * D) by nia.
  assert (C : 2 ^ d2 * 2 ^ (E2 + K) * D <= 2 ^ (d1 - 1) * 2 ^ (E1 + K) * D) by nia.
  lia.
Qed.

Lemma rne_scaled_scale q W U s :
  0 < s -> rne_scaled q W U -> rne_scaled q (W * s) (U * s).
Proof.
  intros Hs [Hle Htie]. unfold rne_scaled.
  assert (Habs : Z.abs (q * (U * s) - W * s) = Z.abs (q * U - W) * s).
  { replace (q * (U * s) - W * s) with ((q * U - W) * s) by ring.
    rewrite Z.abs_mul. f_equal. apply Z.abs_eq. lia. }
  rewrite Habs. split; [nia|]. intros Heq. apply Htie. nia.
Qed.

(** Dividing by the same number is monotone, rounding included. *)
Lemma quotient_mono N1 N2 D E1 E2 K :
  0 <= N1 -> 0 <= N2 -> 0 < D -> 0 < N1 / D -> 0 < N2 / D ->
  E1 <= qexp N1 D E1 -> E2 <= qexp N2 D E2 ->
  0 <= E1 + K -> 0 <= E2 + K ->
  N1 * 2 ^ (E1 + K) <= N2 * 2 ^ (E2 + K) ->
  SFval (Q N1 D E1) <= SFval (Q N2 D E2).
Proof.
  intros HN1 HN2 HD Hq1 Hq2 Hc1 Hc2 HK1 HK2 HW.
  destruct (quotient_aux_spec N1 D E1 HN1 HD Hc1) as (q1 & Hb1 & Hr1 & ->).
  destruct (quotient_aux_spec N2 D E2 HN2 HD Hc2) as (q2 & Hb2 & Hr2 & ->).
  destruct (quotient_q_bounds _ _ _ _ HN1 HD Hq1 Hc1 Hb1) as [B1 _].
  destruct (quotient_q_bounds _ _ _ _ HN2 HD Hq2 Hc2 Hb2) as [B2 Hn2].
  assert (Hg1 : -1074 <= qexp N1 D E1) by (unfold qexp; rewrite fexp64_eq; lia).
  assert (Hg2 : -1074 <= qexp N2 D E2) by (unfold qexp; rewrite fexp64_eq; lia).
  rewrite !SFval_pack by assumption.
  apply pack_val_mono; try assumption.
  pose proof (quotient_cexp_mono _ _ _ _ _ K HD Hq1 Hq2 HK1 HK2 HW) as Hcm.
  destruct (Z.eq_dec (qexp N1 D E1) (qexp N2 D E2)) as [Heq|Hne].
  - left. split; [exact Heq|].
    assert (P1 : 0 < 2 ^ (E1 + K)) by (apply Z.pow_pos_nonneg; lia).
    assert (P2 : 0 < 2 ^ (E2 + K)) by (apply Z.pow_pos_nonneg; lia).
    apply (rne_scaled_scale _ _ _ _ P1) in Hr1.
    apply (rne_scaled_scale _ _ _ _ P2) in Hr2.
    assert (U1 : 2 ^ (qexp N1 D E1 - E1) * D * 2 ^ (E1 + K) = 2 ^ (qexp N2 D E2 + K) * D).
    { rewrite Heq. rewrite <- Z.mul_assoc, (Z.mul_comm D), Z.mul_assoc, <- Z.pow_add_r by lia.
      f_equal. f_equal. lia. }
    assert (U2 : 2 ^ (qexp N2 D E2 - E2) * D * 2 ^ (E2 + K) = 2 ^ (qexp N2 D E2 + K) * D).
    { rewrite <- Z.mul_assoc, (Z.mul_comm D), Z.mul_assoc, <- Z.pow_add_r by lia.
      f_equal. f_equal. lia. }
    rewrite U1 in Hr1. rewrite U2 in Hr2.
    eapply rne_scaled_mono; [|exact Hr1|exact Hr2|exact HW].
    assert (0 < 2 ^ (qexp N2 D E2 + K)) by (apply Z.pow_pos_nonneg; lia). lia.
  - right. split; [lia|]. apply Hn2. lia.
Qed.

Lemma quotient_nonneg N D E :
  0 <= N -> 0 < D -> 0 < N / D -> E <= qexp N D E -> nonneg_ext (Q N D E) = true.
Proof.
  intros HN HD Hq Hc.
  destruct (quotient_aux_spec N D E HN HD Hc) as (q & Hb & _ & ->).
  destruct (quotient_q_bounds _ _ _ _ HN HD Hq Hc Hb) as [B _].
  apply pack_nonneg. lia.
Qed.

End DivisionMono.

Module DivisionFloat.
Import Binary64 Binary64Facts Division DivisionFacts DivisionMono.

Lemma shifted_mantissa m s :
  0 <= s ->
  match s with
  | 0 => Zpos m
  | Zpos _ => Z.shiftl (Zpos m) s
  | Zneg _ => 0
  end = Zpos m * 2 ^ s.
Proof.
  intros Hs. destruct s as [|p|p]; try lia.
  rewrite Z.shiftl_mul_pow2 by lia. reflexivity.
Qed.

(** The quotient of two positive numbers, the divisor not the larger one, as
    a rounded quotient of integers. *)
Lemma SFdiv_Q mx ex my ey :
  bounded prec emax mx ex = true -> bounded prec emax my ey = true ->
  Zpos my * 2 ^ (ey + 1074) <= Zpos mx * 2 ^ (ex + 1074) ->
  exists N E,
    SF64div (S754_finite false mx ex) (S754_finite false my ey) = Q N (Zpos my) E /\
    0 <= N /\ 0 < N / Zpos my /\ E <= qexp N (Zpos my) E /\
    0 <= E + (ey + 2148) /\
    N * 2 ^ (E + (ey + 2148)) = Zpos mx * 2 ^ (ex + 1074) * 2 ^ 1074.
Proof.
  intros Vx Vy Hxy.
  destruct (bounded_inv _ _ Vx) as (Hex & Hdx & Hux).
  destruct (bounded_inv _ _ Vy) as (Hey & Hdy & Huy).
  pose proof (digits_bounds mx) as [Hx1 Hx2]. pose proof (digits_bounds my) as [Hy1 Hy2].
  unfold SF64div, SFdiv, SFdiv_core_binary. cbn [Zdigits2 xorb].
  set (d1 := Zpos (digits2_pos mx)) in *. set (d2 := Zpos (digits2_pos my)) in *.
  fold (fexp64 (d1 + ex - (d2 + ey))). rewrite fexp64_eq.
  set (e' := Z.min (Z.max (d1 + ex - (d2 + ey) - 53) (-1074)) (ex - ey)).
  assert (He' : e' <= ex - ey) by (unfold e'; lia).
  assert (He'' : e' <= Z.max (d1 + ex - (d2 + ey) - 53) (-1074)) by (unfold e'; lia).
  assert (Hlow : Z.min (-1074) (ex - ey) <= e') by (unfold e'; lia).
  set (s := ex - ey - e').
  assert (Hs : 0 <= s) by (unfold s; lia).
  set (N := Zpos mx * 2 ^ s).
  assert (HN : match s with
               | 0 => Zpos mx
               | Zpos _ => Z.shiftl (Zpos mx) s
               | Zneg _ => 0
               end = N).
  { unfold N. now apply shifted_mantissa. }
  rewrite HN.
  assert (Hdiv : Z.div_eucl N (Zpos my) = (N / Zpos my, N mod Zpos my)).
  { unfold Z.div, Z.modulo. now destruct (Z.div_eucl N (Zpos my)). }
  rewrite Hdiv.
  assert (Hps : 0 < 2 ^ s) by (apply Z.pow_pos_nonneg; lia).
  assert (HN0 : 0 <= N) by (unfold N; lia).
  assert (Hd1 : 0 < d1) by (unfold d1; lia). assert (Hd2 : 0 < d2) by (unfold d2; lia).
  (* a result above the subnormal range has a quotient of 53 bits *)
  assert (Hbig : -1074 < e' -> 2 ^ 52 <= N / Zpos my).
  { intros Hn. assert (Hsd : d2 - d1 + 53 <= s) by (unfold s; lia).
    apply Z.div_le_lower_bound; [lia|].
    assert (2 ^ (d2 + 52) <= 2 ^ (d1 - 1 + s)) by (apply Z.pow_le_mono_r; lia).
    rewrite (Z.pow_add_r 2 (d1 - 1) s) in H by lia.
    rewrite (Z.pow_add_r 2 d2 52) in H by lia.
    unfold N. nia. }
  assert (Hq0 : 0 < N / Zpos my).
  { destruct (Z_le_gt_dec e' 0) as [Hle|Hgt].
    - apply Z.div_str_pos. split; [lia|].
      assert (Hp : 0 < 2 ^ (ey + 1074)) by (apply Z.pow_pos_nonneg; lia).
      assert (Hm : 2 ^ (ex + 1074) <= 2 ^ (s + (ey + 1074))).
      { apply Z.pow_le_mono_r; [lia|unfold s; lia]. }
      rewrite (Z.pow_add_r 2 s (ey + 1074)) in Hm by lia.
      unfold N.
      assert (Zpos my * 2 ^ (ey + 1074) <= Zpos mx * 2 ^ s * 2 ^ (ey + 1074)) by nia.
      nia.
    - assert (0 < 2 ^ 52) by (apply Z.pow_pos_nonneg; lia).
      specialize (Hbig ltac:(lia)). lia. }
  exists N, e'. split; [reflexivity|]. split; [exact HN0|]. split; [exact Hq0|].
  split; [|split].
  - unfold qexp. rewrite fexp64_eq.
    destruct (Z_le_gt_dec e' (-1074)) as [Hle|Hgt]; [lia|].
    specialize (Hbig ltac:(lia)).
    destruct (Zdigits2_bounds _ Hq0) as [[_ Hup] _].
    assert (53 <= Zdigits2 (N / Zpos my)).
    { destruct (Z_le_gt_dec 53 (Zdigits2 (N / Zpos my))) as [|Hlt]; trivial. exfalso.
      assert (2 ^ Zdigits2 (N / Zpos my) <= 2 ^ 52) by (apply Z.pow_le_mono_r; lia). lia. }
    lia.
  - lia.
  - unfold N. rewrite <- !Z.mul_assoc, <- !Z.pow_add_r by lia.
    f_equal. f_equal. unfold s. lia.
Qed.

Lemma SFdiv_mono a b c :
  nonneg_fin a = true -> nonneg_fin b = true -> nonneg_fin c = true ->
  SpecFloat.valid_binary prec emax a = true -> SpecFloat.valid_binary prec emax b = true ->
  SpecFloat.valid_binary prec emax c = true ->
  0 < SFval c -> SFval c <= SFval a -> SFval a <= SFval b ->
  SFval (SF64div a c) <= SFval (SF64div b c) /\
  nonneg_ext (SF64div a c) = true /\ nonneg_ext (SF64div b c) = true.
Proof.
  intros Ha Hb Hc Va Vb Vc Hpos Hca Hab.
  destruct c as [sc|[|]| |[|] mc ec]; try discriminate; cbn [SFval] in Hpos; try lia.
  destruct a as [sa|[|]| |[|] ma ea]; try discriminate; cbn [SFval] in Hca, Hab; try lia.
  destruct b as [sb|[|]| |[|] mb eb]; try discriminate; cbn [SFval] in Hab; try lia.
  cbn [valid_binary SFval] in *.
  destruct (SFdiv_Q ma ea mc ec Va Vc Hca) as (N1 & E1 & -> & HN1 & Hq1 & Hc1 & HK1 & HW1).
  destruct (SFdiv_Q mb eb mc ec Vb Vc ltac:(lia)) as (N2 & E2 & -> & HN2 & Hq2 & Hc2 & HK2 & HW2).
  split; [|split; apply quotient_nonneg; trivial; reflexivity].
  apply (quotient_mono N1 N2 (Zpos mc) E1 E2 (ec + 2148)); trivial; try reflexivity.
  rewrite HW1, HW2. apply Z.mul_le_mono_nonneg_r; [apply Z.pow_nonneg; lia|exact Hab].
Qed.

(** Dividing by a positive number that is not larger than the dividends is
    monotone, rounding included. *)
Lemma div_mono a b c :
  fin a -> fin b -> fin c -> 0 < val c -> val c <= val a -> val a <= val b ->
  val (a / c)%float <= val (b / c)%float /\ nonneg (a / c)%float /\ nonneg (b / c)%float.
Proof.
  intros Ha Hb Hc Hpos Hca Hab. unfold val, nonneg. rewrite !div_spec.
  apply SFdiv_mono; auto using Prim2SF_valid.
Qed.

Lemma SFmul_comm x y : SF64mul x y = SF64mul y x.
Proof.
  unfold SF64mul, SFmul.
  destruct x as [sx|sx| |sx mx ex], y as [sy|sy| |sy my ey]; try reflexivity;
    rewrite ?(xorb_comm sx sy); try reflexivity.
  now rewrite (Pos.mul_comm mx my), (Z.add_comm ex ey).
Qed.

Lemma val_mul_comm a b : val (a * b)%float = val (b * a)%float.
Proof. unfold val. rewrite !mul_spec. now rewrite SFmul_comm. Qed.

Lemma mul_mono_r a b c :
  fin a -> fin b -> fin c -> val a <= val b -> val (c * a)%float <= val (c * b)%float.
Proof.
  intros Ha Hb Hc Hle. rewrite (val_mul_comm c a), (val_mul_comm c b). now apply mul_mono.
Qed.

Lemma mul_nonneg_fin a b : fin a -> fin b -> nonneg (a * b)%float.
Proof. apply mul_nonneg. Qed.

End DivisionFloat.

(** ** The price and the amounts derived from it *)

Module PriceRange.
Import Binary64 Binary64Facts Division DivisionFacts DivisionMono DivisionFloat SynthDetails.
Import SynthFacts.

Lemma price_checks :
  forallb price_check (map (fun i => 1000 + Z.of_nat i) (seq 0 2500)) = true.
Proof. vm_compute. reflexivity. Qed.

Lemma price_bounds n r :
  1000 <= n <= 3499 -> unit_interval r = true ->
  n * 150 / 1000 <= Math_floor (Z2num n * (150 + r * 150) / 1000) <= n * 300 / 1000.
Proof.
  intros Hn Hr.
  pose proof (forallb_range price_check 1000 2500 price_checks n ltac:(lia)) as Hc.
  unfold price_check in Hc. cbv zeta in Hc.
  repeat (apply andb_true_iff in Hc; destruct Hc as [Hc ?]).
  set (N := Z2num n) in *.
  match goal with H : (_ =? n * 150 / 1000) = true |- _ => apply Z.eqb_eq in H; rewrite <- H end.
  match goal with H : (_ =? n * 300 / 1000) = true |- _ => apply Z.eqb_eq in H; rewrite <- H end.
  match goal with H : (val 1000 <=? _) = true |- _ => apply Z.leb_le in H; rename H into Hbig end.
  assert (HfN : fin N) by assumption.
  assert (Hfhi : fin (N * (150 + 1 * 150))%float) by assumption.
  assert (Hfdhi : fin (N * (150 + 1 * 150) / 1000)%float) by assumption.
  assert (Hf0 : fin (0 * 150)%float) by reflexivity.
  assert (Hf1 : fin (1 * 150)%float) by reflexivity.
  assert (Hfc : fin 150%float) by reflexivity.
  assert (Hfk : fin 1000%float) by reflexivity.
  assert (Hkpos : 0 < val 1000%float) by (vm_compute; reflexivity).
  assert (Hfb1 : fin (150 + 1 * 150)%float) by reflexivity.
  assert (Hfb0 : fin (150 + 0 * 150)%float) by reflexivity.
  (* the rate *)
  assert (Hra : fin (r * 150)%float /\ val (r * 150)%float <= val (1 * 150)%float).
  { destruct (unit_interval_fin r Hr) as [Hfr Hle].
    assert (Hr1 : val r <= val 1%float).
    { assert (val pred1 <= val 1%float) by (vm_compute; discriminate). lia. }
    pose proof (mul_mono r 1 150 Hfr eq_refl Hfc Hr1) as Hm1.
    split; [|exact Hm1].
    apply (fin_le _ (1 * 150)%float); trivial. apply mul_nonneg; trivial. }
  destruct Hra as [Hfa Hale].
  pose proof (add_mono _ _ 150 Hf0 Hfa Hfc (val_nonneg _)) as Hblo.
  pose proof (add_mono _ _ 150 Hfa Hf1 Hfc Hale) as Hbhi.
  assert (Hfb : fin (150 + r * 150)%float).
  { apply (fin_le _ (150 + 1 * 150)%float); trivial. now apply add_nonneg. }
  (* the product *)
  pose proof (mul_mono_r _ _ N Hfb0 Hfb HfN Hblo) as Hclo.
  pose proof (mul_mono_r _ _ N Hfb Hfb1 HfN Hbhi) as Hchi.
  assert (Hfcm : fin (N * (150 + r * 150))%float).
  { apply (fin_le _ (N * (150 + 1 * 150))%float); trivial. now apply mul_nonneg. }
  assert (Hfclo : fin (N * (150 + 0 * 150))%float).
  { apply (fin_le _ (N * (150 + r * 150))%float); trivial. now apply mul_nonneg. }
  (* the quotient *)
  destruct (div_mono _ _ 1000 Hfclo Hfcm Hfk Hkpos Hbig Hclo) as (Hdlo & Hnlo & Hnd).
  destruct (div_mono _ _ 1000 Hfcm Hfhi Hfk Hkpos ltac:(lia) Hchi) as (Hdhi & _ & _).
  assert (Hfd : fin (N * (150 + r * 150) / 1000)%float) by (apply (fin_le _ _ Hnd Hfdhi Hdhi)).
  assert (Hfdlo : fin (N * (150 + 0 * 150) / 1000)%float) by (apply (fin_le _ _ Hnlo Hfd Hdlo)).
  split; now apply Math_floor_mono.
Qed.

End PriceRange.

Module AmountFacts.
Import Binary64 Binary64Facts JS Effects EffectsFacts Synth SynthFacts.
Import Division DivisionFacts DivisionMono DivisionFloat SynthDetails PriceRange.

Lemma leb_nonneg lo f : nonneg lo -> (lo <=? f)%float = true -> nonneg f.
Proof.
  unfold nonneg. rewrite leb_spec. unfold SFleb.
  destruct (Prim2SF lo) as [s|[|]| |[|] m e]; try discriminate;
    destruct (Prim2SF f) as [s'|[|]| |[|] m' e']; cbn; trivial; try discriminate.
Qed.

(** A number between two finite ones is finite, and their values are in the
    same order. *)
Lemma between lo hi f :
  fin lo -> fin hi -> (lo <=? f)%float = true -> (f <=? hi)%float = true ->
  fin f /\ val lo <= val f <= val hi.
Proof.
  intros Hlo Hhi H1 H2.
  pose proof (leb_nonneg lo f (fin_nonneg _ Hlo) H1) as Hn.
  rewrite (leb_val _ _ (fin_nonneg _ Hlo) Hn) in H1.
  rewrite (leb_val _ _ Hn (fin_nonneg _ Hhi)) in H2.
  apply Z.leb_le in H1. apply Z.leb_le in H2.
  split; [apply (fin_le _ hi); assumption|lia].
Qed.

(** The floor of a product with a factor between two others. *)
Lemma floor_mul_between N lo hi f :
  fin N -> fin lo -> fin hi -> fin (N * hi)%float ->
  (lo <=? f)%float = true -> (f <=? hi)%float = true ->
  Math_floor (N * lo) <= Math_floor (N * f) <= Math_floor (N * hi).
Proof.
  intros HN Hlo Hhi Hfin H1 H2.
  destruct (between lo hi f Hlo Hhi H1 H2) as (Hf & Hle1 & Hle2).
  pose proof (mul_mono_r _ _ N Hlo Hf HN Hle1) as Hm1.
  pose proof (mul_mono_r _ _ N Hf Hhi HN Hle2) as Hm2.
  assert (Hff : fin (N * f)%float).
  { apply (fin_le _ (N * hi)%float); trivial. now apply mul_nonneg. }
  assert (Hfl : fin (N * lo)%float).
  { apply (fin_le _ (N * f)%float); trivial. now apply mul_nonneg. }
  split; now apply Math_floor_mono.
Qed.

Lemma amount_checks :
  forallb amount_check (map (fun i => 150 + Z.of_nat i) (seq 0 900)) = true.
Proof. vm_compute. reflexivity. Qed.

Lemma lot_checks :
  forallb lot_check (map (fun i => 1000 + Z.of_nat i) (seq 0 2500)) = true.
Proof. vm_compute. reflexivity. Qed.

(** The derived fields of a record in range, in integer terms. *)
Lemma consistent_amounts p :
  1000 <= sqft p <= 3500 -> priced p -> consistent p -> amounts p.
Proof.
  intros Hsq (_ & k & Hk & Hprice)
    (Hrent & (f & Hf1 & Hf2 & Hz) & (m & Hm1 & Hm2 & Hlot) &
     (e1 & e2 & Hh & He1 & He2) & (y1 & y2 & Ht & Hv1 & Ht1 & Hv2 & Ht2)).
  pose proof (forallb_range amount_check 150 900 amount_checks k ltac:(lia)) as Hc.
  unfold amount_check in Hc. cbv zeta in Hc. rewrite <- Hprice in Hc.
  repeat (apply andb_true_iff in Hc; destruct Hc as [Hc ?]).
  repeat match goal with
         | H : (_ =? _) = true |- _ => apply Z.eqb_eq in H
         | H : (_ <=? _) = true |- _ => apply Z.leb_le in H
         end.
  assert (HfP : fin (Z2num (price p))) by assumption.
  assert (HfP5 : fin (Z2num (price p) * 1.05)%float) by assumption.
  unfold amounts. split; [congruence|]. split.
  { rewrite Hz.
    pose proof (floor_mul_between (Z2num (price p)) 0.95 1.05 f HfP eq_refl eq_refl HfP5 Hf1 Hf2).
    lia. }
  split.
  { assert (Hs : 1000 <= sqft p <= 3499 \/ sqft p = 3500) by lia.
    destruct Hs as [Hs|Hs].
    - pose proof (forallb_range lot_check 1000 2500 lot_checks (sqft p) ltac:(lia)) as Hl.
      unfold lot_check in Hl. cbv zeta in Hl.
      repeat (apply andb_true_iff in Hl; destruct Hl as [Hl ?]).
      repeat match goal with
             | H : (_ =? _) = true |- _ => apply Z.eqb_eq in H
             end.
      rewrite Hlot.
      pose proof (floor_mul_between (Z2num (sqft p)) 2 5 m ltac:(assumption) eq_refl eq_refl
                    ltac:(assumption) Hm1 Hm2).
      lia.
    - rewrite Hlot, Hs.
      pose proof (floor_mul_between (Z2num 3500) 2 5 m eq_refl eq_refl eq_refl eq_refl Hm1 Hm2)
        as Hb.
      change (Math_floor (Z2num 3500 * 2)) with 7000 in Hb.
      change (Math_floor (Z2num 3500 * 5)) with 17500 in Hb. lia. }
  split.
  { exists e1, e2. split; [exact Hh|]. split; [exact He1|congruence]. }
  exists y1, y2. split; [exact Ht|]. rewrite Hv1, Ht1, Hv2, Ht2.
  split; [congruence|]. split; [congruence|]. split; lia.
Qed.

(** The price of a generated record. *)
Lemma generate_one_priced c w st :
  fair w -> returns (generate_one c) w st (fun p _ => priced p).
Proof.
  intros Hw. unfold generate_one.
  draw_below ipattern:(Hb).
  draw_below ipattern:(Hwhole).
  draw_coin.
  apply returns_bind. eapply returns_random_below;
    [eassumption|reflexivity|reflexivity|vm_compute; reflexivity|intros s ? Hs; cbv zeta].
  apply returns_bind; apply returns_Math_random; [assumption | intros r ? Hrate; cbv zeta].
  pose proof (price_bounds (1000 + s) r ltac:(lia) Hrate) as Hp.
  remember (Math_floor (Z2num (1000 + s) * (150 + r * 150) / 1000)) as k eqn:Ek.
  assert (Hk : 150 <= k <= 1049).
  { assert (150 <= (1000 + s) * 150 / 1000) by (apply Z.div_le_lower_bound; lia).
    assert ((1000 + s) * 300 / 1000 <= 1049).
    { assert ((1000 + s) * 300 / 1000 < 1050) by (apply Z.div_lt_upper_bound; lia). lia. }
    lia. }
  clear Ek.
  draw_below ipattern:(Ha).
  draw_below ipattern:(Hz).
  draw_below ipattern:(Hm).
  draw_below ipattern:(Hhouse).
  draw_below ipattern:(Hst).
  draw_below ipattern:(Hzip).
  draw ipattern:(Hlat).
  draw ipattern:(Hlon).
  draw ipattern:(Hlot).
  draw_below ipattern:(Hy).
  draw_below ipattern:(Ht).
  draw_below ipattern:(Hdom).
  draw_coin.
  apply returns_bind.
  apply (returns_weaken _ _ _ (fun _ _ => True)).
  { match goal with |- context [if ?b then _ else _] => destruct b end.
    - draw_below ipattern:(Hh). now apply returns_ret.
    - now apply returns_ret. }
  intros hoa ? _.
  draw_below ipattern:(Ht').
  match goal with H : 0 <= ?t' <= 3 |- context [index propertyTypes ?t'] =>
    destruct (index_in_bounds propertyTypes t' ltac:(change (array_length propertyTypes) with 4; lia))
      as (kind & Hkind & _) end.
  apply returns_bind. eapply returns_property_of; [exact Hkind|].
  draw_coin.
  match goal with H : 0 <= ?a <= 3 |- context [index agents ?a] =>
    destruct (index_in_bounds agents a ltac:(change (array_length agents) with 4; lia))
      as (agent & Hagent & _) end.
  do 4 (apply returns_bind; eapply returns_property_of; [exact Hagent|]).
  draw ipattern:(Hzest).
  do 3 (apply returns_bind; apply returns_school; [assumption | intros ? ?]).
  apply returns_bind, returns_Date_toISOString. intros now ?.
  apply returns_ret.
  unfold priced. cbn [price sqft].
  split; [lia|]. exists k. split; [exact Hk|reflexivity].
Qed.

End AmountFacts.

(** ** One record, field by field *)

Module DetailFacts.

Import Binary64 Binary64Facts JS Effects EffectsFacts Synth SynthFacts SynthDetails.
Import FixedFacts NegFacts CoordFacts.

(** The primitives again, now with the store they leave. *)
Lemma returns_Math_random_at w st (Q : float -> Store -> Prop) :
  fair w -> (forall r, unit_interval r = true -> Q r (drawn st)) ->
  returns Math_random w st Q.
Proof. intros Hw HQ. apply HQ, Hw. Qed.

Lemma returns_random_below_at n k w st (Q : Z -> Store -> Prop) :
  fair w -> fin n -> fin (pred1 * n)%float -> Math_floor (pred1 * n)%float = k ->
  (forall v, 0 <= v <= k -> Q v (drawn st)) ->
  returns (random_below n) w st Q.
Proof.
  intros Hw Hn Hp Hk HQ. unfold random_below.
  apply returns_bind, returns_Math_random_at; [exact Hw|].
  intros r Hr. apply returns_ret, HQ.
  now apply (floor_random_mul r n k).
Qed.

Lemma returns_coin_at w st (Q : bool -> Store -> Prop) :
  fair w -> (forall b, Q b (drawn st)) -> returns coin w st Q.
Proof.
  intros Hw HQ. unfold coin.
  apply returns_bind, returns_Math_random_at; [exact Hw|].
  intros r _. apply returns_ret, HQ.
Qed.

Lemma returns_school_at nm base spread near reach grades k far w st
      (Q : School -> Store -> Prop) :
  fair w -> fin spread -> fin (pred1 * spread)%float ->
  Math_floor (pred1 * spread)%float = k ->
  fin near -> fin reach -> fin (1 * reach)%float -> fin far ->
  (near <=? near + 0 * reach)%float = true -> (near + 1 * reach <=? far)%float = true ->
  (forall s, school_within nm grades base (base + k) near far s -> Q s (drawn (drawn st))) ->
  returns (school nm base spread near reach grades) w st Q.
Proof.
  intros Hw Hs Hp Hk Hnear Hreach H1 Hfar Hlo Hhi HQ. unfold school.
  apply returns_bind. eapply returns_random_below_at; try eassumption.
  intros v Hv. cbv beta.
  apply returns_bind, returns_Math_random_at; [exact Hw|].
  intros r Hr. apply returns_ret, HQ.
  unfold school_within. cbn [sc_name sc_grades sc_rating sc_distance].
  split; [reflexivity|]. split; [reflexivity|]. split; [lia|].
  now apply (affine_random r near reach near far).
Qed.

Lemma returns_clock_at w st (Q : string -> Store -> Prop) :
  Q (clock_seq w (clock_calls st))
    {| random_calls := random_calls st; clock_calls := S (clock_calls st) |} ->
  returns Date_toISOString w st Q.
Proof. intros HQ. exact HQ. Qed.

Ltac below v H :=
  apply returns_bind; eapply returns_random_below_at;
  [ eassumption | reflexivity | reflexivity | vm_compute; reflexivity
  | intros v H; cbv zeta ].

Ltac flip b :=
  apply returns_bind; apply returns_coin_at; [assumption | intros b; cbv zeta].

Ltac unit r H :=
  apply returns_bind; apply returns_Math_random_at; [assumption | intros r H; cbv zeta].

Ltac enrol far s H :=
  apply returns_bind; eapply (returns_school_at _ _ _ _ _ _ _ far);
  [ eassumption | reflexivity | reflexivity | vm_compute; reflexivity
  | reflexivity | reflexivity | reflexivity | reflexivity | reflexivity | reflexivity
  | intros s H ].

(** One turn of the loop, field by field, with the draws and the clock
    reading it takes. *)
Lemma generate_one_details c w st :
  fair w ->
  returns (generate_one c) w st
    (fun p st' =>
       detailed c p /\ described c p /\
       scrapedAt p = clock_seq w (clock_calls st) /\
       random_calls st' = (random_calls st + draws_of p)%nat /\
       clock_calls st' = S (clock_calls st)).
Proof.
  intros Hw. unfold generate_one.
  below b Hb. below whole Hwhole. flip half. below s Hs. unit r_rate Hrate.
  below a Ha. below z Hz. below m Hm. below house Hhouse. below street_index Hst.
  below zip Hzip. unit r_lat Hlat. unit r_lon Hlon. unit r_lot Hlot.
  below y Hy. below t Ht. below dom Hdom. flip has_hoa.
  apply returns_bind.
  destruct has_hoa; [ below h Hh; apply returns_ret | apply returns_ret ].
  all: below t' Ht'.
  all: destruct (index_in_bounds propertyTypes t'
                   ltac:(change (array_length propertyTypes) with 4; lia))
         as (kind & Hkind & Hkin).
  all: apply returns_bind; eapply returns_property_of; [exact Hkind|].
  all: flip renovated.
  all: destruct (index_in_bounds agents a ltac:(change (array_length agents) with 4; lia))
         as (agent & Hagent & Hain).
  all: do 4 (apply returns_bind; eapply returns_property_of; [exact Hagent|]).
  all: unit r_zest Hzest.
  all: enrol 2.5%float elementary He.
  all: enrol 4%float middle Hmid.
  all: enrol 6%float high Hhigh.
  all: apply returns_bind, returns_clock_at, returns_ret.
  all: destruct (index_in_bounds streets street_index
                   ltac:(change (array_length streets) with 8; lia))
         as (street & Hstreet & Hsin).
  all: unfold detailed, identified, listed, represented, schooled, boxed, described, draws_of.
  all: cbn [propertyId mlsId streetAddress zipCode listingStatus daysOnMarket hoaFee images
            dataSource isActive agentName agentPhone agentEmail brokerName schools
            latitude longitude description bedrooms bathrooms sqft scrapedAt
            random_calls clock_calls drawn].
  all: rewrite Hstreet; cbn [template].
  all: repeat match goal with |- _ /\ _ => split end.
  all: try reflexivity.
  all: try lia.
  all: try (now apply latitude_boxed).
  all: try (now apply longitude_boxed).
  all: try (left; reflexivity).
  all: try (right; eexists; split; [reflexivity|lia]).
  all: try (exists agent; repeat split; exact Hain).
  all: try (exists elementary, middle, high; split; [reflexivity|];
            split; [exact He|]; split; [exact Hmid|exact Hhigh]).
  all: try (exists (toLowerCase kind),
              (if renovated then "Recently renovated with new appliances and flooring."
               else "Move-in ready with excellent curb appeal.");
            split; [apply in_map; exact Hkin|];
            split; [destruct renovated; cbn; auto|reflexivity]).
  all: try (eexists; split; [|reflexivity]; lia).
  all: do 2 eexists; split; [|split; [exact Hsin|reflexivity]]; lia.
Qed.

End DetailFacts.

Module DetailLoop.

Import Binary64 Binary64Facts JS Effects EffectsFacts Synth SynthFacts SynthDetails.
Import FixedFacts NegFacts CoordFacts DetailFacts AmountFacts.

Lemma returns_conj {A : Type} (c : M A) w st (Q1 Q2 : A -> Store -> Prop) :
  returns c w st Q1 -> returns c w st Q2 -> returns c w st (fun a st' => Q1 a st' /\ Q2 a st').
Proof. unfold returns. destruct (c w st); [trivial|]. now split. Qed.

Lemma accounted_nil w st : accounted w st [] st.
Proof. unfold accounted, draws. cbn. repeat split; lia. Qed.

Lemma accounted_cons w st p st1 ps st2 :
  scrapedAt p = clock_seq w (clock_calls st) ->
  random_calls st1 = (random_calls st + draws_of p)%nat ->
  clock_calls st1 = S (clock_calls st) ->
  accounted w st1 ps st2 -> accounted w st (p :: ps) st2.
Proof.
  intros Hat Hr Hc (Hr2 & Hc2 & Hs2). unfold accounted, draws, list_sum in *.
  cbn [map fold_right List.length seq]. rewrite Hr2, Hc2, Hat, Hs2, Hr, Hc.
  split; [lia|]. split; [lia|reflexivity].
Qed.

Lemma accounted_app w st ps st1 qs st2 :
  accounted w st ps st1 -> accounted w st1 qs st2 -> accounted w st (ps ++ qs) st2.
Proof.
  intros (Hr & Hc & Hs) (Hr2 & Hc2 & Hs2). unfold accounted, draws in *.
  rewrite !map_app, list_sum_app, length_app, seq_app, map_app, Hs, Hs2, Hc, Hr2, Hc2, Hr.
  split; [lia|]. split; [lia|reflexivity].
Qed.

Lemma draws_bounds ps : (27 * List.length ps <= draws ps <= 28 * List.length ps)%nat.
Proof.
  unfold draws, list_sum. induction ps as [|p ps IH]; cbn [map fold_right List.length]; [lia|].
  unfold draws_of at 1 3. destruct (hoaFee p); lia.
Qed.

Lemma generate_loop_details n c acc w st :
  fair w ->
  returns (generate_loop n c acc) w st
    (fun props st' =>
       exists fresh, props = (acc ++ fresh)%list /\ List.length fresh = n /\
                     Forall (complete c) fresh /\ accounted w st fresh st').
Proof.
  intros Hw. revert acc st. induction n as [|n IH]; intros acc st; cbn [generate_loop].
  - apply returns_ret. exists []. rewrite app_nil_r.
    repeat split; auto using accounted_nil.
  - apply returns_bind.
    eapply returns_weaken;
      [apply (returns_conj _ _ _ _ _
                (returns_conj _ _ _ _ _ (generate_one_returns c w st Hw)
                   (generate_one_priced c w st Hw))
                (generate_one_details c w st Hw))|].
    intros p st' ((Hwf & Hpr) & Hdet & Hdes & Hat & Hr & Hc). cbv beta.
    eapply returns_weaken; [apply IH|].
    intros props st'' (fresh & -> & Hlen & Hall & Hacc).
    exists (p :: fresh). rewrite <- app_assoc. cbn [app List.length].
    split; [reflexivity|]. split; [now rewrite Hlen|]. split.
    + constructor; [|exact Hall].
      assert (Ham : amounts p).
      { destruct Hwf as (_ & Hrange & Hcons).
        apply consistent_amounts; [exact (proj1 (proj2 (proj2 Hrange)))|exact Hpr|exact Hcons]. }
      exact (conj Hwf (conj Hdet (conj Hdes (conj Hpr Ham)))).
    + now apply (accounted_cons w st p st').
Qed.

Lemma generateProperties_details c count w st :
  fair w ->
  exists props st',
    generateProperties c count w st = Returned props st' /\
    List.length props = Z.to_nat (requested count) /\
    Forall (complete c) props /\ accounted w st props st'.
Proof.
  intros Hw. unfold generateProperties.
  destruct (returns_inv _ _ _ _ (generate_loop_details (Z.to_nat (requested count)) c [] w st Hw))
    as (props & st' & Heq & fresh & -> & Hlen & Hall & Hacc).
  exists fresh, st'. cbn [app] in *. auto.
Qed.

End DetailLoop.

(** ** What the adapter serves *)

Module ServeFacts.

Import Binary64 Binary64Facts JS Effects EffectsFacts Synth SynthFacts SynthDetails.
Import LoopFacts Api JSFacts ApiFacts ParseFacts.
Import FixedFacts NegFacts CoordFacts DetailFacts DetailLoop.

Lemma generate_all_details cities max acc w st :
  fair w ->
  returns (generate_all cities max acc) w st
    (fun props st' =>
       exists fresh, props = (acc ++ fresh)%list /\
                     Forall (fun p => exists c, In c cities /\ complete c p) fresh /\
                     accounted w st fresh st').
Proof.
  intros Hw. revert acc st. induction cities as [|c cities IH]; intros acc st; cbn [generate_all].
  - apply returns_ret. exists []. rewrite app_nil_r.
    split; [reflexivity|]. split; [constructor|apply accounted_nil].
  - apply returns_bind.
    destruct (generateProperties_details c (Some max) w st Hw)
      as (ps & st1 & Heq & _ & Hall & Hacc).
    unfold returns at 1. rewrite Heq.
    eapply returns_weaken; [apply IH|].
    intros props st2 (fresh & -> & Hfresh & Hacc2).
    exists (ps ++ fresh)%list. rewrite <- app_assoc.
    split; [reflexivity|]. split; [|now apply (accounted_app w st ps st1)].
    apply Forall_app. split.
    + eapply Forall_impl; [|exact Hall]. intros p Hp. exists c. split; [now left|exact Hp].
    + eapply Forall_impl; [|exact Hfresh]. intros p (c' & Hin & Hp).
      exists c'. split; [now right|exact Hp].
Qed.

Lemma select_details city all max w st :
  fair w -> is_true all = true \/ truthy city = true ->
  exists props st',
    select_properties city all max w st = Returned (Some props) st' /\
    Forall (fun p => exists c, (if is_true all then In c CITIES else city = Some c) /\
                               complete c p) props /\
    accounted w st props st'.
Proof.
  intros Hw Hsel. unfold select_properties, bind. destruct (is_true all) eqn:Hall.
  - destruct (returns_inv _ _ _ _ (generate_all_details CITIES max [] w st Hw))
      as (props & st' & Heq & fresh & -> & Hfresh & Hacc).
    rewrite Heq. exists fresh, st'. cbn [app]. auto.
  - destruct Hsel as [Hsel|Hsel]; [discriminate|]. rewrite Hsel.
    destruct (truthy_inv _ Hsel) as (c & s & ->). cbn [or_else].
    destruct (generateProperties_details (String c s) (Some max) w st Hw)
      as (ps & st' & Heq & _ & Hps & Hacc).
    rewrite Heq. exists ps, st'. split; [reflexivity|]. split; [|exact Hacc].
    eapply Forall_impl; [|exact Hps]. intros p Hp. exists (String c s). now split.
Qed.

(** The headers of whatever [render] sends begin with the CORS headers. *)
Lemma render_headers city format selected :
  exists rest, headers (render city format selected) = (cors_headers ++ rest)%list.
Proof.
  unfold render. destruct selected as [props|].
  - destruct (String.eqb _ _).
    + eexists. reflexivity.
    + exists []. now rewrite app_nil_r.
  - exists []. now rewrite app_nil_r.
Qed.

Lemma serve_inv q w st response st' :
  serve q w st = Returned response st' ->
  exists selected, response = render (q_city q) (q_format q) selected.
Proof.
  unfold serve, bind, ret.
  destruct (select_properties _ _ _ w st) as [e st1|selected st1]; [discriminate|].
  intros H. injection H as <- _. now exists selected.
Qed.

(** The characters of a generated line. *)
Lemma In_plain (s : string) (l : list string) :
  Forall plain l -> In s l -> plain s.
Proof. intros H Hin. rewrite Forall_forall in H. now apply H. Qed.

Lemma streets_plain : Forall plain streets.
Proof. repeat constructor. Qed.

Lemma propertyTypes_plain : Forall plain propertyTypes.
Proof. repeat constructor. Qed.

Lemma roster_plain : Forall plain CITIES.
Proof. repeat constructor. Qed.

Lemma plain_app a b : plain a -> plain b -> plain (a ++ b).
Proof.
  intros [Ha1 Ha2] [Hb1 Hb2]. split; rewrite occurrences_app; lia.
Qed.

Lemma csv_row_characters c p :
  complete c p ->
  occurrences comma (csv_row p) = (12 + occurrences comma c)%nat /\
  occurrences quote_mark (csv_row p) = (16 + occurrences quote_mark c)%nat.
Proof.
  intros (((Hcity & Hstate) & Hrange & _) & (Hid & Hlisted & _) & _).
  destruct Hrange as (_ & _ & _ & _ & _ & (t & Ht & Htype)).
  destruct Hid as ((z & _ & Hpid) & (m & _ & Hmls) & (n & street & _ & Hstreet & Haddr) &
                   (zip & _ & Hzip)).
  destruct Hlisted as (Hstatus & _).
  assert (P1 : plain (propertyId p)).
  { rewrite Hpid. apply plain_app; [now split|apply Int_toString_plain]. }
  assert (P2 : plain (mlsId p)).
  { rewrite Hmls. apply plain_app; [now split|apply Int_toString_plain]. }
  assert (P3 : plain (streetAddress p)).
  { rewrite Haddr. apply plain_app; [apply Int_toString_plain|].
    apply plain_app; [now split|]. exact (In_plain _ _ streets_plain Hstreet). }
  assert (P5 : plain (state p)) by (rewrite Hstate; now split).
  assert (P6 : plain (zipCode p)) by (rewrite Hzip; apply Int_toString_plain).
  assert (P7 : plain (template (propertyType p))).
  { rewrite Htype. exact (In_plain _ _ propertyTypes_plain Ht). }
  assert (P8 : plain (listingStatus p)) by (rewrite Hstatus; now split).
  pose proof (Int_toString_plain (price p)) as N1.
  pose proof (Int_toString_plain (bedrooms p)) as N2.
  pose proof (Number_toString_plain (bathrooms p)) as N3.
  pose proof (Int_toString_plain (sqft p)) as N4.
  pose proof (Int_toString_plain (yearBuilt p)) as N5.
  unfold plain in *.
  unfold csv_row, quoted. rewrite Hcity. repeat rewrite occurrences_app.
  destruct P1 as [-> ->], P2 as [-> ->], P3 as [-> ->], P5 as [-> ->], P6 as [-> ->],
           P7 as [-> ->], P8 as [-> ->], N1 as [-> ->], N2 as [-> ->], N3 as [-> ->],
           N4 as [-> ->], N5 as [-> ->].
  split; cbn; lia.
Qed.

End ServeFacts.

(** ** Leading digits *)

Module ParseMore.
Import Binary64 JS Synth SynthDetails Api ParseFacts.

Lemma digits_fuel_app fuel n acc rest :
  digits_fuel fuel n acc ++ rest = digits_fuel fuel n (acc ++ rest).
Proof.
  revert n acc. induction fuel as [|fuel IH]; intros n acc; cbn [digits_fuel].
  - reflexivity.
  - destruct (n <? 10); [reflexivity|]. now rewrite IH.
Qed.

Lemma parse_digits_stops rest acc : stops rest = true -> parse_digits 10 rest acc = acc.
Proof.
  destruct rest as [|c rest]; [reflexivity|]. cbn [stops parse_digits].
  destruct (digit_value c); [discriminate|reflexivity].
Qed.

Lemma digits_fuel_head fuel n acc :
  exists c s, digits_fuel fuel n acc = String c s /\ is_digit c = true /\
              (s = acc \/ exists c' s', s = String c' s' /\ is_digit c' = true).
Proof.
  revert n acc. induction fuel as [|fuel IH]; intros n acc; cbn [digits_fuel].
  - exists (digit_char (n mod 10)), acc.
    split; [reflexivity|]. split; [apply is_digit_char, Z.mod_pos_bound; lia|now left].
  - destruct (n <? 10).
    + exists (digit_char (n mod 10)), acc.
      split; [reflexivity|]. split; [apply is_digit_char, Z.mod_pos_bound; lia|now left].
    + destruct (IH (n / 10) (String (digit_char (n mod 10)) acc)) as (c & s & -> & Hc & Hs).
      exists c, s. split; [reflexivity|]. split; [exact Hc|]. right.
      destruct Hs as [->|Hs]; [|exact Hs].
      exists (digit_char (n mod 10)), acc.
      split; [reflexivity|apply is_digit_char, Z.mod_pos_bound; lia].
Qed.

(** After a decimal digit, a character that is neither [x] nor [X] keeps the
    numeral decimal. *)
Lemma parseInt_decimal c s :
  is_digit c = true ->
  match s with
  | String c' _ => match digit_value c' with Some d => d <? 10 | None => true end
  | EmptyString => true
  end = true ->
  parseInt (String c s) =
  option_map (fun v => nearest (1 * v)) (parse_digits 10 (String c s) None).
Proof.
  intros Hc Hs. destruct s as [|c' s].
  - destruct c as [[] [] [] [] [] [] [] []]; try discriminate Hc; reflexivity.
  - destruct c as [[] [] [] [] [] [] [] []]; try discriminate Hc; try reflexivity.
    destruct c' as [[] [] [] [] [] [] [] []]; try discriminate Hs; reflexivity.
Qed.

Lemma is_digit_value c : is_digit c = true -> exists d, digit_value c = Some d /\ d < 10.
Proof.
  unfold is_digit, digit_value. intros H. rewrite H.
  apply andb_true_iff in H. destruct H as [_ H]. apply Z.leb_le in H.
  eexists. split; [reflexivity|lia].
Qed.

Lemma parseInt_leading_digits n rest :
  0 <= n -> stops rest = true -> parseInt (digits n ++ rest) = Some (nearest n).
Proof.
  intros Hn Hrest. unfold digits. rewrite digits_fuel_app. cbn [append].
  destruct (digits_fuel_head (Z.to_nat (Z.log2 n)) n rest) as (c & s & Heq & Hc & Hs).
  rewrite Heq, parseInt_decimal; [| exact Hc |].
  - rewrite <- Heq, parse_digits_fuel; [|exact Hn|pose proof (Z.log2_nonneg n); lia].
    rewrite parse_digits_stops by exact Hrest. cbn [option_map]. f_equal. f_equal. lia.
  - destruct Hs as [->|(c' & s' & -> & Hc')].
    + destruct rest as [|c' rest]; [reflexivity|]. cbn [stops] in Hrest.
      destruct (digit_value c'); [discriminate|reflexivity].
    + destruct (is_digit_value c' Hc') as (d & -> & Hd). now apply Z.ltb_lt.
Qed.

End ParseMore.

(** ** The synthesizer and its adapter *)

Module Extras.

Import Binary64 Binary64Facts JS Effects EffectsFacts Synth SynthFacts SynthDetails.
Import LoopFacts Api JSFacts ApiFacts ParseFacts Samples.
Import FixedFacts NegFacts CoordFacts DetailFacts DetailLoop ServeFacts ParseMore.

Ltac per_record c count w st Hw :=
  let props := fresh "props" in
  let st' := fresh "st'" in
  let Heq := fresh "Heq" in
  let Hall := fresh "Hall" in
  destruct (generateProperties_details c count w st Hw) as (props & st' & Heq & _ & Hall & _);
  exists props, st'; split; [exact Heq|];
  eapply Forall_impl; [|exact Hall].

(** X1.  The identifiers of every generated record are written from bounded
    integers: propertyId is ZPID followed by an integer from 0 to 99999999,
    mlsId is MLS followed by an integer from 0 to 999999 (neither is padded),
    the street address is a house number from 100 to 9999, a space and one of
    the eight street names, and the ZIP code is the decimal writing of an
    integer from 32700 to 33699. *)
Theorem generated_identifiers (c : string) (count : option Z) (w : World) (st : Store) :
  fair w ->
  exists props st',
    generateProperties c count w st = Returned props st' /\
    Forall (fun p =>
      (exists z, 0 <= z <= 99999999 /\ propertyId p = "ZPID" ++ Int_toString z) /\
      (exists m, 0 <= m <= 999999 /\ mlsId p = "MLS" ++ Int_toString m) /\
      (exists n street, 100 <= n <= 9999 /\ In street streets /\
                        streetAddress p = Int_toString n ++ " " ++ street) /\
      (exists z, 32700 <= z <= 33699 /\ zipCode p = Int_toString z)) props.
Proof.
  intros Hw. per_record c count w st Hw.
  intros p (_ & (Hid & _) & _). exact Hid.
Qed.

Lemma generated_identifiers_sample :
  exists props st',
    generateProperties "Orlando" (Some 2) sample_world fresh_store = Returned props st' /\
    Forall (fun p =>
      (exists z, 0 <= z <= 99999999 /\ propertyId p = "ZPID" ++ Int_toString z) /\
      (exists m, 0 <= m <= 999999 /\ mlsId p = "MLS" ++ Int_toString m) /\
      (exists n street, 100 <= n <= 9999 /\ In street streets /\
                        streetAddress p = Int_toString n ++ " " ++ street) /\
      (exists z, 32700 <= z <= 33699 /\ zipCode p = Int_toString z)) props.
Proof.
  apply (generated_identifiers "Orlando" (Some 2) sample_world fresh_store).
  exact Claims.sample_world_fair.
Defined.

(** X2.  Every generated record is an active listing for sale from the
    sample generator: it has been on the market from 0 to 89 days, its HOA fee
    is null or an integer from 50 to 349, and it carries the same four image
    addresses. *)
Theorem generated_listing_metadata (c : string) (count : option Z) (w : World) (st : Store) :
  fair w ->
  exists props st',
    generateProperties c count w st = Returned props st' /\
    Forall (fun p =>
      listingStatus p = "FOR_SALE" /\
      0 <= daysOnMarket p <= 89 /\
      (hoaFee p = None \/ exists h, hoaFee p = Some h /\ 50 <= h <= 349) /\
      images p = image_urls /\ List.length (images p) = 4%nat /\
      dataSource p = "sample-generator" /\ isActive p = true) props.
Proof.
  intros Hw. per_record c count w st Hw.
  intros p (_ & (_ & Hl & _) & _). exact Hl.
Qed.

Lemma generated_listing_metadata_sample :
  exists props st',
    generateProperties "Tampa" None sample_world fresh_store = Returned props st' /\
    Forall (fun p =>
      listingStatus p = "FOR_SALE" /\
      0 <= daysOnMarket p <= 89 /\
      (hoaFee p = None \/ exists h, hoaFee p = Some h /\ 50 <= h <= 349) /\
      images p = image_urls /\ List.length (images p) = 4%nat /\
      dataSource p = "sample-generator" /\ isActive p = true) props.
Proof.
  apply (generated_listing_metadata "Tampa" None sample_world fresh_store).
  exact Claims.sample_world_fair.
Defined.

(** X3.  The four agent fields of a generated record belong to one and the
    same agent of the roster: name, phone, e-mail and broker are never mixed
    between agents. *)
Theorem generated_agent_fields_agree (c : string) (count : option Z) (w : World) (st : Store) :
  fair w ->
  exists props st',
    generateProperties c count w st = Returned props st' /\
    Forall (fun p =>
      exists a, In a agents /\
                agentName p = name a /\ agentPhone p = phone a /\
                agentEmail p = email a /\ brokerName p = broker a) props.
Proof.
  intros Hw. per_record c count w st Hw.
  intros p (_ & (_ & _ & Hr & _) & _). exact Hr.
Qed.

Lemma generated_agent_fields_agree_sample :
  exists props st',
    generateProperties "Deltona" (Some 3) sample_world fresh_store = Returned props st' /\
    Forall (fun p =>
      exists a, In a agents /\
                agentName p = name a /\ agentPhone p = phone a /\
                agentEmail p = email a /\ brokerName p = broker a) props.
Proof.
  apply (generated_agent_fields_agree "Deltona" (Some 3) sample_world fresh_store).
  exact Claims.sample_world_fair.
Defined.

(** X4.  Every generated record lists three schools, in the order
    elementary, middle, high, each named after the city: the elementary
    school has grades K-5, a rating from 7 to 9 and a distance from 0.5 to
    2.5; the middle school grades 6-8, a rating from 6 to 9 and a distance
    from 1 to 4; the high school grades 9-12, a rating from 7 to 9 and a
    distance from 2 to 6. *)
Theorem generated_schools (c : string) (count : option Z) (w : World) (st : Store) :
  fair w ->
  exists props st',
    generateProperties c count w st = Returned props st' /\
    Forall (fun p =>
      exists e m h,
        schools p = [e; m; h] /\
        school_within (c ++ " Elementary School") "K-5" 7 9 0.5 2.5 e /\
        school_within (c ++ " Middle School") "6-8" 6 9 1 4 m /\
        school_within (c ++ " High School") "9-12" 7 9 2 6 h) props.
Proof.
  intros Hw. per_record c count w st Hw.
  intros p (_ & (_ & _ & _ & Hs & _) & _). exact Hs.
Qed.

Lemma generated_schools_sample :
  exists props st',
    generateProperties "Oviedo" (Some 2) sample_world fresh_store = Returned props st' /\
    Forall (fun p =>
      exists e m h,
        schools p = [e; m; h] /\
        school_within ("Oviedo" ++ " Elementary School") "K-5" 7 9 0.5 2.5 e /\
        school_within ("Oviedo" ++ " Middle School") "6-8" 6 9 1 4 m /\
        school_within ("Oviedo" ++ " High School") "9-12" 7 9 2 6 h) props.
Proof.
  apply (generated_schools "Oviedo" (Some 2) sample_world fresh_store).
  exact Claims.sample_world_fair.
Defined.

(** X5.  The coordinates of every generated record are printed with six
    decimals and lie in a fixed box: the latitude is n millionths of a degree
    with n from 28500000 to 29000000 ("28.500000" to "29.000000"), and the
    longitude is a minus sign and n millionths with n from 80900000 to
    81400000 ("-81.400000" to "-80.900000").  The ends that a draw of exactly
    one would give are reached, by rounding, at the largest draw below one. *)
Theorem generated_coordinates_boxed (c : string) (count : option Z) (w : World) (st : Store) :
  fair w ->
  (exists props st',
     generateProperties c count w st = Returned props st' /\
     Forall (fun p =>
       (exists n, 28500000 <= n <= 29000000 /\ latitude p = fixed_digits n 6) /\
       (exists n, 80900000 <= n <= 81400000 /\ longitude p = "-" ++ fixed_digits n 6)) props) /\
  fixed_digits 28500000 6 = "28.500000" /\ fixed_digits 80900000 6 = "80.900000" /\
  toFixed (28.5 + pred1 * 0.5) 6 = "29.000000" /\
  toFixed (-81.4 + pred1 * 0.5) 6 = "-80.900000".
Proof.
  intros Hw. split; [|repeat split; vm_compute; reflexivity].
  per_record c count w st Hw.
  intros p (_ & (_ & _ & _ & _ & Hb) & _). exact Hb.
Qed.

Lemma generated_coordinates_boxed_sample :
  (exists props st',
     generateProperties "Sanford" (Some 2) sample_world fresh_store = Returned props st' /\
     Forall (fun p =>
       (exists n, 28500000 <= n <= 29000000 /\ latitude p = fixed_digits n 6) /\
       (exists n, 80900000 <= n <= 81400000 /\ longitude p = "-" ++ fixed_digits n 6)) props) /\
  fixed_digits 28500000 6 = "28.500000" /\ fixed_digits 80900000 6 = "80.900000" /\
  toFixed (28.5 + pred1 * 0.5) 6 = "29.000000" /\
  toFixed (-81.4 + pred1 * 0.5) 6 = "-80.900000".
Proof.
  apply (generated_coordinates_boxed "Sanford" (Some 2) sample_world fresh_store).
  exact Claims.sample_world_fair.
Defined.

(** X6.  The description of a generated record states the record's own
    bedrooms, bathrooms and area and the city; it recommends the home to
    large families exactly when there are four bedrooms or more.  The kind of
    home it names is one of the four property types in lower case, drawn on
    its own: it need not be the record's propertyType. *)
Theorem generated_descriptions (c : string) (count : option Z) (w : World) (st : Store) :
  fair w ->
  exists props st',
    generateProperties c count w st = Returned props st' /\
    Forall (fun p =>
      exists kind renovation,
        In kind [ "single family"; "condo"; "townhouse"; "multi-family" ] /\
        In renovation [ "Recently renovated with new appliances and flooring.";
                        "Move-in ready with excellent curb appeal." ] /\
        description p =
          "Beautiful " ++ Int_toString (bedrooms p) ++ " bedroom, " ++
          Number_toString (bathrooms p) ++ " bathroom " ++ kind ++ " in " ++ c ++
          ". This stunning property features " ++ Int_toString (sqft p) ++
          " sq ft of living space with modern amenities, updated kitchen, and spacious living areas. Great location close to schools, shopping, and entertainment. " ++
          renovation ++ " Perfect for " ++
          (if 4 <=? bedrooms p then "large families" else "first-time buyers or investors") ++
          ".") props.
Proof.
  intros Hw.
  destruct (generateProperties_details c count w st Hw) as (props & st' & Heq & _ & Hall & _).
  exists props, st'. split; [exact Heq|].
  eapply Forall_impl; [|exact Hall].
  intros p (_ & _ & Hd & _). exact Hd.
Qed.

Lemma generated_descriptions_sample :
  exists props st',
    generateProperties "Lakeland" (Some 2) sample_world fresh_store = Returned props st' /\
    Forall (fun p =>
      exists kind renovation,
        In kind [ "single family"; "condo"; "townhouse"; "multi-family" ] /\
        In renovation [ "Recently renovated with new appliances and flooring.";
                        "Move-in ready with excellent curb appeal." ] /\
        description p =
          "Beautiful " ++ Int_toString (bedrooms p) ++ " bedroom, " ++
          Number_toString (bathrooms p) ++ " bathroom " ++ kind ++ " in " ++ "Lakeland" ++
          ". This stunning property features " ++ Int_toString (sqft p) ++
          " sq ft of living space with modern amenities, updated kitchen, and spacious living areas. Great location close to schools, shopping, and entertainment. " ++
          renovation ++ " Perfect for " ++
          (if 4 <=? bedrooms p then "large families" else "first-time buyers or investors") ++
          ".") props.
Proof.
  apply (generated_descriptions "Lakeland" (Some 2) sample_world fresh_store).
  exact Claims.sample_world_fair.
Defined.

(** X7.  Generating records costs 27 draws per record, and one more for a
    record with an HOA fee, and one reading of the clock per record: after
    [generateProperties] the draw counter has advanced by the sum of these
    costs, between 27 and 28 times the number of records, the clock counter by
    the number of records, and the i-th record is stamped with the i-th
    reading. *)
Theorem generation_accounting (c : string) (count : option Z) (w : World) (st : Store) :
  fair w ->
  exists props st',
    generateProperties c count w st = Returned props st' /\
    random_calls st' = (random_calls st + list_sum (map draws_of props))%nat /\
    (random_calls st + 27 * List.length props <= random_calls st'
       <= random_calls st + 28 * List.length props)%nat /\
    clock_calls st' = (clock_calls st + List.length props)%nat /\
    map scrapedAt props = map (clock_seq w) (seq (clock_calls st) (List.length props)).
Proof.
  intros Hw.
  destruct (generateProperties_details c count w st Hw)
    as (props & st' & Heq & _ & _ & (Hr & Hc & Hs)).
  exists props, st'. split; [exact Heq|]. split; [exact Hr|].
  pose proof (draws_bounds props) as Hb. unfold draws in *.
  split; [lia|]. split; [exact Hc|exact Hs].
Qed.

Lemma generation_accounting_sample :
  exists props st',
    generateProperties "Orlando" (Some 3) sample_world fresh_store = Returned props st' /\
    random_calls st' = (random_calls fresh_store + list_sum (map draws_of props))%nat /\
    (random_calls fresh_store + 27 * List.length props <= random_calls st'
       <= random_calls fresh_store + 28 * List.length props)%nat /\
    clock_calls st' = (clock_calls fresh_store + List.length props)%nat /\
    map scrapedAt props =
    map (clock_seq sample_world) (seq (clock_calls fresh_store) (List.length props)).
Proof.
  apply (generation_accounting "Orlando" (Some 3) sample_world fresh_store).
  exact Claims.sample_world_fair.
Defined.

(** X8.  With fair draws the status of the response depends on the method
    and on the selection alone: 200 for OPTIONS, 405 for any other method than
    GET, and for GET 200 when all is the string true or the city is not
    empty, 400 otherwise.  In particular the handler never answers 500. *)
Theorem handler_status (req : Request) (w : World) (st : Store) :
  fair w ->
  status (fst (handler req w st)) =
    (if String.eqb (method req) "OPTIONS" then 200
     else if negb (String.eqb (method req) "GET") then 405
     else if is_true (q_all (query req)) || truthy (q_city (query req)) then 200
     else 400) /\
  status (fst (handler req w st)) <> 500.
Proof.
  intros Hw.
  assert (Hs : status (fst (handler req w st)) =
    (if String.eqb (method req) "OPTIONS" then 200
     else if negb (String.eqb (method req) "GET") then 405
     else if is_true (q_all (query req)) || truthy (q_city (query req)) then 200
     else 400)).
  { unfold handler.
    destruct (String.eqb (method req) "OPTIONS"); [reflexivity|].
    destruct (String.eqb (method req) "GET"); cbn [negb]; [|reflexivity].
    unfold serve, bind.
    destruct (is_true (q_all (query req)) || truthy (q_city (query req))) eqn:Hsel.
    - apply orb_true_iff in Hsel.
      destruct (select_some (q_city (query req)) (q_all (query req))
                  (maxProperties (q_limit (query req))) w st Hw Hsel) as (props & st' & ->).
      cbn [ret fst]. unfold render. destruct (String.eqb _ _); reflexivity.
    - apply orb_false_iff in Hsel. destruct Hsel as [Hall Hcity].
      unfold select_properties. rewrite Hall, Hcity. reflexivity. }
  split; [exact Hs|]. rewrite Hs.
  repeat match goal with |- context [if ?b then _ else _] => destruct b end; discriminate.
Qed.

Lemma handler_status_sample :
  status (fst (handler (GET (Some "Tampa") (Some "3") None None) sample_world fresh_store)) =
    (if String.eqb (method (GET (Some "Tampa") (Some "3") None None)) "OPTIONS" then 200
     else if negb (String.eqb (method (GET (Some "Tampa") (Some "3") None None)) "GET") then 405
     else if is_true (q_all (query (GET (Some "Tampa") (Some "3") None None)))
             || truthy (q_city (query (GET (Some "Tampa") (Some "3") None None))) then 200
     else 400) /\
  status (fst (handler (GET (Some "Tampa") (Some "3") None None) sample_world fresh_store)) <> 500.
Proof.
  apply (handler_status (GET (Some "Tampa") (Some "3") None None) sample_world fresh_store).
  exact Claims.sample_world_fair.
Defined.

(** X9.  Every response of the handler, whatever the request and whatever
    the draws (the 405 and the 500 included), carries the three CORS headers,
    set before anything else. *)
Theorem handler_cors_always (req : Request) (w : World) (st : Store) :
  exists rest,
    headers (fst (handler req w st)) =
    ([ ("Access-Control-Allow-Origin", "*");
       ("Access-Control-Allow-Methods", "GET, OPTIONS");
       ("Access-Control-Allow-Headers", "Content-Type") ] ++ rest)%list.
Proof.
  unfold handler.
  destruct (String.eqb (method req) "OPTIONS"); [exists []; reflexivity|].
  destruct (negb (String.eqb (method req) "GET")); [exists []; reflexivity|].
  destruct (serve (query req) w st) as [e st'|response st'] eqn:Hserve.
  - exists []. reflexivity.
  - destruct (serve_inv _ _ _ _ _ Hserve) as (selected & ->). apply render_headers.
Qed.

(** X10.  Only a GET request with a selection generates anything: an
    OPTIONS request, a request with another method and a GET request without
    selection leave the draw and clock counters as they were, whatever the
    query says. *)
Theorem nothing_generated_without_selection (req : Request) (w : World) (st : Store) :
  String.eqb (method req) "GET" = false \/
  (is_true (q_all (query req)) = false /\ truthy (q_city (query req)) = false) ->
  snd (handler req w st) = st /\
  (forall w', handler req w' st = handler req w st).
Proof.
  intros Hcase. unfold handler.
  destruct (String.eqb (method req) "OPTIONS"); [split; reflexivity|].
  destruct (String.eqb (method req) "GET") eqn:Hget; cbn [negb]; [|split; reflexivity].
  destruct Hcase as [Hm|[Hall Hcity]]; [discriminate|].
  unfold serve, bind, select_properties. rewrite Hall, Hcity. split; reflexivity.
Qed.

Lemma nothing_generated_without_selection_sample :
  snd (handler {| method := "POST";
                  query := {| q_city := Some "Orlando"; q_limit := Some "50";
                              q_all := Some "true"; q_format := Some "csv" |} |}
               sample_world fresh_store) = fresh_store /\
  (forall w',
      handler {| method := "POST";
                 query := {| q_city := Some "Orlando"; q_limit := Some "50";
                             q_all := Some "true"; q_format := Some "csv" |} |}
              w' fresh_store =
      handler {| method := "POST";
                 query := {| q_city := Some "Orlando"; q_limit := Some "50";
                             q_all := Some "true"; q_format := Some "csv" |} |}
              sample_world fresh_store).
Proof.
  apply (nothing_generated_without_selection
           {| method := "POST";
              query := {| q_city := Some "Orlando"; q_limit := Some "50";
                          q_all := Some "true"; q_format := Some "csv" |} |}
           sample_world fresh_store).
  left. reflexivity.
Defined.

(** X11.  The CSV export escapes nothing.  With fair draws, every line of a
    successful export holds twelve commas and sixteen double quotes besides
    those of the record's city, which is written as it came: a line has 13
    fields plus one for every comma in the city name.  In the all-cities mode
    the cities are those of the roster and every line has exactly 13 fields,
    as many as the header. *)
Theorem csv_lines_unescaped (city limit all : option string) (w : World) (st : Store) :
  fair w -> is_true all = true \/ truthy city = true ->
  exists props st',
    handler (GET city limit all (Some "csv")) w st = (csv_response city props, st') /\
    Forall (fun p =>
      (if is_true all then In (Synth.city p) CITIES else city = Some (Synth.city p)) /\
      field_count (csv_row p) = (13 + occurrences comma (Synth.city p))%nat /\
      occurrences quote_mark (csv_row p) = (16 + occurrences quote_mark (Synth.city p))%nat)
      props /\
    (is_true all = true ->
     Forall (fun p => field_count (csv_row p) = field_count csvHeader) props).
Proof.
  intros Hw Hsel.
  destruct (select_details city all (maxProperties limit) w st Hw Hsel)
    as (props & st' & Heq & Hall & _).
  exists props, st'. split; [exact (handler_selected _ _ _ _ _ _ _ _ Heq)|].
  assert (Hrows : Forall (fun p =>
      (if is_true all then In (Synth.city p) CITIES else city = Some (Synth.city p)) /\
      field_count (csv_row p) = (13 + occurrences comma (Synth.city p))%nat /\
      occurrences quote_mark (csv_row p) = (16 + occurrences quote_mark (Synth.city p))%nat)
      props).
  { eapply Forall_impl; [|exact Hall]. intros p (c & Hc & Hp).
    destruct (csv_row_characters c p Hp) as [Hcommas Hquotes].
    destruct Hp as (((Hcity & _) & _) & _). rewrite Hcity. unfold field_count.
    split; [exact Hc|]. split; [now rewrite Hcommas|exact Hquotes]. }
  split; [exact Hrows|]. intros Htrue. rewrite Htrue in Hrows.
  eapply Forall_impl; [|exact Hrows]. intros p (Hin & Hfields & _).
  rewrite Hfields. destruct (In_plain _ _ roster_plain Hin) as [-> _]. reflexivity.
Qed.

Lemma csv_lines_unescaped_sample :
  exists props st',
    handler (GET (Some "Lake Mary, FL") (Some "2") None (Some "csv")) sample_world fresh_store
      = (csv_response (Some "Lake Mary, FL") props, st') /\
    Forall (fun p =>
      (if is_true None then In (Synth.city p) CITIES
       else Some "Lake Mary, FL" = Some (Synth.city p)) /\
      field_count (csv_row p) = (13 + occurrences comma (Synth.city p))%nat /\
      occurrences quote_mark (csv_row p) = (16 + occurrences quote_mark (Synth.city p))%nat)
      props /\
    (is_true None = true ->
     Forall (fun p => field_count (csv_row p) = field_count csvHeader) props).
Proof.
  apply (csv_lines_unescaped (Some "Lake Mary, FL") (Some "2") None sample_world fresh_store);
    [exact Claims.sample_world_fair|right; reflexivity].
Defined.

(** X12.  A successful GET request, in either format, generates one record
    per city and unit of the count: fifteen times the count in the all-cities
    mode, the count itself for one city, none when the count is negative.  It
    reads the clock once per record, and the records are stamped with these
    readings in the order in which they are sent. *)
Theorem request_accounting (city limit all format : option string) (w : World) (st : Store) :
  fair w -> is_true all = true \/ truthy city = true ->
  exists props st',
    handler (GET city limit all format) w st = (render city format (Some props), st') /\
    List.length props =
      ((if is_true all then 15 else 1) * Z.to_nat (maxProperties limit))%nat /\
    clock_calls st' = (clock_calls st + List.length props)%nat /\
    map scrapedAt props = map (clock_seq w) (seq (clock_calls st) (List.length props)).
Proof.
  intros Hw Hsel.
  destruct (select_details city all (maxProperties limit) w st Hw Hsel)
    as (props & st' & Heq & _ & (_ & Hc & Hs)).
  exists props, st'. split; [exact (handler_selected _ _ _ _ _ _ _ _ Heq)|].
  split; [|split; [exact Hc|exact Hs]].
  destruct (is_true all) eqn:Hall.
  - apply is_true_inv in Hall. subst all.
    destruct (select_all city (maxProperties limit) w st Hw)
      as (props' & st'' & segs & Heq' & -> & Hsegs).
    rewrite Heq in Heq'. injection Heq' as -> _.
    now rewrite (segmented_length _ _ _ Hsegs).
  - destruct Hsel as [Hsel|Hsel]; [discriminate|].
    destruct (truthy_inv _ Hsel) as (c & s & ->).
    destruct (select_one c s all (maxProperties limit) w st Hw Hall)
      as (props' & st'' & Heq' & Hlen & _).
    rewrite Heq in Heq'. injection Heq' as -> _. lia.
Qed.

Lemma request_accounting_sample :
  exists props st',
    handler (GET None (Some "2") (Some "true") (Some "csv")) sample_world fresh_store
      = (render None (Some "csv") (Some props), st') /\
    List.length props =
      ((if is_true (Some "true") then 15 else 1) * Z.to_nat (maxProperties (Some "2")))%nat /\
    clock_calls st' = (clock_calls fresh_store + List.length props)%nat /\
    map scrapedAt props =
    map (clock_seq sample_world) (seq (clock_calls fresh_store) (List.length props)).
Proof.
  apply (request_accounting None (Some "2") (Some "true") (Some "csv") sample_world fresh_store);
    [exact Claims.sample_world_fair|left; reflexivity].
Defined.

(** X13.  The limit is read as far as its leading decimal digits go: when
    the decimal writing of a positive integer n is followed by nothing, or by
    a character that is neither a digit nor a letter (a point, a comma, a
    space, a percent sign), the count per city is n.  So limit=7.9 gives 7 and
    limit=10,000 gives 10.  (Integers up to 2^53 are the ones a JavaScript
    number holds exactly.) *)
Theorem limit_reads_leading_digits (n : Z) (rest : string) :
  0 < n <= 2 ^ 53 -> stops rest = true ->
  maxProperties (Some (digits n ++ rest)) = n.
Proof.
  intros Hn Hrest. unfold maxProperties. cbn [default_to].
  rewrite parseInt_leading_digits by (lia || exact Hrest).
  rewrite NearestFacts.nearest_exact by lia.
  destruct (Z.eqb_spec n 0); [lia|reflexivity].
Qed.

Lemma limit_reads_leading_digits_sample :
  maxProperties (Some (digits 10 ++ ",000")) = 10.
Proof.
  apply (limit_reads_leading_digits 10 ",000"); [lia|reflexivity].
Defined.

(** X23.  The price of every generated record is a whole number of
    thousands, from 150000 to 1049000, and follows the area: it lies between
    150 and 300 dollars per square foot, each cut down to whole thousands.
    The price is computed in binary64, with a product, a sum, another product
    and a division by 1000, before it is floored. *)
Theorem generated_prices (c : string) (count : option Z) (w : World) (st : Store) :
  fair w ->
  exists props st',
    generateProperties c count w st = Returned props st' /\
    Forall (fun p =>
      sqft p * 150 / 1000 * 1000 <= price p <= sqft p * 300 / 1000 * 1000 /\
      (exists k, 150 <= k <= 1049 /\ price p = k * 1000)) props.
Proof.
  intros Hw. per_record c count w st Hw.
  intros p (_ & _ & _ & Hp & _). exact Hp.
Qed.

Lemma generated_prices_sample :
  exists props st',
    generateProperties "Kissimmee" (Some 3) sample_world fresh_store = Returned props st' /\
    Forall (fun p =>
      sqft p * 150 / 1000 * 1000 <= price p <= sqft p * 300 / 1000 * 1000 /\
      (exists k, 150 <= k <= 1049 /\ price p = k * 1000)) props.
Proof.
  apply (generated_prices "Kissimmee" (Some 3) sample_world fresh_store).
  exact Claims.sample_world_fair.
Defined.

(** X24.  The amounts derived from the price, in integers.  In every
    generated record the rent estimate is exactly 0.6 % of the price, the
    estimate lies between 95 % and 105 % of the price, the lot is from twice
    to five times the living area, the earlier listing price is exactly 105 %
    of the price, and the 2024 assessment and tax are exactly 85 % and 1.2 % of
    it; the 2023 assessment and tax are 82 % and 1.1 % of the price rounded
    down, or one dollar less: the binary64 product can fall just below the
    integer. *)
Theorem generated_amounts (c : string) (count : option Z) (w : World) (st : Store) :
  fair w ->
  exists props st',
    generateProperties c count w st = Returned props st' /\
    Forall (fun p =>
      rentZestimate p = price p * 6 / 1000 /\
      price p * 95 / 100 <= zestimate p <= price p * 105 / 100 /\
      2 * sqft p <= lotSize p <= 5 * sqft p /\
      (exists e1 e2, priceHistory p = [e1; e2] /\ pe_price e1 = price p /\
                     pe_price e2 = price p * 105 / 100) /\
      (exists y1 y2, taxHistory p = [y1; y2] /\
                     ty_value y1 = price p * 85 / 100 /\ ty_tax y1 = price p * 12 / 1000 /\
                     price p * 82 / 100 - 1 <= ty_value y2 <= price p * 82 / 100 /\
                     price p * 11 / 1000 - 1 <= ty_tax y2 <= price p * 11 / 1000)) props.
Proof.
  intros Hw. per_record c count w st Hw.
  intros p (_ & _ & _ & _ & Ha). exact Ha.
Qed.

Lemma generated_amounts_sample :
  exists props st',
    generateProperties "Clearwater" (Some 3) sample_world fresh_store = Returned props st' /\
    Forall (fun p =>
      rentZestimate p = price p * 6 / 1000 /\
      price p * 95 / 100 <= zestimate p <= price p * 105 / 100 /\
      2 * sqft p <= lotSize p <= 5 * sqft p /\
      (exists e1 e2, priceHistory p = [e1; e2] /\ pe_price e1 = price p /\
                     pe_price e2 = price p * 105 / 100) /\
      (exists y1 y2, taxHistory p = [y1; y2] /\
                     ty_value y1 = price p * 85 / 100 /\ ty_tax y1 = price p * 12 / 1000 /\
                     price p * 82 / 100 - 1 <= ty_value y2 <= price p * 82 / 100 /\
                     price p * 11 / 1000 - 1 <= ty_tax y2 <= price p * 11 / 1000)) props.
Proof.
  apply (generated_amounts "Clearwater" (Some 3) sample_world fresh_store).
  exact Claims.sample_world_fair.
Defined.

(** X25.  The JSON envelope of a successful GET request, in full: status
    200, the CORS headers and nothing else, success true, a count that is the
    number of properties, and a city label that is the city parameter when it
    is not empty and "all" otherwise.  For one city every record bears that
    city; in the all-cities mode the cities of the records read as the roster
    with every name repeated count times. *)
Theorem json_envelope_in_full (city limit all format : option string) (w : World) (st : Store) :
  fair w -> is_true all = true \/ truthy city = true ->
  String.eqb (default_to format "json") "csv" = false ->
  exists props st',
    handler (GET city limit all format) w st =
    ({| status := 200;
        headers := [ ("Access-Control-Allow-Origin", "*");
                     ("Access-Control-Allow-Methods", "GET, OPTIONS");
                     ("Access-Control-Allow-Headers", "Content-Type") ];
        body := Success true (array_length props) (or_else city "all") props |}, st') /\
    map Synth.city props =
      (if is_true all
       then flat_map (fun c => repeat c (Z.to_nat (maxProperties limit))) CITIES
       else repeat (or_else city "") (Z.to_nat (maxProperties limit))).
Proof.
  intros Hw Hsel Hfmt. destruct (is_true all) eqn:Hall.
  - apply is_true_inv in Hall. subst all.
    destruct (select_all city (maxProperties limit) w st Hw)
      as (props & st' & segs & Heq & -> & Hsegs).
    exists (List.concat segs), st'. split.
    + rewrite (handler_selected _ _ _ _ _ _ _ _ Heq). unfold render. now rewrite Hfmt.
    + apply (segmented_cities _ _ _ Hsegs).
  - destruct Hsel as [Hsel|Hsel]; [discriminate|].
    destruct (truthy_inv _ Hsel) as (c & s & ->).
    destruct (select_one c s all (maxProperties limit) w st Hw Hall)
      as (props & st' & Heq & Hlen & Hwf).
    exists props, st'. split.
    + rewrite (handler_selected _ _ _ _ _ _ _ _ Heq). unfold render. now rewrite Hfmt.
    + cbn [or_else]. rewrite <- Hlen. clear -Hwf.
      induction Hwf as [|p props [[Hc _] _] _ IH]; [reflexivity|].
      cbn [map List.length repeat]. now rewrite Hc, IH.
Qed.

Lemma json_envelope_in_full_sample :
  exists props st',
    handler (GET (Some "Tampa") (Some "2") None None) sample_world fresh_store =
    ({| status := 200;
        headers := [ ("Access-Control-Allow-Origin", "*");
                     ("Access-Control-Allow-Methods", "GET, OPTIONS");
                     ("Access-Control-Allow-Headers", "Content-Type") ];
        body := Success true (array_length props) (or_else (Some "Tampa") "all") props |}, st') /\
    map Synth.city props =
      (if is_true None
       then flat_map (fun c => repeat c (Z.to_nat (maxProperties (Some "2")))) CITIES
       else repeat (or_else (Some "Tampa") "") (Z.to_nat (maxProperties (Some "2")))).
Proof.
  apply (json_envelope_in_full (Some "Tampa") (Some "2") None None sample_world fresh_store);
    [exact Claims.sample_world_fair|right; reflexivity|reflexivity].
Defined.

End Extras.

(** ** The price parser *)

Module PriceFacts.

Import JS Index ParseFacts.
Import Synth(is_digit, all_digits).

Lemma digits_only_all_digits s : all_digits (digits_only s) = true.
Proof.
  induction s as [|c s IH]; [reflexivity|]. cbn [digits_only].
  destruct (is_digit c) eqn:Hc; [|exact IH]. cbn [all_digits]. now rewrite Hc.
Qed.

Lemma digits_only_app a b : digits_only (a ++ b) = digits_only a ++ digits_only b.
Proof.
  induction a as [|c a IH]; [reflexivity|]. cbn [append digits_only].
  destruct (is_digit c); [cbn [append]; now rewrite IH|exact IH].
Qed.

Lemma digits_only_fixed s : all_digits s = true -> digits_only s = s.
Proof.
  induction s as [|c s IH]; [reflexivity|]. cbn [all_digits digits_only].
  intros H. apply andb_true_iff in H. destruct H as [-> Hs]. now rewrite IH.
Qed.

(** Reading [s], all digits, after the value [a]: the digits of [a]
    followed by those of [s]. *)
Lemma parse_digits_value s a :
  all_digits s = true -> 0 <= a ->
  exists v, 0 <= v < 10 ^ Z.of_nat (String.length s) /\
            parse_digits 10 s (Some a) = Some (a * 10 ^ Z.of_nat (String.length s) + v).
Proof.
  revert a. induction s as [|c s IH]; intros a Hs Ha.
  - exists 0. cbn. split; [lia|]. f_equal. lia.
  - cbn [all_digits] in Hs. apply andb_true_iff in Hs. destruct Hs as [Hc Hs].
    assert (Hd : exists d, digit_value c = Some d /\ 0 <= d < 10).
    { unfold is_digit in Hc. unfold digit_value. rewrite Hc.
      apply andb_true_iff in Hc. destruct Hc as [H1 H2].
      apply Z.leb_le in H1. apply Z.leb_le in H2. eexists. split; [reflexivity|lia]. }
    destruct Hd as (d & Hd & Hrange).
    cbn [parse_digits String.length]. rewrite Hd.
    destruct (Z.ltb_spec d 10) as [_|Hbad]; [|lia].
    destruct (IH (a * 10 + d) Hs ltac:(lia)) as (v & Hv & ->).
    rewrite Nat2Z.inj_succ, Z.pow_succ_r by lia.
    assert (Hp : 0 < 10 ^ Z.of_nat (String.length s)) by (apply Z.pow_pos_nonneg; lia).
    exists (d * 10 ^ Z.of_nat (String.length s) + v). split; [nia|]. f_equal. ring.
Qed.

Lemma parseInt_all_digits c s :
  all_digits (String c s) = true ->
  exists v, 0 <= v < 10 ^ Z.of_nat (String.length (String c s)) /\
            parseInt (String c s) = Some (nearest v).
Proof.
  intros Hs. rewrite (parseInt_digits_only _ Hs).
  cbn [all_digits] in Hs. apply andb_true_iff in Hs. destruct Hs as [Hc Hs].
  assert (Hd : exists d, digit_value c = Some d /\ 0 <= d < 10).
  { unfold is_digit in Hc. unfold digit_value. rewrite Hc.
    apply andb_true_iff in Hc. destruct Hc as [H1 H2].
    apply Z.leb_le in H1. apply Z.leb_le in H2. eexists. split; [reflexivity|lia]. }
  destruct Hd as (d & Hd & Hrange).
  cbn [parse_digits String.length]. rewrite Hd.
  destruct (Z.ltb_spec d 10) as [_|Hbad]; [|lia].
  destruct (parse_digits_value s d Hs ltac:(lia)) as (v & Hv & ->).
  rewrite Nat2Z.inj_succ, Z.pow_succ_r by lia.
  assert (Hp : 0 < 10 ^ Z.of_nat (String.length s)) by (apply Z.pow_pos_nonneg; lia).
  exists (d * 10 ^ Z.of_nat (String.length s) + v). cbn [option_map].
  split; [nia|]. f_equal. f_equal. lia.
Qed.

(** The text matters through its digits alone. *)
Lemma parsePrice_cleaned s :
  parsePrice (Some s) =
  match digits_only s with
  | EmptyString => null
  | cleaned => number (parseInt cleaned)
  end.
Proof. destruct s; reflexivity. Qed.

End PriceFacts.

Module PriceExtras.

Import JS Index ParseFacts PriceFacts.
Import Synth(is_digit, all_digits).

(** X14.  [parsePrice] answers null exactly when the text holds no digit
    (an absent or empty text included).  Otherwise, whatever the text and
    however many digits it holds, it answers a number that is never NaN and
    never negative; with at most fifteen digits in the text, an integer from 0
    to 10^15 - 1.  (The number for a text of more than 308 digits can be
    Infinity, which is not negative either.) *)
Theorem parsePrice_null_or_natural :
  parsePrice None = null /\
  (forall s, parsePrice (Some s) = null <-> digits_only s = "") /\
  (forall s, digits_only s <> "" ->
             exists n, 0 <= n /\ parsePrice (Some s) = number (Some n) /\
                       ((String.length (digits_only s) <= 15)%nat -> n < 10 ^ 15)).
Proof.
  split; [reflexivity|]. split.
  - intros s. rewrite parsePrice_cleaned. destruct (digits_only s); split; intros H;
      try reflexivity; discriminate.
  - intros s Hne. rewrite parsePrice_cleaned.
    pose proof (digits_only_all_digits s) as Hall.
    destruct (digits_only s) as [|c cleaned]; [congruence|].
    destruct (parseInt_all_digits c cleaned Hall) as (v & Hv & ->).
    exists (nearest v). split; [apply NearestFacts.nearest_nonneg; lia|].
    split; [reflexivity|]. intros Hlen.
    assert (10 ^ Z.of_nat (String.length (String c cleaned)) <= 10 ^ 15)
      by (apply Z.pow_le_mono_r; lia).
    rewrite NearestFacts.nearest_exact; lia.
Qed.

Lemma parsePrice_null_or_natural_sample :
  parsePrice None = null /\
  (parsePrice (Some "Contact agent") = null <-> digits_only "Contact agent" = "") /\
  exists n, 0 <= n /\ parsePrice (Some "$349,900") = number (Some n) /\
            ((String.length (digits_only "$349,900") <= 15)%nat -> n < 10 ^ 15).
Proof.
  destruct parsePrice_null_or_natural as (Hnone & Hnull & Hnum).
  split; [exact Hnone|]. split; [apply Hnull|].
  apply Hnum. discriminate.
Defined.

(** X15.  Only the digits of the text count: a character that is not a
    digit can be removed anywhere without changing the result.  So a sign and
    a decimal point are dropped: -500 reads as 500, and 12.50 as 1250. *)
Theorem parsePrice_ignores_other_characters (a b : string) (c : ascii) :
  is_digit c = false ->
  parsePrice (Some (a ++ String c b)) = parsePrice (Some (a ++ b)).
Proof.
  intros Hc. rewrite !parsePrice_cleaned, !digits_only_app.
  cbn [digits_only]. now rewrite Hc.
Qed.

Lemma parsePrice_ignores_other_characters_sample :
  parsePrice (Some ("12" ++ String "." "50")) = parsePrice (Some ("12" ++ "50")).
Proof.
  apply (parsePrice_ignores_other_characters "12" "50" "."). reflexivity.
Defined.

(** X16.  [parsePrice] reads back a price however it is decorated: when
    the digits of the text, in order, are the decimal writing of an integer n
    from 0 to 2^53, the integers a JavaScript number holds exactly, the result
    is n. *)
Theorem parsePrice_reads_decorated_price (s : string) (n : Z) :
  0 <= n <= 2 ^ 53 -> digits_only s = digits n ->
  parsePrice (Some s) = number (Some n).
Proof.
  intros Hn Hs. rewrite parsePrice_cleaned, Hs.
  destruct (digits_fuel_shape (Z.to_nat (Z.log2 n)) n "" eq_refl) as [_ Hne].
  fold (digits n) in Hne.
  assert (Hp : parseInt (digits n) = Some n).
  { rewrite parseInt_digits by lia. f_equal. apply NearestFacts.nearest_exact. lia. }
  rewrite <- Hp.
  destruct (digits n); [congruence|reflexivity].
Qed.

Lemma parsePrice_reads_decorated_price_sample :
  parsePrice (Some "$1,234,567") = number (Some 1234567).
Proof.
  apply (parsePrice_reads_decorated_price "$1,234,567" 1234567); [lia|reflexivity].
Defined.

End PriceExtras.

(** ** The fallback generator *)

Module FallbackFacts.

Import Binary64 Binary64Facts JS Effects EffectsFacts Index Fallback FallbackDetails.
Import Synth(template, random_below).
Import SynthFacts(index_in_bounds).
Import Api(plain, occurrences, comma, quote_mark).
Import JSFacts ServeFacts.

Lemma finishes_unit {A : Type} (a : A) env s (Q : A -> State -> Prop) :
  Q a s -> finishes (unit_L a) env s Q.
Proof. intros H. exact H. Qed.

Lemma finishes_bind {A B : Type} (c : L A) (k : A -> L B) env s (Q : B -> State -> Prop) :
  finishes c env s (fun a s' => finishes (k a) env s' Q) -> finishes (bind_L c k) env s Q.
Proof.
  unfold finishes, bind_L. destruct (c env s) as [e s'|a s']; trivial.
Qed.

Lemma finishes_weaken {A : Type} (c : L A) env s (Q Q' : A -> State -> Prop) :
  finishes c env s Q -> (forall a s', Q a s' -> Q' a s') -> finishes c env s Q'.
Proof.
  unfold finishes. destruct (c env s) as [e s'|a s']; [trivial|]. intros H HQ. now apply HQ.
Qed.

Lemma finishes_inv {A : Type} (c : L A) env s (Q : A -> State -> Prop) :
  finishes c env s Q -> exists a s', c env s = Done a s' /\ Q a s'.
Proof.
  unfold finishes. destruct (c env s) as [e s'|a s']; [contradiction|].
  intros H. now exists a, s'.
Qed.

(** A draw below [n] finishes in every world; in a fair one it is an index
    below [n]. *)
Lemma finishes_below n k env s (Q : Z -> State -> Prop) :
  fin n -> fin (pred1 * n)%float -> Math_floor (pred1 * n)%float = k ->
  (forall v s', (fair (world env) -> 0 <= v <= k) ->
                random_calls (store s') = S (random_calls (store s)) ->
                clock_calls (store s') = clock_calls (store s) ->
                epoch_calls s' = epoch_calls s -> warnings s' = warnings s ->
                Q v s') ->
  finishes (lift (random_below n)) env s Q.
Proof.
  intros Hn Hp Hk HQ. apply HQ; try reflexivity. intros Hw.
  apply (floor_random_mul _ n k); auto.
Qed.

Lemma finishes_now env s (Q : Z -> State -> Prop) :
  (forall s', random_calls (store s') = random_calls (store s) ->
              clock_calls (store s') = clock_calls (store s) ->
              epoch_calls s' = S (epoch_calls s) -> warnings s' = warnings s ->
              Q (epoch_seq env (epoch_calls s)) s') ->
  finishes Date_now env s Q.
Proof. intros H. apply H; reflexivity. Qed.

Lemma finishes_clock env s (Q : string -> State -> Prop) :
  (forall s', random_calls (store s') = random_calls (store s) ->
              clock_calls (store s') = S (clock_calls (store s)) ->
              epoch_calls s' = epoch_calls s -> warnings s' = warnings s ->
              Q (clock_seq (world env) (clock_calls (store s))) s') ->
  finishes (lift Date_toISOString) env s Q.
Proof. intros H. apply H; reflexivity. Qed.

Lemma finishes_warn msg env s (Q : unit -> State -> Prop) :
  (forall s', random_calls (store s') = random_calls (store s) ->
              clock_calls (store s') = clock_calls (store s) ->
              epoch_calls s' = epoch_calls s -> warnings s' = (warnings s ++ [msg])%list ->
              Q tt s') ->
  finishes (log_warn msg) env s Q.
Proof. intros H. apply H; reflexivity. Qed.

Lemma template_index_plain (l : list string) (i : Z) :
  Forall plain l -> plain (template (index l i)).
Proof.
  intros Hl. unfold index. destruct (i <? 0); [now split|].
  destruct (nth_error l (Z.to_nat i)) as [x|] eqn:Hx; [|now split].
  apply nth_error_In in Hx. exact (In_plain _ _ Hl Hx).
Qed.

Ltac pick v H :=
  apply finishes_bind; eapply finishes_below;
  [ reflexivity | reflexivity | vm_compute; reflexivity
  | intros v ? H ? ? ? ?; cbv zeta ].

(** One turn of the loop finishes, in every world. *)
Lemma sample_one_done c i env s :
  finishes (sample_one c i) env s
    (fun p s' =>
       labelled c p /\ numbered env (epoch_calls s) (clock_calls (store s)) i p /\
       printable p /\ (fair (world env) -> ranged p) /\ advanced 1 s s').
Proof.
  unfold sample_one.
  pick b Hb. pick t Ht. pick f Hf. pick d Hd. pick house Hhouse. pick sn Hsn. pick ty Hty.
  pick k Hk. pick y Hy.
  apply finishes_bind, finishes_now. intros ? ? ? ? ?.
  apply finishes_bind, finishes_clock. intros ? ? ? ? ?.
  apply finishes_unit.
  split; [repeat split|]. split; [|split; [|split]].
  - unfold numbered. cbn [link imageUrl scrapedAt].
    split; [|split; [reflexivity|]].
    + match goal with |- ?l = _ => match l with context [epoch_seq env ?e] =>
        replace e with (epoch_calls s) by congruence end end.
      reflexivity.
    + match goal with |- ?l = _ => match l with context [clock_seq (world env) ?e] =>
        replace e with (clock_calls (store s)) by congruence end end.
      reflexivity.
  - split; cbn [address propertyType].
    + apply plain_app; [apply Int_toString_plain|]. apply plain_app; [now split|].
      apply plain_app; [apply template_index_plain; repeat constructor|].
      apply plain_app; [now split|]. apply template_index_plain; repeat constructor.
    + apply template_index_plain; repeat constructor.
  - intros Hw. specialize (Hb Hw). specialize (Ht Hw). specialize (Hf Hw). specialize (Hd Hw).
    specialize (Hhouse Hw). specialize (Hsn Hw). specialize (Hty Hw). specialize (Hk Hw).
    specialize (Hy Hw).
    unfold ranged. cbn [beds baths sqft price yearBuilt propertyType address].
    split; [lia|]. split; [lia|]. split; [lia|]. split; [lia|]. split; [lia|]. split.
    + destruct (index_in_bounds kinds k) as (x & Hx1 & Hx2);
        [change (array_length kinds) with 3; lia|].
      exists x. split; [exact Hx2|exact Hx1].
    + destruct (index_in_bounds streetNames sn) as (x & Hx1 & Hx2);
        [change (array_length streetNames) with 8; lia|].
      destruct (index_in_bounds streetTypes ty) as (z & Hz1 & Hz2);
        [change (array_length streetTypes) with 6; lia|].
      exists (house + 1000), x, z. rewrite Hx1, Hz1.
      split; [lia|]. split; [exact Hx2|]. split; [exact Hz2|reflexivity].
  - unfold advanced. split; [lia|]. split; [lia|]. split; [lia|congruence].
Qed.

(** The loop finishes, in every world, with [n] more records. *)
Lemma sample_loop_done n c i acc env s :
  finishes (sample_loop n c i acc) env s
    (fun props s' =>
       exists fresh, props = (acc ++ fresh)%list /\ List.length fresh = n /\
                     Forall (labelled c) fresh /\ Forall printable fresh /\
                     consecutive env (epoch_calls s) (clock_calls (store s)) i fresh /\
                     (fair (world env) -> Forall ranged fresh) /\
                     advanced n s s').
Proof.
  revert i acc s. induction n as [|n IH]; intros i acc s; cbn [sample_loop].
  - apply finishes_unit. exists []. rewrite app_nil_r.
    repeat split; try constructor; lia.
  - apply finishes_bind.
    eapply finishes_weaken; [apply sample_one_done|].
    intros p s1 (Hlab & Hnum & Hpr & Hrg & (A1 & A2 & A3 & A4)). cbv beta.
    eapply finishes_weaken; [apply IH|].
    intros props s2 (fresh & -> & Hlen & Hlabs & Hprs & Hcons & Hrgs & (B1 & B2 & B3 & B4)).
    exists (p :: fresh). rewrite <- app_assoc. cbn [app List.length consecutive].
    split; [reflexivity|]. split; [now rewrite Hlen|].
    split; [now constructor|]. split; [now constructor|]. split.
    + split; [exact Hnum|].
      replace (S (epoch_calls s)) with (epoch_calls s1) by lia.
      replace (S (clock_calls (store s))) with (clock_calls (store s1)) by lia.
      exact Hcons.
    + split; [intros Hw; constructor; auto|].
      unfold advanced. split; [lia|]. split; [lia|]. split; [lia|congruence].
Qed.

Lemma generateSampleProperties_done c count env s :
  exists props s',
    generateSampleProperties c count env s = Done props s' /\
    List.length props = turns (requested count) /\
    Forall (labelled c) props /\ Forall printable props /\
    consecutive env (epoch_calls s) (clock_calls (store s)) 0 props /\
    (fair (world env) -> Forall ranged props) /\
    random_calls (store s') = (random_calls (store s) + 9 * List.length props)%nat /\
    clock_calls (store s') = (clock_calls (store s) + List.length props)%nat /\
    epoch_calls s' = (epoch_calls s + List.length props)%nat /\
    warnings s' =
      (warnings s ++
       [ ("Generating " ++ show (requested count) ++ " sample properties for " ++ name c)%string ])%list.
Proof.
  assert (H : finishes (generateSampleProperties c count) env s
    (fun props s' =>
      List.length props = turns (requested count) /\
      Forall (labelled c) props /\ Forall printable props /\
      consecutive env (epoch_calls s) (clock_calls (store s)) 0 props /\
      (fair (world env) -> Forall ranged props) /\
      random_calls (store s') = (random_calls (store s) + 9 * List.length props)%nat /\
      clock_calls (store s') = (clock_calls (store s) + List.length props)%nat /\
      epoch_calls s' = (epoch_calls s + List.length props)%nat /\
      warnings s' =
        (warnings s ++
         [ ("Generating " ++ show (requested count) ++ " sample properties for " ++ name c)%string ])%list)).
  { unfold generateSampleProperties. apply finishes_bind, finishes_warn.
    intros s0 W1 W2 W3 W4.
    eapply finishes_weaken; [apply sample_loop_done|].
    intros props s1 (fresh & -> & Hlen & Hlabs & Hprs & Hcons & Hrgs & (B1 & B2 & B3 & B4)).
    cbn [app]. rewrite Hlen. rewrite W2, W3 in Hcons.
    repeat split; try assumption; try lia; congruence. }
  destruct (finishes_inv _ _ _ _ H) as (props & s' & Heq & Hrest).
  exists props, s'. split; [exact Heq|exact Hrest].
Qed.

End FallbackFacts.

(** ** The first adapter *)

Module LegacyFacts.

Import Binary64 Binary64Facts JS Effects Index Fallback FallbackDetails FallbackFacts Legacy.
Import Api(Query, q_city, q_limit, q_format, Request, method, query, newline, dquote,
           cors_headers, default_to, or_else, quoted, GET, plain, occurrences, comma,
           quote_mark, field_count).
Import Synth(template).
Import JSFacts ServeFacts.

(** A GET request goes to the generator, which finishes. *)
Lemma legacy_GET city limit all format env s :
  exists props s',
    generateSampleProperties (sampleCity city) (Some (parsed_limit limit)) env s
      = Done props s' /\
    Legacy.handler (GET city limit all format) env s = (respond city format props, s').
Proof.
  destruct (generateSampleProperties_done (sampleCity city) (Some (parsed_limit limit)) env s)
    as (props & s' & Heq & _).
  exists props, s'. split; [exact Heq|].
  unfold Legacy.handler, attempt, GET, bind_L. cbn [method query q_city q_limit q_format].
  cbn [String.eqb Ascii.eqb Bool.eqb negb]. now rewrite Heq.
Qed.

Lemma csv_line_characters p :
  printable p ->
  occurrences comma (csv_line p) =
    (9 + occurrences comma (city p) + occurrences comma (p_state p)
       + occurrences comma (zipCode p) + occurrences comma (source p))%nat /\
  occurrences quote_mark (csv_line p) =
    (20 + occurrences quote_mark (city p) + occurrences quote_mark (p_state p)
        + occurrences quote_mark (zipCode p) + occurrences quote_mark (source p))%nat.
Proof.
  intros [[A1 A2] [T1 T2]].
  destruct (Int_toString_plain (price p)) as [N1 M1].
  destruct (Int_toString_plain (beds p)) as [N2 M2].
  destruct (Int_toString_plain (baths p)) as [N3 M3].
  destruct (Int_toString_plain (sqft p)) as [N4 M4].
  unfold csv_line, cells, join, quoted. cbn [map String.concat].
  repeat rewrite occurrences_app.
  rewrite A1, A2, T1, T2, N1, N2, N3, N4, M1, M2, M3, M4.
  split; cbn; lia.
Qed.

End LegacyFacts.

Module LegacyExtras.

Import Binary64 Binary64Facts JS Effects Index Fallback FallbackDetails FallbackFacts Legacy.
Import Api(Query, q_city, q_limit, q_format, Request, method, query, newline, dquote,
           cors_headers, default_to, or_else, quoted, GET, plain, occurrences, comma,
           quote_mark, field_count).
Import Synth(template).
Import JSFacts ServeFacts LegacyFacts Samples FallbackSamples.

(** X17.  The first adapter has no usage error and no failure: in every
    world, the status is 200 for OPTIONS, 405 for any other method than GET,
    and 200 for every GET request, whatever its query; and every response
    begins with the three CORS headers. *)
Theorem legacy_handler_status (req : Request) (env : Env) (s : State) :
  status (fst (Legacy.handler req env s)) =
    (if String.eqb (method req) "OPTIONS" then 200
     else if negb (String.eqb (method req) "GET") then 405
     else 200) /\
  exists rest, headers (fst (Legacy.handler req env s)) = (cors_headers ++ rest)%list.
Proof.
  unfold Legacy.handler, attempt.
  destruct (String.eqb (method req) "OPTIONS"); [split; [reflexivity|now exists []]|].
  destruct (String.eqb (method req) "GET"); cbn [negb]; [|split; [reflexivity|now exists []]].
  unfold bind_L.
  destruct (generateSampleProperties_done (sampleCity (q_city (query req)))
              (Some (parsed_limit (q_limit (query req)))) env s) as (props & s' & -> & _).
  cbn [unit_L fst]. unfold respond.
  destruct (String.eqb _ "csv"); cbn [status headers].
  - split; [reflexivity|]. eexists. reflexivity.
  - split; [reflexivity|]. exists []. now rewrite app_nil_r.
Qed.

(** X18.  A GET request without a city, or with an empty one, is served
    for Orlando.  In the JSON envelope the city label is the city parameter or
    Orlando, the count is the number of properties, and every record bears
    that city with the state FL and the ZIP code 32801, whichever the city
    is. *)
Theorem legacy_default_city (city limit all format : option string) (env : Env) (s : State) :
  String.eqb (default_to format "json") "csv" = false ->
  exists props s',
    Legacy.handler (GET city limit all format) env s =
    ({| status := 200; headers := cors_headers;
        body := Success true (or_else city "Orlando") (array_length props) props |}, s') /\
    or_else None "Orlando" = "Orlando" /\ or_else (Some "") "Orlando" = "Orlando" /\
    Forall (fun p => Fallback.city p = or_else city "Orlando" /\ p_state p = "FL" /\
                     zipCode p = "32801" /\ source p = "generated") props.
Proof.
  intros Hfmt.
  destruct (generateSampleProperties_done (sampleCity city) (Some (parsed_limit limit)) env s)
    as (props & s' & Heq & _ & Hlab & _).
  destruct (legacy_GET city limit all format env s) as (props' & s'' & Heq' & Hh).
  rewrite Heq in Heq'. injection Heq' as <- <-.
  exists props, s'. split.
  - rewrite Hh. unfold respond. now rewrite Hfmt.
  - split; [reflexivity|]. split; [reflexivity|].
    eapply Forall_impl; [|exact Hlab]. intros p (H1 & H2 & H3 & H4). auto.
Qed.

Lemma legacy_default_city_sample :
  exists props s',
    Legacy.handler (GET None (Some "2") None None) sample_env fresh_state =
    ({| status := 200; headers := cors_headers;
        body := Success true (or_else None "Orlando") (array_length props) props |}, s') /\
    or_else None "Orlando" = "Orlando" /\ or_else (Some "") "Orlando" = "Orlando" /\
    Forall (fun p => Fallback.city p = or_else None "Orlando" /\ p_state p = "FL" /\
                     zipCode p = "32801" /\ source p = "generated") props.
Proof.
  apply (legacy_default_city None (Some "2") None None sample_env fresh_state). reflexivity.
Defined.

(** X19.  The first adapter passes [parseInt(limit)] on as it is: without a
    limit it generates 10 records; with a limit that parses to n it generates n
    records, none when n is zero or negative; and with a limit that does not
    parse it generates none either, there is no fallback to 10.  The one
    message it logs names the count, NaN included, and the city. *)
Theorem legacy_count (city limit all format : option string) (env : Env) (s : State) :
  exists props s',
    Legacy.handler (GET city limit all format) env s = (respond city format props, s') /\
    List.length props =
      match limit with
      | None => 10%nat
      | Some text => match parseInt text with Some n => Z.to_nat n | None => O end
      end /\
    warnings s' =
      (warnings s ++
       [ ("Generating " ++
          match limit with
          | None => "10"
          | Some text => match parseInt text with Some n => Int_toString n | None => "NaN" end
          end ++ " sample properties for " ++ or_else city "Orlando")%string ])%list.
Proof.
  destruct (generateSampleProperties_done (sampleCity city) (Some (parsed_limit limit)) env s)
    as (props & s' & Heq & Hlen & _ & _ & _ & _ & _ & _ & _ & Hwarn).
  destruct (legacy_GET city limit all format env s) as (props' & s'' & Heq' & Hh).
  rewrite Heq in Heq'. injection Heq' as <- <-.
  exists props, s'. split; [exact Hh|]. split.
  - rewrite Hlen. cbn [requested]. unfold parsed_limit.
    destruct limit as [text|]; cbn [default_to]; [|reflexivity].
    destruct (parseInt text); reflexivity.
  - rewrite Hwarn. cbn [requested sampleCity name]. unfold parsed_limit.
    destruct limit as [text|]; cbn [default_to]; [|reflexivity].
    destruct (parseInt text); reflexivity.
Qed.

(** X20.  With fair draws every record of the first adapter is in range:
    1 to 4 beds, 1 to 3 baths, 1000 to 2999 square feet, a price from 200000
    to 599999, a year from 1980 to 2019, one of the three property types, and
    an address made of a number from 1000 to 9999, a street name and a street
    type of the lists. *)
Theorem legacy_records_in_range (city limit all format : option string) (env : Env) (s : State) :
  fair (world env) ->
  exists props s',
    Legacy.handler (GET city limit all format) env s = (respond city format props, s') /\
    Forall (fun p =>
      1 <= beds p <= 4 /\ 1 <= baths p <= 3 /\ 1000 <= sqft p <= 2999 /\
      200000 <= price p <= 599999 /\ 1980 <= yearBuilt p <= 2019 /\
      (exists k, In k [ "House"; "Condo"; "Townhouse" ] /\ propertyType p = Some k) /\
      (exists n sn ty, 1000 <= n <= 9999 /\ In sn streetNames /\ In ty streetTypes /\
                       address p = Int_toString n ++ " " ++ sn ++ " " ++ ty)) props.
Proof.
  intros Hw.
  destruct (generateSampleProperties_done (sampleCity city) (Some (parsed_limit limit)) env s)
    as (props & s' & Heq & _ & _ & _ & _ & Hrg & _).
  destruct (legacy_GET city limit all format env s) as (props' & s'' & Heq' & Hh).
  rewrite Heq in Heq'. injection Heq' as <- <-.
  exists props, s'. split; [exact Hh|]. exact (Hrg Hw).
Qed.

Lemma legacy_records_in_range_sample :
  exists props s',
    Legacy.handler (GET (Some "Tampa") (Some "3") None None) sample_env fresh_state
      = (respond (Some "Tampa") None props, s') /\
    Forall (fun p =>
      1 <= beds p <= 4 /\ 1 <= baths p <= 3 /\ 1000 <= sqft p <= 2999 /\
      200000 <= price p <= 599999 /\ 1980 <= yearBuilt p <= 2019 /\
      (exists k, In k [ "House"; "Condo"; "Townhouse" ] /\ propertyType p = Some k) /\
      (exists n sn ty, 1000 <= n <= 9999 /\ In sn streetNames /\ In ty streetTypes /\
                       address p = Int_toString n ++ " " ++ sn ++ " " ++ ty)) props.
Proof.
  apply (legacy_records_in_range (Some "Tampa") (Some "3") None None sample_env fresh_state).
  exact Claims.sample_world_fair.
Defined.

(** X21.  The records of one request are numbered from 0: the record at
    index i has the image address photo-(1568605114967 + i) and a link made of
    the i-th answer of [Date.now()] and of i, and is stamped with the i-th
    reading of the clock.  A request takes nine draws, one [Date.now()] and one
    clock reading per record. *)
Theorem legacy_records_numbered (city limit all format : option string) (env : Env) (s : State) :
  exists props s',
    Legacy.handler (GET city limit all format) env s = (respond city format props, s') /\
    (forall i p, nth_error props i = Some p ->
       link p = "https://example.com/property/" ++
                Int_toString (epoch_seq env (epoch_calls s + i)) ++ "-" ++
                Int_toString (Z.of_nat i) /\
       imageUrl p = "https://images.unsplash.com/photo-" ++
                    Int_toString (1568605114967 + Z.of_nat i) /\
       scrapedAt p = clock_seq (world env) (clock_calls (store s) + i)) /\
    random_calls (store s') = (random_calls (store s) + 9 * List.length props)%nat /\
    clock_calls (store s') = (clock_calls (store s) + List.length props)%nat /\
    epoch_calls s' = (epoch_calls s + List.length props)%nat.
Proof.
  destruct (generateSampleProperties_done (sampleCity city) (Some (parsed_limit limit)) env s)
    as (props & s' & Heq & _ & _ & _ & Hcons & _ & Hr & Hc & He & _).
  destruct (legacy_GET city limit all format env s) as (props' & s'' & Heq' & Hh).
  rewrite Heq in Heq'. injection Heq' as <- <-.
  exists props, s'. split; [exact Hh|]. split; [|now repeat split].
  clear -Hcons.
  assert (Hgen : forall ps e t j, consecutive env e t j ps ->
            forall i p, nth_error ps i = Some p ->
              numbered env (e + i) (t + i) (j + Z.of_nat i) p).
  { induction ps as [|q ps IH]; intros e t j Hc i p Hi; [destruct i; discriminate|].
    destruct Hc as [Hq Hrest]. destruct i as [|i]; cbn [nth_error] in Hi.
    - injection Hi as <-. now rewrite !Nat.add_0_r, Z.add_0_r.
    - specialize (IH _ _ _ Hrest i p Hi).
      replace (e + S i)%nat with (S e + i)%nat by lia.
      replace (t + S i)%nat with (S t + i)%nat by lia.
      replace (j + Z.of_nat (S i)) with (j + 1 + Z.of_nat i) by lia. exact IH. }
  intros i p Hi. exact (Hgen _ _ _ _ Hcons i p Hi).
Qed.

(** X22.  The CSV export of the first adapter quotes every cell, the
    numbers too, and escapes nothing: under the header of ten columns, every
    line holds nine commas and twenty double quotes besides those of the city
    name, in every world.  For the default city a line has ten fields, as
    many as the header. *)
Theorem legacy_csv_lines (city limit all : option string) (env : Env) (s : State) :
  exists props s',
    Legacy.handler (GET city limit all (Some "csv")) env s =
    ({| status := 200;
        headers :=
          (cors_headers ++
           [ ("Content-Type", "text/csv");
             ("Content-Disposition",
              ("attachment; filename=" ++
               quoted ("properties-" ++ or_else city "Orlando" ++ ".csv"))%string) ])%list;
        body :=
          Text (join newline
                  ("Address,City,State,ZIP,Price,Beds,Baths,SqFt,Type,Source"
                   :: map csv_line props)) |}, s') /\
    Forall (fun p =>
      field_count (csv_line p) = (10 + occurrences comma (or_else city "Orlando"))%nat /\
      occurrences quote_mark (csv_line p) =
        (20 + occurrences quote_mark (or_else city "Orlando"))%nat) props /\
    (or_else city "Orlando" = "Orlando" ->
     Forall (fun p => field_count (csv_line p) = 10%nat) props).
Proof.
  destruct (generateSampleProperties_done (sampleCity city) (Some (parsed_limit limit)) env s)
    as (props & s' & Heq & _ & Hlab & Hpr & _).
  destruct (legacy_GET city limit all (Some "csv") env s) as (props' & s'' & Heq' & Hh).
  rewrite Heq in Heq'. injection Heq' as <- <-.
  exists props, s'. split; [exact Hh|].
  assert (Hrows : Forall (fun p =>
      field_count (csv_line p) = (10 + occurrences comma (or_else city "Orlando"))%nat /\
      occurrences quote_mark (csv_line p) =
        (20 + occurrences quote_mark (or_else city "Orlando"))%nat) props).
  { rewrite Forall_forall in *. intros p Hin.
    destruct (Hlab p Hin) as (Hsrc & Hcity & Hstate & Hzip).
    destruct (csv_line_characters p (Hpr p Hin)) as [Hc Hq].
    unfold field_count. rewrite Hc, Hq, Hsrc, Hcity, Hstate, Hzip.
    cbn [sampleCity name state zip]. split; cbn; lia. }
  split; [exact Hrows|]. intros Hdef. rewrite Hdef in Hrows.
  eapply Forall_impl; [|exact Hrows]. intros p [Hf _]. exact Hf.
Qed.

End LegacyExtras.

(** * The claims that rest on the details *)

Module ClaimsInDetail.

Import Binary64 Binary64Facts JS Effects EffectsFacts Synth SynthFacts SynthDetails.
Import LoopFacts Api JSFacts ApiFacts ParseFacts NearestFacts Samples.
Import DetailLoop ServeFacts.

Lemma lowest_world_fair : fair lowest_world.
Proof. intros i. reflexivity. Qed.

(** The all-cities loop is the calls of the synthesizer in turn. *)
Lemma generate_all_in_turn cities max acc w st :
  fair w ->
  exists segs st',
    generate_all cities max acc w st = Returned (acc ++ List.concat segs)%list st' /\
    called_in_turn w max cities segs st st' /\
    segmented cities (Z.to_nat max) segs.
Proof.
  intros Hw. revert acc st. induction cities as [|c cities IH]; intros acc st; cbn [generate_all].
  - exists [], st. cbn [List.concat called_in_turn]. rewrite app_nil_r.
    split; [reflexivity|]. split; [reflexivity|constructor].
  - destruct (returns_inv _ _ _ _ (generateProperties_returns c (Some max) w st Hw))
      as (ps & st1 & Heq & Hlen & Hall).
    destruct (IH (acc ++ ps)%list st1) as (segs & st' & Hrest & Hturn & Hsegs).
    exists (ps :: segs), st'. unfold bind. rewrite Heq, Hrest.
    cbn [List.concat called_in_turn]. rewrite <- app_assoc.
    split; [reflexivity|]. split; [exists st1; now split|].
    constructor; [|exact Hsegs]. now split.
Qed.

Lemma positive_limit limit n :
  parseInt limit = Some n -> 0 < n -> maxProperties (Some limit) = n.
Proof.
  intros Hs Hn. unfold maxProperties. cbn [default_to]. rewrite Hs.
  destruct (Z.eqb_spec n 0); [lia|reflexivity].
Qed.

(** An all-cities request: what is selected is the results of the calls in
    turn, one after the other. *)
Lemma select_in_turn city max w st :
  fair w ->
  exists segs st',
    select_properties city (Some "true") max w st = Returned (Some (List.concat segs)) st' /\
    called_in_turn w max CITIES segs st st' /\
    segmented CITIES (Z.to_nat max) segs.
Proof.
  intros Hw. unfold select_properties. cbn [is_true String.eqb Ascii.eqb Bool.eqb].
  destruct (generate_all_in_turn CITIES max [] w st Hw) as (segs & st' & Heq & Hturn & Hsegs).
  exists segs, st'. unfold bind. rewrite Heq. cbn [app]. auto.
Qed.

(** C2.  In every record [generateProperties] produces, the derived fields
    follow from the stored price and area.  They are the program's formulas,
    computed in binary64 ([consistent]).  Read as integers: the rent estimate
    is floor(price * 0.006); the estimate lies from floor(price * 0.95) to
    floor(price * 1.05); the lot size lies from 2 to 5 times the area; the
    price history holds the price and floor(price * 1.05); the tax history
    holds floor(price * 0.85) and floor(price * 0.012) for 2024, and for 2023
    floor(price * 0.82) and floor(price * 0.011), or one dollar less than
    these: the binary64 products by 0.82 and by 0.011 can fall just below the
    integer they stand for. *)
Theorem derived_fields_in_integers (c : string) (count : option Z) (w : World) (st : Store) :
  fair w ->
  exists props st',
    generateProperties c count w st = Returned props st' /\
    Forall (fun p =>
      consistent p /\
      rentZestimate p = price p * 6 / 1000 /\
      price p * 95 / 100 <= zestimate p <= price p * 105 / 100 /\
      2 * sqft p <= lotSize p <= 5 * sqft p /\
      (exists e1 e2, priceHistory p = [e1; e2] /\ pe_price e1 = price p /\
                     pe_price e2 = price p * 105 / 100) /\
      (exists y1 y2, taxHistory p = [y1; y2] /\
                     ty_value y1 = price p * 85 / 100 /\ ty_tax y1 = price p * 12 / 1000 /\
                     price p * 82 / 100 - 1 <= ty_value y2 <= price p * 82 / 100 /\
                     price p * 11 / 1000 - 1 <= ty_tax y2 <= price p * 11 / 1000)) props.
Proof.
  intros Hw.
  destruct (generateProperties_details c count w st Hw) as (props & st' & Heq & _ & Hall & _).
  exists props, st'. split; [exact Heq|].
  eapply Forall_impl; [|exact Hall].
  intros p ((_ & _ & Hcons) & _ & _ & _ & Ha). split; [exact Hcons|exact Ha].
Qed.

Lemma derived_fields_in_integers_sample :
  exists props st',
    generateProperties "Tampa" (Some 2) sample_world fresh_store = Returned props st' /\
    Forall (fun p =>
      consistent p /\
      rentZestimate p = price p * 6 / 1000 /\
      price p * 95 / 100 <= zestimate p <= price p * 105 / 100 /\
      2 * sqft p <= lotSize p <= 5 * sqft p /\
      (exists e1 e2, priceHistory p = [e1; e2] /\ pe_price e1 = price p /\
                     pe_price e2 = price p * 105 / 100) /\
      (exists y1 y2, taxHistory p = [y1; y2] /\
                     ty_value y1 = price p * 85 / 100 /\ ty_tax y1 = price p * 12 / 1000 /\
                     price p * 82 / 100 - 1 <= ty_value y2 <= price p * 82 / 100 /\
                     price p * 11 / 1000 - 1 <= ty_tax y2 <= price p * 11 / 1000)) props.
Proof.
  apply (derived_fields_in_integers "Tampa" (Some 2) sample_world fresh_store).
  exact Claims.sample_world_fair.
Defined.

(** With the lowest draws the record costs 150000 dollars, and its 2023
    assessment is 122999: one dollar less than floor(150000 * 0.82), which is
    123000. *)
Lemma tax_value_one_dollar_short :
  fair lowest_world /\
  exists p st' y1 y2,
    generateProperties "Orlando" (Some 1) lowest_world fresh_store = Returned [p] st' /\
    price p = 150000 /\
    taxHistory p = [y1; y2] /\
    ty_value y2 = 122999 /\
    price p * 82 / 100 = 123000 /\
    ty_value y2 <> price p * 82 / 100.
Proof.
  split; [exact lowest_world_fair|].
  eexists. eexists. eexists. eexists.
  split; [vm_compute; reflexivity|].
  split; [reflexivity|]. split; [reflexivity|]. split; [reflexivity|].
  split; [reflexivity|]. cbn. discriminate.
Qed.

(** C4.  A GET request with all=true and a limit that parses to a positive L
    calls the synthesizer once per city of the roster, in roster order, each
    call starting from the store the one before it left, and sends the
    results concatenated in that order: the properties of the response are
    fifteen segments of L records, the i-th being what the i-th call returned
    and holding records of the i-th roster city, so there are 15 * L of them
    and their cities read as the roster with every name repeated L times.
    They are sent in the JSON envelope, whose count is 15 * L, or as the CSV
    export, as the format asks; the store left is the one the last call
    left. *)
Theorem all_cities_called_in_roster_order
    (city format : option string) (limit : string) (L : Z) (w : World) (st : Store) :
  fair w -> parseInt limit = Some L -> 0 < L ->
  exists props st' segs,
    handler (GET city (Some limit) (Some "true") format) w st =
      (if String.eqb (default_to format "json") "csv" then
         {| status := 200;
            headers :=
              [ ("Access-Control-Allow-Origin", "*");
                ("Access-Control-Allow-Methods", "GET, OPTIONS");
                ("Access-Control-Allow-Headers", "Content-Type");
                ("Content-Type", "text/csv");
                ("Content-Disposition", content_disposition city) ];
            body := Text (csvHeader ++ join newline (map csv_row props)) |}
       else
         {| status := 200;
            headers :=
              [ ("Access-Control-Allow-Origin", "*");
                ("Access-Control-Allow-Methods", "GET, OPTIONS");
                ("Access-Control-Allow-Headers", "Content-Type") ];
            body := Success true (15 * L) (or_else city "all") props |},
       st') /\
    props = List.concat segs /\
    called_in_turn w L CITIES segs st st' /\
    Forall2 (fun c seg => array_length seg = L /\ Forall (located c) seg) CITIES segs /\
    array_length props = 15 * L /\
    map Synth.city props = flat_map (fun c => repeat c (Z.to_nat L)) CITIES.
Proof.
  intros Hw Hparse HL.
  pose proof (positive_limit limit L Hparse HL) as Hmax.
  destruct (select_in_turn city L w st Hw) as (segs & st' & Hsel & Hturn & Hsegs).
  assert (Hlen : array_length (List.concat segs) = 15 * L).
  { unfold array_length. rewrite (segmented_length _ _ _ Hsegs). cbn [CITIES List.length]. lia. }
  exists (List.concat segs), st', segs. split.
  - rewrite <- Hmax in Hsel. rewrite (handler_selected _ _ _ _ _ _ _ _ Hsel).
    unfold render, json_response. rewrite Hlen.
    destruct (String.eqb (default_to format "json") "csv"); reflexivity.
  - split; [reflexivity|]. split; [exact Hturn|]. split; [|split; [exact Hlen|]].
    + clear -Hsegs HL. unfold segmented in Hsegs.
      induction Hsegs as [|c seg cs segs [Hlen Hall] _ IH]; constructor; [|exact IH].
      split; [unfold array_length; lia|].
      eapply Forall_impl; [|exact Hall]. intros p (Hloc & _). exact Hloc.
    + apply (segmented_cities _ _ _ Hsegs).
Qed.


Lemma all_cities_called_in_roster_order_sample :
  exists props st' segs,
    handler (GET None (Some "2") (Some "true") None) sample_world fresh_store =
      (if String.eqb (default_to None "json") "csv" then
         {| status := 200;
            headers :=
              [ ("Access-Control-Allow-Origin", "*");
                ("Access-Control-Allow-Methods", "GET, OPTIONS");
                ("Access-Control-Allow-Headers", "Content-Type");
                ("Content-Type", "text/csv");
                ("Content-Disposition", content_disposition None) ];
            body := Text (csvHeader ++ join newline (map csv_row props)) |}
       else
         {| status := 200;
            headers :=
              [ ("Access-Control-Allow-Origin", "*");
                ("Access-Control-Allow-Methods", "GET, OPTIONS");
                ("Access-Control-Allow-Headers", "Content-Type") ];
            body := Success true (15 * 2) (or_else None "all") props |},
       st') /\
    props = List.concat segs /\
    called_in_turn sample_world 2 CITIES segs fresh_store st' /\
    Forall2 (fun c seg => array_length seg = 2 /\ Forall (located c) seg) CITIES segs /\
    array_length props = 15 * 2 /\
    map Synth.city props = flat_map (fun c => repeat c (Z.to_nat 2)) CITIES.
Proof.
  apply (all_cities_called_in_roster_order None None "2" 2 sample_world fresh_store);
    [exact Claims.sample_world_fair|reflexivity|lia].
Defined.

(** What a request for one city is served. *)
Lemma select_single c s all max w st :
  fair w -> is_true all = false ->
  exists props st',
    generateProperties (String c s) (Some max) w st = Returned props st' /\
    array_length props = Z.max 0 max /\
    select_properties (Some (String c s)) all max w st = Returned (Some props) st'.
Proof.
  intros Hw Hall. unfold select_properties. rewrite Hall. cbn [truthy or_else].
  destruct (returns_inv _ _ _ _ (generateProperties_returns (String c s) (Some max) w st Hw))
    as (props & st' & Heq & Hlen & _).
  exists props, st'. unfold bind. rewrite Heq. split; [reflexivity|]. split; [|reflexivity].
  unfold array_length. rewrite Hlen. cbn [requested]. lia.
Qed.





(** A request for one city, answered. *)
Lemma single_city_served c s limit format w st :
  fair w ->
  exists props st',
    generateProperties (String c s) (Some (maxProperties (Some limit))) w st
      = Returned props st' /\
    array_length props = Z.max 0 (maxProperties (Some limit)) /\
    handler (GET (Some (String c s)) (Some limit) None format) w st =
      (render (Some (String c s)) format (Some props), st').
Proof.
  intros Hw.
  destruct (select_single c s None (maxProperties (Some limit)) w st Hw eq_refl)
    as (props & st' & Hgen & Hlen & Hsel).
  exists props, st'. split; [exact Hgen|]. split; [exact Hlen|].
  exact (handler_selected _ _ _ _ _ _ _ _ Hsel).
Qed.

(** C8.  The limit parameter is read with parseInt.  When it is absent, or
    does not parse to a number, the count per city is 10.  A positive value
    is kept as it is, whatever its size; no upper bound is applied.  The value
    is a number: for the decimal writing of a positive integer n it is the
    binary64 number nearest to n, which is n itself up to 2^53 and is never
    below 2^53 beyond.  That count, unchanged, is the one the synthesizer is
    called with, once for a single city and once per roster city with
    all=true, and the records it returns are the ones sent. *)
Theorem limit_is_the_parsed_number :
  maxProperties None = 10 /\
  (forall s, parseInt s = None -> maxProperties (Some s) = 10) /\
  (forall s n, parseInt s = Some n -> 0 < n -> maxProperties (Some s) = n) /\
  (forall n, 0 < n ->
      maxProperties (Some (digits n)) = nearest n /\
      (n <= 2 ^ 53 -> nearest n = n) /\
      (2 ^ 53 <= n -> 2 ^ 53 <= nearest n)) /\
  (forall c s limit n format w st,
      fair w -> parseInt limit = Some n -> 0 < n ->
      exists props st',
        generateProperties (String c s) (Some n) w st = Returned props st' /\
        array_length props = n /\
        handler (GET (Some (String c s)) (Some limit) None format) w st =
          (if String.eqb (default_to format "json") "csv" then
             {| status := 200;
                headers :=
                  [ ("Access-Control-Allow-Origin", "*");
                    ("Access-Control-Allow-Methods", "GET, OPTIONS");
                    ("Access-Control-Allow-Headers", "Content-Type");
                    ("Content-Type", "text/csv");
                    ("Content-Disposition", content_disposition (Some (String c s))) ];
                body := Text (csvHeader ++ join newline (map csv_row props)) |}
           else
             {| status := 200;
                headers :=
                  [ ("Access-Control-Allow-Origin", "*");
                    ("Access-Control-Allow-Methods", "GET, OPTIONS");
                    ("Access-Control-Allow-Headers", "Content-Type") ];
                body := Success true n (String c s) props |},
           st')) /\
  (forall city limit n format w st,
      fair w -> parseInt limit = Some n -> 0 < n ->
      exists segs st',
        called_in_turn w n CITIES segs st st' /\
        array_length (List.concat segs) = 15 * n /\
        handler (GET city (Some limit) (Some "true") format) w st =
          (if String.eqb (default_to format "json") "csv" then
             {| status := 200;
                headers :=
                  [ ("Access-Control-Allow-Origin", "*");
                    ("Access-Control-Allow-Methods", "GET, OPTIONS");
                    ("Access-Control-Allow-Headers", "Content-Type");
                    ("Content-Type", "text/csv");
                    ("Content-Disposition", content_disposition city) ];
                body := Text (csvHeader ++ join newline (map csv_row (List.concat segs))) |}
           else
             {| status := 200;
                headers :=
                  [ ("Access-Control-Allow-Origin", "*");
                    ("Access-Control-Allow-Methods", "GET, OPTIONS");
                    ("Access-Control-Allow-Headers", "Content-Type") ];
                body := Success true (15 * n) (or_else city "all") (List.concat segs) |},
           st')).
Proof.
  split; [reflexivity|]. split.
  { intros s Hs. unfold maxProperties. cbn [default_to]. now rewrite Hs. }
  split; [exact positive_limit|]. split.
  { intros n Hn. split; [|split].
    - apply positive_limit; [apply parseInt_digits; lia|].
      pose proof (nearest_mono 1 n ltac:(lia)) as H.
      change (nearest 1) with 1 in H. lia.
    - intros Hle. apply nearest_exact. lia.
    - intros Hge. pose proof (nearest_mono (2 ^ 53) n ltac:(lia)) as H.
      rewrite (nearest_exact (2 ^ 53)) in H by lia. exact H. }
  split.
  - intros c s limit n format w st Hw Hs Hn.
    destruct (single_city_served c s limit format w st Hw) as (props & st' & Hgen & Hlen & Hh).
    rewrite (positive_limit limit n Hs Hn) in Hgen, Hlen.
    exists props, st'. split; [exact Hgen|]. split; [lia|].
    rewrite Hh. unfold render, json_response.
    replace (array_length props) with n by lia. cbn [or_else].
    destruct (String.eqb (default_to format "json") "csv"); reflexivity.
  - intros city limit n format w st Hw Hs Hn.
    destruct (select_in_turn city n w st Hw) as (segs & st' & Hsel & Hturn & Hsegs).
    assert (Hlen : array_length (List.concat segs) = 15 * n).
    { unfold array_length. rewrite (segmented_length _ _ _ Hsegs). cbn [CITIES List.length]. lia. }
    exists segs, st'. split; [exact Hturn|]. split; [exact Hlen|].
    rewrite <- (positive_limit limit n Hs Hn) in Hsel.
    rewrite (handler_selected _ _ _ _ _ _ _ _ Hsel).
    unfold render, json_response. rewrite Hlen.
    destruct (String.eqb (default_to format "json") "csv"); reflexivity.
Qed.

Lemma limit_is_the_parsed_number_sample :
  maxProperties (Some "abc") = 10 /\
  maxProperties (Some "5000") = 5000 /\
  maxProperties (Some "1000000000000000000000000") = 999999999999999983222784.
Proof.
  destruct limit_is_the_parsed_number as (_ & Hnan & Hpos & Hdigits & _).
  split; [apply Hnan; reflexivity|]. split.
  - apply Hpos; [reflexivity|lia].
  - destruct (Hdigits (10 ^ 24)) as [H _]; [lia|]. exact H.
Defined.

(** A limit above 2^53: the count is the number nearest to it, not the
    integer written, and the synthesizer is called with that number. *)
Lemma limit_above_2_53_is_rounded :
  digits 9007199254740993 = "9007199254740993" /\
  parseInt "9007199254740993" = Some 9007199254740992 /\
  maxProperties (Some "9007199254740993") = 9007199254740992 /\
  maxProperties (Some "9007199254740993") <> 9007199254740993 /\
  forall w st,
    handler (GET (Some "Orlando") (Some "9007199254740993") None None) w st =
    match generateProperties "Orlando" (Some 9007199254740992) w st with
    | Returned props st' =>
        ({| status := 200;
            headers :=
              [ ("Access-Control-Allow-Origin", "*");
                ("Access-Control-Allow-Methods", "GET, OPTIONS");
                ("Access-Control-Allow-Headers", "Content-Type") ];
            body := Success true (array_length props) "Orlando" props |}, st')
    | Threw e st' =>
        ({| status := 500;
            headers :=
              [ ("Access-Control-Allow-Origin", "*");
                ("Access-Control-Allow-Methods", "GET, OPTIONS");
                ("Access-Control-Allow-Headers", "Content-Type") ];
            body := Failure false (error_message e) |}, st')
    end.
Proof.
  assert (Hmax : maxProperties (Some "9007199254740993") = 9007199254740992)
    by (vm_compute; reflexivity).
  split; [vm_compute; reflexivity|]. split; [vm_compute; reflexivity|].
  split; [exact Hmax|]. split; [rewrite Hmax; discriminate|].
  intros w st. rewrite handler_GET. unfold serve, select_properties, bind.
  cbn [q_city q_limit q_all q_format is_true truthy or_else]. rewrite Hmax.
  destruct (generateProperties "Orlando" (Some 9007199254740992) w st); reflexivity.
Qed.

End ClaimsInDetail.

Module LegacyClaims.

Import Binary64 Binary64Facts JS Effects Index Fallback FallbackDetails FallbackFacts.
Import Api(Query, q_city, q_limit, q_format, Request, method, query, newline, dquote,
           cors_headers, default_to, or_else, quoted, GET, is_true, Usage).
Import ApiFacts LegacyFacts Samples FallbackSamples.

(** What the first adapter answers a request that names no city. *)
Lemma legacy_without_city limit all format env s :
  exists props s',
    Legacy.handler (GET None limit all format) env s =
      (if String.eqb (default_to format "json") "csv" then
         {| Legacy.status := 200;
            Legacy.headers :=
              [ ("Access-Control-Allow-Origin", "*");
                ("Access-Control-Allow-Methods", "GET, OPTIONS");
                ("Access-Control-Allow-Headers", "Content-Type");
                ("Content-Type", "text/csv");
                ("Content-Disposition",
                 "attachment; filename=" ++ quoted "properties-Orlando.csv") ];
            Legacy.body := Legacy.Text (Legacy.csv props) |}
       else
         {| Legacy.status := 200;
            Legacy.headers :=
              [ ("Access-Control-Allow-Origin", "*");
                ("Access-Control-Allow-Methods", "GET, OPTIONS");
                ("Access-Control-Allow-Headers", "Content-Type") ];
            Legacy.body := Legacy.Success true "Orlando" (array_length props) props |},
       s') /\
    List.length props = turns (Legacy.parsed_limit limit) /\
    Forall (fun p => Fallback.city p = "Orlando") props.
Proof.
  destruct (generateSampleProperties_done (Legacy.sampleCity None)
              (Some (Legacy.parsed_limit limit)) env s)
    as (props & s' & Heq & Hlen & Hlab & _).
  destruct (legacy_GET None limit all format env s) as (props' & s'' & Heq' & Hh).
  rewrite Heq in Heq'. injection Heq' as <- <-.
  exists props, s'. split; [|split].
  - rewrite Hh. unfold Legacy.respond.
    destruct (String.eqb (default_to format "json") "csv"); reflexivity.
  - exact Hlen.
  - eapply Forall_impl; [|exact Hlab]. intros p (_ & H & _). exact H.
Qed.

(** C5.  The usage error is the second adapter's (api/scrape-v2.js): a GET
    request with no city parameter, or an empty one, and without all=true is
    answered with status 400 and a body whose usage field shows both query
    shapes, the single-city one and the all-cities one; no city is assumed and
    no draw is taken.  The first adapter (api/scrape.js) has no such error:
    the same request is answered with status 200 and records generated for
    Orlando, the city it assumes. *)
Theorem usage_error_in_second_adapter_only
    (limit all format : option string) (w : World) (st : Store) (env : Env) (s : State) :
  is_true all = false ->
  Api.handler (GET None limit all format) w st =
    ({| Api.status := 400;
        Api.headers :=
          [ ("Access-Control-Allow-Origin", "*");
            ("Access-Control-Allow-Methods", "GET, OPTIONS");
            ("Access-Control-Allow-Headers", "Content-Type") ];
        Api.body := Usage "Missing parameter"
                          "/api/scrape-v2?city=Orlando&limit=50"
                          "/api/scrape-v2?all=true&limit=10" |}, st) /\
  Api.handler (GET (Some "") limit all format) w st =
    Api.handler (GET None limit all format) w st /\
  exists props s',
    Legacy.handler (GET None limit all format) env s =
      (if String.eqb (default_to format "json") "csv" then
         {| Legacy.status := 200;
            Legacy.headers :=
              [ ("Access-Control-Allow-Origin", "*");
                ("Access-Control-Allow-Methods", "GET, OPTIONS");
                ("Access-Control-Allow-Headers", "Content-Type");
                ("Content-Type", "text/csv");
                ("Content-Disposition",
                 "attachment; filename=" ++ quoted "properties-Orlando.csv") ];
            Legacy.body := Legacy.Text (Legacy.csv props) |}
       else
         {| Legacy.status := 200;
            Legacy.headers :=
              [ ("Access-Control-Allow-Origin", "*");
                ("Access-Control-Allow-Methods", "GET, OPTIONS");
                ("Access-Control-Allow-Headers", "Content-Type") ];
            Legacy.body := Legacy.Success true "Orlando" (array_length props) props |},
       s') /\
    List.length props = turns (Legacy.parsed_limit limit) /\
    Forall (fun p => Fallback.city p = "Orlando") props.
Proof.
  intros Hall.
  assert (Hnone : Api.handler (GET None limit all format) w st = (Api.usage_response, st)).
  { apply (handler_selected None limit all format w st None st).
    unfold Api.select_properties. rewrite Hall. reflexivity. }
  split; [exact Hnone|]. split.
  - rewrite Hnone. apply (handler_selected (Some "") limit all format w st None st).
    unfold Api.select_properties. rewrite Hall. reflexivity.
  - apply legacy_without_city.
Qed.

Lemma usage_error_in_second_adapter_only_sample :
  Api.handler (GET None (Some "5") (Some "yes") None) sample_world fresh_store =
    ({| Api.status := 400;
        Api.headers :=
          [ ("Access-Control-Allow-Origin", "*");
            ("Access-Control-Allow-Methods", "GET, OPTIONS");
            ("Access-Control-Allow-Headers", "Content-Type") ];
        Api.body := Usage "Missing parameter"
                          "/api/scrape-v2?city=Orlando&limit=50"
                          "/api/scrape-v2?all=true&limit=10" |}, fresh_store) /\
  Api.handler (GET (Some "") (Some "5") (Some "yes") None) sample_world fresh_store =
    Api.handler (GET None (Some "5") (Some "yes") None) sample_world fresh_store /\
  exists props s',
    Legacy.handler (GET None (Some "5") (Some "yes") None) sample_env fresh_state =
      (if String.eqb (default_to None "json") "csv" then
         {| Legacy.status := 200;
            Legacy.headers :=
              [ ("Access-Control-Allow-Origin", "*");
                ("Access-Control-Allow-Methods", "GET, OPTIONS");
                ("Access-Control-Allow-Headers", "Content-Type");
                ("Content-Type", "text/csv");
                ("Content-Disposition",
                 "attachment; filename=" ++ quoted "properties-Orlando.csv") ];
            Legacy.body := Legacy.Text (Legacy.csv props) |}
       else
         {| Legacy.status := 200;
            Legacy.headers :=
              [ ("Access-Control-Allow-Origin", "*");
                ("Access-Control-Allow-Methods", "GET, OPTIONS");
                ("Access-Control-Allow-Headers", "Content-Type") ];
            Legacy.body := Legacy.Success true "Orlando" (array_length props) props |},
       s') /\
    List.length props = turns (Legacy.parsed_limit (Some "5")) /\
    Forall (fun p => Fallback.city p = "Orlando") props.
Proof.
  apply (usage_error_in_second_adapter_only (Some "5") (Some "yes") None
           sample_world fresh_store sample_env fresh_state).
  reflexivity.
Defined.

(** The first adapter, asked without a city and without all=true: status
    200, not 400, and ten records for Orlando. *)
Lemma first_adapter_assumes_orlando :
  is_true None = false /\
  exists props s',
    Legacy.handler (GET None None None None) sample_env fresh_state =
      ({| Legacy.status := 200;
          Legacy.headers :=
            [ ("Access-Control-Allow-Origin", "*");
              ("Access-Control-Allow-Methods", "GET, OPTIONS");
              ("Access-Control-Allow-Headers", "Content-Type") ];
          Legacy.body := Legacy.Success true "Orlando" 10 props |}, s') /\
    List.length props = 10%nat /\
    Forall (fun p => Fallback.city p = "Orlando") props /\
    Legacy.status (fst (Legacy.handler (GET None None None None) sample_env fresh_state)) <> 400.
Proof.
  split; [reflexivity|].
  destruct (legacy_without_city None None None sample_env fresh_state)
    as (props & s' & Heq & Hlen & Hcity).
  assert (Hten : List.length props = 10%nat) by (rewrite Hlen; vm_compute; reflexivity).
  exists props, s'. split; [|split; [exact Hten|split; [exact Hcity|]]].
  - rewrite Heq. cbn [default_to String.eqb Ascii.eqb Bool.eqb].
    unfold array_length. rewrite Hten. reflexivity.
  - rewrite Heq. cbn. discriminate.
Qed.

End LegacyClaims.
